(** * VDrift track loader: a shallow embedding of [src/trackloader.cpp]
      and of the mesh metrics of [src/graphics/model.cpp].

    The C++ methods of [TRACK::LOADER] become functions that pass the state
    they read and write explicitly.  [float] and [btScalar] values are
    modelled as exact rationals ([Q]): comparisons are exact, arithmetic is
    taken without rounding.  [int] is a 32-bit integer kept as a [Z] with its
    wrap-around written out.  A failed [assert] and an access outside a
    container are visible results of the model ([AssertionFailed],
    [Undefined]) and loops whose termination the source does not ensure take
    a fuel argument ([OutOfFuel]). *)

From Stdlib Require Import ZArith QArith String Ascii List Lia Lqa.
From stdpp Require Import base option list gmap strings pretty finite.

Set Warnings "-register-all".
Local Open Scope string_scope.
Local Open Scope list_scope.
Local Open Scope Z_scope.

(* ================================================================== *)
(** ** Results of a call *)

Inductive outcome (A : Type) : Type :=
| Ret (a : A)
| AssertionFailed (what : string)
| Undefined (what : string)
| OutOfFuel.
Arguments Ret {A} a.
Arguments AssertionFailed {A} what.
Arguments Undefined {A} what.
Arguments OutOfFuel {A}.

#[global] Instance outcome_ret : MRet outcome := fun A a => Ret a.
#[global] Instance outcome_bind : MBind outcome := fun A B f c =>
  match c with
  | Ret a => f a
  | AssertionFailed w => AssertionFailed w
  | Undefined w => Undefined w
  | OutOfFuel => OutOfFuel
  end.

Definition assert (b : bool) (what : string) : outcome unit :=
  if b then Ret tt else AssertionFailed what.

Definition returns {A} (c : outcome A) : Prop := exists a, c = Ret a.

(* ================================================================== *)
(** ** Numbers *)

Definition INT_MAX : Z := 2147483647.
Definition INT_MIN : Z := -2147483648.

(** Two's complement wrap-around of a 32-bit [int]. *)
Definition wrap_int (z : Z) : Z := (z + 2 ^ 31) mod 2 ^ 32 - 2 ^ 31.

(** Conversion of an [int] to [size_t], as done when an [int] indexes a
    [std::vector]. *)
Definition to_size_t (z : Z) : Z := z mod 2 ^ 64.

(** [v[i]] on a [std::vector] for an [int] index: the index is converted to
    [size_t]; outside the vector the access is undefined. *)
Definition vector_at {A} (v : list A) (i : Z) : option A :=
  let k := to_size_t i in
  if k <? Z.of_nat (List.length v) then v !! Z.to_nat k else None.

Definition Qltb (x y : Q) : bool := (Qnum x * QDen y <? Qnum y * QDen x)%Z.
Definition Qleb (x y : Q) : bool := (Qnum x * QDen y <=? Qnum y * QDen x)%Z.

Definition vec3 : Type := Q * Q * Q.
Definition vec3_zero : vec3 := (0%Q, 0%Q, 0%Q).
Definition vec3_add (a b : vec3) : vec3 :=
  let '(a0, a1, a2) := a in let '(b0, b1, b2) := b in
  ((a0 + b0)%Q, (a1 + b1)%Q, (a2 + b2)%Q).
Definition vec3_sub (a b : vec3) : vec3 :=
  let '(a0, a1, a2) := a in let '(b0, b1, b2) := b in
  ((a0 - b0)%Q, (a1 - b1)%Q, (a2 - b2)%Q).
Definition vec3_scale (a : vec3) (k : Q) : vec3 :=
  let '(a0, a1, a2) := a in ((a0 * k)%Q, (a1 * k)%Q, (a2 * k)%Q).
Definition vec3_neg (a : vec3) : vec3 := vec3_sub vec3_zero a.
Definition vec3_dot (a b : vec3) : Q :=
  let '(a0, a1, a2) := a in let '(b0, b1, b2) := b in
  (a0 * b0 + a1 * b1 + a2 * b2)%Q.
Definition vec3_eq (a b : vec3) : Prop :=
  let '(a0, a1, a2) := a in let '(b0, b1, b2) := b in
  (a0 == b0)%Q /\ (a1 == b1)%Q /\ (a2 == b2)%Q.

(* ================================================================== *)
(** ** [std::ifstream] and the token reader [get] (trackloader.cpp 617-639) *)

Module IStream.

Record ifstream : Type := mkStream {
  buf : string;        (* characters not yet extracted *)
  eofbit : bool;
  failbit : bool }.

(** [std::ifstream f(path)]: a file that cannot be opened leaves the
    stream with [failbit] set. *)
Definition open (file : option string) : ifstream :=
  match file with
  | Some s => mkStream s false false
  | None => mkStream "" false true
  end.

Definition closed : ifstream := mkStream "" false true.

Definition good (f : ifstream) : bool := negb (eofbit f) && negb (failbit f).

Definition isspace (c : ascii) : bool :=
  let n := nat_of_ascii c in
  (n =? 32)%nat || ((9 <=? n)%nat && (n <=? 13)%nat).

Fixpoint skipws (s : string) : string :=
  match s with
  | String c s' => if isspace c then skipws s' else s
  | EmptyString => EmptyString
  end.

(** The maximal prefix without white space, and what follows it. *)
Fixpoint word (s : string) : string * string :=
  match s with
  | String c s' =>
      if isspace c then (EmptyString, s)
      else let '(w, r) := word s' in (String c w, r)
  | EmptyString => (EmptyString, EmptyString)
  end.

Definition is_empty (s : string) : bool :=
  match s with EmptyString => true | _ => false end.

(** [f >> instr] for a [std::string]: when the stream is not good, or only
    white space is left, [failbit] is set and [instr] keeps its value. *)
Definition extract (instr : string) (f : ifstream) : string * ifstream :=
  if good f then
    match skipws (buf f) with
    | EmptyString => (instr, mkStream EmptyString true true)
    | s => let '(w, r) := word s in (w, mkStream r (is_empty r) false)
    end
  else (instr, mkStream (buf f) (eofbit f) true).

Definition newline : ascii := ascii_of_nat 10.

(** [n] characters at most are dropped, the delimiter included; the flag
    tells that the end of the file was met. *)
Fixpoint ignore_chars (n : nat) (s : string) : string * bool :=
  match n with
  | O => (s, false)
  | S n' =>
      match s with
      | EmptyString => (EmptyString, true)
      | String c s' =>
          if Ascii.eqb c newline then (s', false) else ignore_chars n' s'
      end
  end.

(** [f.ignore(1024, '\n')] *)
Definition ignore (f : ifstream) : ifstream :=
  if good f then
    let '(r, e) := ignore_chars 1024 (buf f) in mkStream r e false
  else mkStream (buf f) (eofbit f) true.

Definition is_comment (instr : string) : bool :=
  match instr with
  | String c _ => Ascii.eqb c "#"%char
  | EmptyString => false
  end.

(** The loop [while (!instr.empty() && instr[0] == '#' && f.good())]. *)
Fixpoint skip_comments (fuel : nat) (instr : string) (f : ifstream)
  : string * ifstream :=
  match fuel with
  | O => (instr, f)
  | S k =>
      if is_comment instr && good f then
        let '(instr', f') := extract instr (ignore f) in
        skip_comments k instr' f'
      else (instr, f)
  end.

(** [get(f, output)] up to the conversion of the token: [Some instr] when
    the source returns [true], with [instr] the token that is then
    converted into [output]; the stream is consumed in the same way for
    every type of [output]. *)
Definition get (f : ifstream) : option string * ifstream :=
  if good f then
    let '(instr, f1) := extract EmptyString f in
    if is_empty instr then (None, f1)
    else
      let '(instr', f2) :=
        skip_comments (S (String.length (buf f1))) instr f1 in
      if negb (good f2) && is_comment instr' then (None, f2)
      else (Some instr', f2)
  else (None, f).

(** *** Conversions [sstr >> output] *)

Definition digit (c : ascii) : option Z :=
  let n := nat_of_ascii c in
  if (48 <=? n)%nat && (n <=? 57)%nat then Some (Z.of_nat n - 48) else None.

Fixpoint digits (acc : option Z) (s : string) : option Z :=
  match s with
  | String c s' =>
      match digit c with
      | Some d => digits (Some (10 * default 0 acc + d)) s'
      | None => acc
      end
  | EmptyString => acc
  end.

Definition clamp_int (z : Z) : Z := Z.max INT_MIN (Z.min INT_MAX z).

(** The decimal number at the head of the token, if any. *)
Definition parse_int (s : string) : option Z :=
  match s with
  | String "-" s' => Z.opp <$> digits None s'
  | String "+" s' => digits None s'
  | _ => digits None s
  end.

(** [sstr >> output] for an [int]: a token that does not start with a
    number stores zero, a number outside the range of [int] is clamped. *)
Definition to_int (instr : string) : Z :=
  match parse_int instr with
  | Some z => clamp_int z
  | None => 0
  end.

(** [sstr >> output] for a [bool] (no [boolalpha]): [0] is false, every
    other number is true, no number is false. *)
Definition to_bool (instr : string) : bool :=
  match parse_int instr with
  | Some z => negb (z =? 0)
  | None => false
  end.

Definition get_string (f : ifstream) (output : string) : bool * string * ifstream :=
  match get f with
  | (Some instr, f') => (true, instr, f')
  | (None, f') => (false, output, f')
  end.

Definition get_int (f : ifstream) (output : Z) : bool * Z * ifstream :=
  match get f with
  | (Some instr, f') => (true, to_int instr, f')
  | (None, f') => (false, output, f')
  end.

Definition get_bool (f : ifstream) (output : bool) : bool * bool * ifstream :=
  match get f with
  | (Some instr, f') => (true, to_bool instr, f')
  | (None, f') => (false, output, f')
  end.

(** [n] calls of [get] whose token is dropped (the reads into [junk]). *)
Fixpoint get_junk (n : nat) (f : ifstream) : ifstream :=
  match n with
  | O => f
  | S n' => get_junk n' (snd (get f))
  end.

End IStream.
Import IStream.

(* ================================================================== *)
(** ** Meshes and models (graphics/model.cpp) *)

(** [VERTEXARRAY] (vertexarray.h is not among the sources): the vertex
    positions are the flat [float] array that [GetVertices] hands out, three
    floats per vertex, the faces are indices of vertices. *)
Module VERTEXARRAY.
Record t : Type := mk { vertices : list Q; faces : list Z }.
Definition empty : t := mk [] [].
(** Modelled from the spec: [operator+] of [VERTEXARRAY] is not among the
    sources; the spec describes the merge as "vertex-array concatenation",
    "additive, no dedup".  The faces of the right operand are shifted past
    the vertices of the left one. *)
Definition add (a b : t) : t :=
  mk (vertices a ++ vertices b)
     (faces a ++ map (Z.add (Z.of_nat (List.length (vertices a)) / 3)) (faces b)).
Definition GetNumFaces (a : t) : Z := Z.of_nat (List.length (faces a)).
End VERTEXARRAY.

Module MODEL.

Record t : Type := mk {
  m_mesh : VERTEXARRAY.t;
  min : vec3;
  max : vec3;
  generatedmetrics : bool }.

(** [MODEL::MODEL()]; [min] and [max] are default-constructed vectors. *)
Definition new : t := mk VERTEXARRAY.empty vec3_zero vec3_zero false.

(** [std::numeric_limits<float>::max()] and [...::min()]: the largest
    finite [float] and the smallest positive normalised [float]. *)
Definition flt_max : Q := inject_Z ((2 ^ 24 - 1) * 2 ^ 104).
Definition flt_min : Q := 1 # (2 ^ 126).

(** The loop of [GenerateMeshMetrics] over the vertex array; [None] when
    the array does not hold three floats per vertex (the source then reads
    past its end). *)
Fixpoint metrics_loop (verts : list Q) (maxv minv : vec3) : option (vec3 * vec3) :=
  match verts with
  | [] => Some (maxv, minv)
  | v0 :: v1 :: v2 :: rest =>
      let '(M0, M1, M2) := maxv in
      let '(m0, m1, m2) := minv in
      metrics_loop rest
        (if Qltb M0 v0 then v0 else M0,
         if Qltb M1 v1 then v1 else M1,
         if Qltb M2 v2 then v2 else M2)
        (if Qltb v0 m0 then v0 else m0,
         if Qltb v1 m1 then v1 else m1,
         if Qltb v2 m2 then v2 else m2)
  | _ => None
  end.

(** [MODEL::GenerateMeshMetrics] (model.cpp 347-375).  The radius, a
    square root, is left out. *)
Definition GenerateMeshMetrics (m : t) : outcome t :=
  let maxv := (flt_min, flt_min, flt_min) in
  let minv := (flt_max, flt_max, flt_max) in
  let verts := VERTEXARRAY.vertices (m_mesh m) in
  _ ← assert (negb (Nat.eqb (List.length verts) 0)) "vnum3";
  match metrics_loop verts maxv minv with
  | Some (maxv', minv') => Ret (mk (m_mesh m) minv' maxv' true)
  | None => Undefined "GenerateMeshMetrics: read past the vertex array"
  end.

Definition GetSize (m : t) : vec3 := vec3_sub (max m) (min m).
Definition GetCenter (m : t) : vec3 := vec3_scale (vec3_add (max m) (min m)) (1 # 2).
Definition HaveMeshMetrics (m : t) : bool := generatedmetrics m.
Definition GetVertexArray (m : t) : VERTEXARRAY.t := m_mesh m.

(** [Clear] then [m_mesh = newmesh]: the metrics flag is reset, [min] and
    [max] keep their values. *)
Definition SetVertexArray (newmesh : VERTEXARRAY.t) (m : t) : t :=
  mk newmesh (min m) (max m) false.

Definition BuildFromVertexArray (newmesh : VERTEXARRAY.t) (m : t) : outcome t :=
  GenerateMeshMetrics (SetVertexArray newmesh m).

(** [MODEL::Load(varray, error_output, genlist)] *)
Definition Load (varray : VERTEXARRAY.t) (m : t) : outcome t :=
  BuildFromVertexArray varray m.

(** Number of vertices of the mesh. *)
Definition vertex_count (m : t) : Z :=
  Z.of_nat (List.length (VERTEXARRAY.vertices (m_mesh m))) / 3.

End MODEL.

(** The componentwise extrema of a vertex array, as the spec describes
    [min] and [max]; [None] for an empty array. *)
Fixpoint component (k : nat) (verts : list Q) : list Q :=
  match verts with
  | v0 :: v1 :: v2 :: rest =>
      match k with
      | O => v0 | 1%nat => v1 | _ => v2
      end :: component k rest
  | _ => []
  end.

Definition Qmaximum (l : list Q) : option Q :=
  match l with
  | [] => None
  | x :: l' => Some (fold_left (fun a b => if Qltb a b then b else a) l' x)
  end.

Definition Qminimum (l : list Q) : option Q :=
  match l with
  | [] => None
  | x :: l' => Some (fold_left (fun a b => if Qltb b a then b else a) l' x)
  end.

(* ================================================================== *)
(** ** Configuration trees *)

(** Modelled from the spec: [PTree] is the "black-box hierarchical lookup
    service"; a node is kept with the values its typed [get] calls deliver.
    [children] lists the sub-sections in the iteration order of the node. *)
Inductive PTree : Type := mkPTree {
  value : string;
  parent : option string;            (* [parent()->value()], if there is one *)
  strings : gmap string string;
  ints : gmap string Z;
  bools : gmap string bool;
  floats : gmap string Q;
  vectors : gmap string (list Q);
  children : list (string * PTree) }.

(** [cfg.get(key, output)]: [output] is written only when the key is there;
    the result tells whether it was. *)
Definition get_value {A} (m : gmap string A) (key : string) (output : A) : bool * A :=
  match m !! key with
  | Some v => (true, v)
  | None => (false, output)
  end.

(** A comma-separated value read into a vector of fixed size: the leading
    components are overwritten, the others keep their value
    (trackloader.cpp 31-53 and the like in [PTree]). *)
Definition overwrite (new old : list Q) : list Q :=
  take (List.length old) new ++ drop (List.length new) old.

Definition get_vector (cfg : PTree) (key : string) (output : list Q) : bool * list Q :=
  match vectors cfg !! key with
  | Some v => (true, overwrite v output)
  | None => (false, output)
  end.

Definition vec3_of_list (l : list Q) : vec3 :=
  (nth 0 l 0%Q, nth 1 l 0%Q, nth 2 l 0%Q).
Definition list_of_vec3 (v : vec3) : list Q :=
  let '(a, b, c) := v in [a; b; c].

Definition get_vec3 (cfg : PTree) (key : string) (output : vec3) : bool * vec3 :=
  let '(found, l) := get_vector cfg key (list_of_vec3 output) in
  (found, vec3_of_list l).

Definition get_section (cfg : PTree) (key : string) : option PTree :=
  snd <$> List.find (fun kv => String.eqb (fst kv) key) (children cfg).

(* ================================================================== *)
(** ** Track data *)

Record TRACKSURFACE : Type := mkSurface {
  surface_type : string;
  bumpWaveLength : Q;
  bumpAmplitude : Q;
  frictionNonTread : Q;
  frictionTread : Q;
  rollResistanceCoefficient : Q;
  rollingDrag : Q }.

(** A [BEZIER *] into the patches of the roads: road and patch number. *)
Definition patch_ptr : Type := nat * nat.

Module BEZIER.
Record t : Type := mk {
  length : Q;
  dist_from_start : Q;
  next_patch : option patch_ptr;
  BL : vec3 }.
Definition set_dist (d : Q) (b : t) : t :=
  mk (length b) d (next_patch b) (BL b).
End BEZIER.

(** A road strip with the patches of [GetPatches()]. *)
Record ROADSTRIP : Type := mkRoad { patches : list BEZIER.t }.

(** A shared model pointer: a handle into the models the content manager
    keeps alive. *)
Definition model_ptr : Type := nat.

Record btTriangleIndexVertexArray : Type := mkMesh {
  m_numTriangles : Z;
  m_numVertices : Z;
  mesh_of : MODEL.t }.

Inductive btCollisionShape : Type :=
| btBvhTriangleMeshShape (mesh : btTriangleIndexVertexArray) (userPointer : option Z)
| btBoxShape (halfExtents : vec3)
| AuthoredShape (description : string).

(** The user pointer of a triangle mesh shape is [&data.surfaces[surface]]:
    the surface number. *)
Definition getUserPointer (s : btCollisionShape) : option Z :=
  match s with
  | btBvhTriangleMeshShape _ p => p
  | _ => None
  end.

Record DRAWABLE : Type := mkDrawable {
  draw_model : option MODEL.t;
  decal : bool;
  draw_cull : bool;
  draw_center : vec3;
  draw_skybox : bool;
  vertical_track : bool }.

Inductive layer : Type :=
| normal_noblend | normal_blend | normal_noblend_nolighting
| skybox_blend | skybox_noblend.

(* ================================================================== *)
(** ** Quaternions, physics objects and scene nodes *)

(** A quaternion with its components [q[0]], [q[1]], [q[2]], [q[3]]
    (x, y, z, w). *)
Definition QUATERNION : Type := Q * Q * Q * Q.
Definition quat_at (q : QUATERNION) (i : nat) : Q :=
  let '(x, y, z, w) := q in
  match i with O => x | 1%nat => y | 2%nat => z | _ => w end.
(** [QUATERNION()]: the identity rotation. *)
Definition quat_identity : QUATERNION := (0%Q, 0%Q, 0%Q, 1%Q).

(** [M_PI] and [M_PI_2], the [double] constants of [math.h]. *)
Definition M_PI : Q := 884279719003555 # (2 ^ 48).
Definition M_PI_2 : Q := 884279719003555 # (2 ^ 49).

(** The collaborators this file calls and whose code is elsewhere: the
    trigonometric part of [QUATERNION] (quaternion.h), the authored-shape
    loader (loadcollisionshape.h) and Bullet's inertia computation. *)
Class Externals : Type := {
  (** [QUATERNION(x, y, z)], from Euler angles *)
  quat_of_euler : Q -> Q -> Q -> QUATERNION;
  (** [q.SetEulerZYX(z, y, x)] *)
  SetEulerZYX : Q -> Q -> Q -> QUATERNION;
  (** [a * b] *)
  quat_mul : QUATERNION -> QUATERNION -> QUATERNION;
  (** [q.Rotate(angle, ax, ay, az)] *)
  Rotate : Q -> Q -> Q -> Q -> QUATERNION -> QUATERNION;
  (** [q.RotateVector(v)] *)
  RotateVector : QUATERNION -> vec3 -> vec3;
  (** [LoadCollisionShape(cfg, transform, shape, compound)]: the authored
      shape and the compound, each possibly null; the transform is given by
      its origin. *)
  LoadCollisionShape : PTree -> vec3 -> option string * option string;
  (** [shape->calculateLocalInertia(mass, inertia)] *)
  calculateLocalInertia : btCollisionShape -> Q -> vec3;
  (** [direction::Forward] (coordinatesystem.h) *)
  Forward : vec3 }.

Record btRigidBodyConstructionInfo : Type := mkRigidInfo {
  info_mass : Q;
  info_inertia : vec3;
  m_friction : Q }.

Record MotionState : Type := mkMotionState {
  ms_rotation : QUATERNION;
  ms_position : vec3;
  massCenterOffset : vec3 }.

(** A [btCollisionObject]; [rigid] is set for a [btRigidBody]. *)
Record btCollisionObject : Type := mkObject {
  disable_simulation : bool;
  worldTransform : option (vec3 * QUATERNION);
  collisionShape : option btCollisionShape;
  object_userPointer : option Z;
  rigid : option (btRigidBodyConstructionInfo * MotionState);
  contactProcessingThreshold : option Q }.

(** [DynamicsWorld]: the objects added to the physics world. *)
Definition DynamicsWorld : Type := list btCollisionObject.

(** A scene node: its draw lists, and its child nodes with their transform
    and draw lists. *)
Record SCENENODE : Type := mkNode {
  drawlist : list (layer * DRAWABLE);
  childnodes : list (vec3 * QUATERNION * list (layer * DRAWABLE)) }.

Definition empty_node : SCENENODE := mkNode [] [].

Record BODY : Type := mkBody {
  drawable : DRAWABLE;
  body_mesh : option btTriangleIndexVertexArray;
  shape : option btCollisionShape;
  inertia : vec3;
  center : vec3;
  mass : Q;
  collidable : bool;
  nolighting : bool }.

(** Modelled from the spec: the constructor of [BODY] is in trackloader.h,
    which is not among the sources.  A body starts with no mass and not
    collidable: "Mass < 1e-3 is the sentinel for static", and an object
    without [mass] key gives "a non-collidable body". *)
Definition BODY_new : BODY :=
  mkBody (mkDrawable None false false vec3_zero false false)
         None None vec3_zero vec3_zero 0%Q false false.

Record OBJECT : Type := mkOBJECT {
  model : option model_ptr;
  texture : string;
  mipmap : bool;
  object_nolighting : bool;
  skybox : bool;
  transparent_blend : Z;
  clamptexture : Z;
  collideable : bool;
  surface : Z;
  cached : bool }.

(** Modelled from the spec: the constructor of [OBJECT] is in trackloader.h
    as well; the fields matter only for a record cut short by the end of the
    file. *)
Definition OBJECT_new : OBJECT :=
  mkOBJECT None "" false false false 0 0 false 0 false.

Record DATA : Type := mkDATA {
  surfaces : list TRACKSURFACE;
  roads : list ROADSTRIP;
  start_positions : list (vec3 * QUATERNION);
  lap : list patch_ptr;
  models : list (option model_ptr);
  meshes : list btTriangleIndexVertexArray;
  shapes : list btCollisionShape;
  objects : list btCollisionObject;
  body_transforms : list MotionState;
  body_nodes : list nat;
  static_node : SCENENODE;
  dynamic_node : SCENENODE;
  cull : bool;
  vertical_tracking_skyboxes : bool;
  reverse : bool;
  loaded : bool }.

Definition set_surfaces (x : list TRACKSURFACE) (r : DATA) : DATA :=
  mkDATA (x) (roads r) (start_positions r) (lap r) (models r) (meshes r) (shapes r) (objects r) (body_transforms r) (body_nodes r) (static_node r) (dynamic_node r) (cull r) (vertical_tracking_skyboxes r) (reverse r) (loaded r).
Definition set_roads (x : list ROADSTRIP) (r : DATA) : DATA :=
  mkDATA (surfaces r) (x) (start_positions r) (lap r) (models r) (meshes r) (shapes r) (objects r) (body_transforms r) (body_nodes r) (static_node r) (dynamic_node r) (cull r) (vertical_tracking_skyboxes r) (reverse r) (loaded r).
Definition set_start_positions (x : list (vec3 * QUATERNION)) (r : DATA) : DATA :=
  mkDATA (surfaces r) (roads r) (x) (lap r) (models r) (meshes r) (shapes r) (objects r) (body_transforms r) (body_nodes r) (static_node r) (dynamic_node r) (cull r) (vertical_tracking_skyboxes r) (reverse r) (loaded r).
Definition set_lap (x : list patch_ptr) (r : DATA) : DATA :=
  mkDATA (surfaces r) (roads r) (start_positions r) (x) (models r) (meshes r) (shapes r) (objects r) (body_transforms r) (body_nodes r) (static_node r) (dynamic_node r) (cull r) (vertical_tracking_skyboxes r) (reverse r) (loaded r).
Definition set_models (x : list (option model_ptr)) (r : DATA) : DATA :=
  mkDATA (surfaces r) (roads r) (start_positions r) (lap r) (x) (meshes r) (shapes r) (objects r) (body_transforms r) (body_nodes r) (static_node r) (dynamic_node r) (cull r) (vertical_tracking_skyboxes r) (reverse r) (loaded r).
Definition set_meshes (x : list btTriangleIndexVertexArray) (r : DATA) : DATA :=
  mkDATA (surfaces r) (roads r) (start_positions r) (lap r) (models r) (x) (shapes r) (objects r) (body_transforms r) (body_nodes r) (static_node r) (dynamic_node r) (cull r) (vertical_tracking_skyboxes r) (reverse r) (loaded r).
Definition set_shapes (x : list btCollisionShape) (r : DATA) : DATA :=
  mkDATA (surfaces r) (roads r) (start_positions r) (lap r) (models r) (meshes r) (x) (objects r) (body_transforms r) (body_nodes r) (static_node r) (dynamic_node r) (cull r) (vertical_tracking_skyboxes r) (reverse r) (loaded r).
Definition set_objects (x : list btCollisionObject) (r : DATA) : DATA :=
  mkDATA (surfaces r) (roads r) (start_positions r) (lap r) (models r) (meshes r) (shapes r) (x) (body_transforms r) (body_nodes r) (static_node r) (dynamic_node r) (cull r) (vertical_tracking_skyboxes r) (reverse r) (loaded r).
Definition set_body_transforms (x : list MotionState) (r : DATA) : DATA :=
  mkDATA (surfaces r) (roads r) (start_positions r) (lap r) (models r) (meshes r) (shapes r) (objects r) (x) (body_nodes r) (static_node r) (dynamic_node r) (cull r) (vertical_tracking_skyboxes r) (reverse r) (loaded r).
Definition set_body_nodes (x : list nat) (r : DATA) : DATA :=
  mkDATA (surfaces r) (roads r) (start_positions r) (lap r) (models r) (meshes r) (shapes r) (objects r) (body_transforms r) (x) (static_node r) (dynamic_node r) (cull r) (vertical_tracking_skyboxes r) (reverse r) (loaded r).
Definition set_static_node (x : SCENENODE) (r : DATA) : DATA :=
  mkDATA (surfaces r) (roads r) (start_positions r) (lap r) (models r) (meshes r) (shapes r) (objects r) (body_transforms r) (body_nodes r) (x) (dynamic_node r) (cull r) (vertical_tracking_skyboxes r) (reverse r) (loaded r).
Definition set_dynamic_node (x : SCENENODE) (r : DATA) : DATA :=
  mkDATA (surfaces r) (roads r) (start_positions r) (lap r) (models r) (meshes r) (shapes r) (objects r) (body_transforms r) (body_nodes r) (static_node r) (x) (cull r) (vertical_tracking_skyboxes r) (reverse r) (loaded r).
Definition set_cull (x : bool) (r : DATA) : DATA :=
  mkDATA (surfaces r) (roads r) (start_positions r) (lap r) (models r) (meshes r) (shapes r) (objects r) (body_transforms r) (body_nodes r) (static_node r) (dynamic_node r) (x) (vertical_tracking_skyboxes r) (reverse r) (loaded r).
Definition set_vertical_tracking_skyboxes (x : bool) (r : DATA) : DATA :=
  mkDATA (surfaces r) (roads r) (start_positions r) (lap r) (models r) (meshes r) (shapes r) (objects r) (body_transforms r) (body_nodes r) (static_node r) (dynamic_node r) (cull r) (x) (reverse r) (loaded r).
Definition set_reverse (x : bool) (r : DATA) : DATA :=
  mkDATA (surfaces r) (roads r) (start_positions r) (lap r) (models r) (meshes r) (shapes r) (objects r) (body_transforms r) (body_nodes r) (static_node r) (dynamic_node r) (cull r) (vertical_tracking_skyboxes r) (x) (loaded r).
Definition set_loaded (x : bool) (r : DATA) : DATA :=
  mkDATA (surfaces r) (roads r) (start_positions r) (lap r) (models r) (meshes r) (shapes r) (objects r) (body_transforms r) (body_nodes r) (static_node r) (dynamic_node r) (cull r) (vertical_tracking_skyboxes r) (reverse r) (x).

Definition DATA_new : DATA :=
  mkDATA [] [] [] [] [] [] [] [] [] [] empty_node empty_node false false false false.

(* ================================================================== *)
(** ** The content manager and the files of a track *)

(** Modelled from the spec: [ContentManager] is not among the sources.  It
    "must support: (a) loading from a plain directory, (b) loading from a
    packed archive when present, (c) returning an existing cached handle by
    name", and "resolving the same logical name twice yields the same
    underlying handle (cache hit), not a second parse".  [model_files] are
    the models of the object directory as their loader delivers them,
    [cache] maps a resolved name to its handle and [pool] holds the models
    behind the handles, which every holder of a handle shares. *)
Record ContentManager : Type := mkContent {
  model_files : gmap string MODEL.t;
  config_files : gmap string PTree;
  cache : gmap string model_ptr;
  pool : list MODEL.t }.

Definition set_cache (x : gmap string model_ptr) (r : ContentManager) : ContentManager :=
  mkContent (model_files r) (config_files r) (x) (pool r).
Definition set_pool (x : list MODEL.t) (r : ContentManager) : ContentManager :=
  mkContent (model_files r) (config_files r) (cache r) (x).

(** An open archive [objects.jpk]: the models in it, by name. *)
Definition JPK : Type := gmap string MODEL.t.

(** Modelled from the spec: a newly resolved model gets a handle and is
    cached under its name. *)
Definition store (name : string) (m : MODEL.t) (c : ContentManager)
  : model_ptr * ContentManager :=
  let h := List.length (pool c) in
  (h, set_cache (<[name := h]> (cache c)) (set_pool (pool c ++ [m]) c)).

(** Modelled from the spec: the cached handle if the name has been resolved
    before, a new handle for the model of the file otherwise, failure when
    there is no such file. *)
Definition load_from (files : gmap string MODEL.t) (name : string)
    (c : ContentManager) : option model_ptr * ContentManager :=
  match cache c !! name with
  | Some h => (Some h, c)
  | None =>
      match files !! name with
      | Some m => let '(h, c') := store name m c in (Some h, c')
      | None => (None, c)
      end
  end.

(** Modelled from the spec: [content.load(model, objectdir, name)]. *)
Definition content_load (name : string) (c : ContentManager) :=
  load_from (model_files c) name c.

(** Modelled from the spec: [content.load(model, objectdir, name, pack)]. *)
Definition content_load_pack (name : string) (pack : JPK) (c : ContentManager) :=
  load_from pack name c.

(** Modelled from the spec: [content.get(model, objectdir, name)], a cached
    handle only. *)
Definition content_get (name : string) (c : ContentManager) : option model_ptr :=
  cache c !! name.

(** Modelled from the spec: [content.load(model, objectdir, name, varray)],
    the cached handle, or a new model built by [MODEL::Load] from the vertex
    array. *)
Definition content_load_varray (name : string) (varray : VERTEXARRAY.t)
    (c : ContentManager) : outcome (model_ptr * ContentManager) :=
  match cache c !! name with
  | Some h => Ret (h, c)
  | None => m ← MODEL.Load varray MODEL.new; Ret (store name m c)
  end.

(** Modelled from the spec: [content.load(track_config, objectdir, name)]. *)
Definition content_load_config (name : string) (c : ContentManager) : option PTree :=
  config_files c !! name.

(** Modelled from the spec: the roads file holds "first token = integer road
    count; remainder = strip records consumed by an external strip reader"
    that "accepts a reverse flag".  A record is kept as the strip
    [ROADSTRIP::ReadFrom] builds from it; reading past the last record
    leaves the stream failed and the strip empty. *)
Record roadstream : Type := mkRoadStream {
  road_ok : bool;
  records : list (bool -> ROADSTRIP) }.

(** Modelled from the spec: [ROADSTRIP::ReadFrom(trackfile, reverse,
    error_output)] takes the next record of the stream. *)
Definition ReadFrom (trackfile : roadstream) (reverse_ : bool) : ROADSTRIP * roadstream :=
  match records trackfile with
  | r :: rest => (r reverse_, mkRoadStream (road_ok trackfile) rest)
  | [] => (mkRoad [], mkRoadStream false [])
  end.

(** The files below [trackpath]; the configuration files are kept as
    [read_ini] parses them. *)
Record FileSystem : Type := mkFS {
  surfaces_txt : option PTree;
  roads_trk : option (Z * list (bool -> ROADSTRIP));
  track_txt : option PTree;
  list_txt : option string;
  objects_jpk : option JPK }.

Record Config : Type := mkConfig {
  trackpath : string;
  anisotropy : Z;
  dynamic_objects : bool;
  dynamic_shadows : bool;
  agressive_combining : bool }.

(* ================================================================== *)
(** ** The loader *)

(** The objects the loader holds references to. *)
Record Env : Type := mkEnv {
  content : ContentManager;
  world : DynamicsWorld;
  data : DATA;
  info_output : list string;
  error_output : list string }.

Definition set_content (x : ContentManager) (r : Env) : Env :=
  mkEnv (x) (world r) (data r) (info_output r) (error_output r).
Definition set_world (x : DynamicsWorld) (r : Env) : Env :=
  mkEnv (content r) (x) (data r) (info_output r) (error_output r).
Definition set_data (x : DATA) (r : Env) : Env :=
  mkEnv (content r) (world r) (x) (info_output r) (error_output r).
Definition set_info_output (x : list string) (r : Env) : Env :=
  mkEnv (content r) (world r) (data r) (x) (error_output r).
Definition set_error_output (x : list string) (r : Env) : Env :=
  mkEnv (content r) (world r) (data r) (info_output r) (x).

Definition log_info (msg : string) (e : Env) : Env := set_info_output (info_output e ++ [msg]) e.
Definition log_error (msg : string) (e : Env) : Env := set_error_output (error_output e ++ [msg]) e.
Definition upd_data (f : DATA -> DATA) (e : Env) : Env := set_data (f (data e)) e.

(** The members of [TRACK::LOADER] besides its references. *)
Record LOADER : Type := mkLOADER {
  env : Env;
  packload : bool;
  pack : option JPK;
  nodes : option (list (string * PTree));
  node_it : nat;
  numobjects : Z;
  numloaded : Z;
  params_per_object : Z;
  expected_params : Z;
  min_params : Z;
  error : bool;
  list_ : bool;
  objectfile : ifstream;
  bodies : gmap string BODY;
  combined : gmap string OBJECT }.

Definition with_env (x : Env) (r : LOADER) : LOADER :=
  mkLOADER (x) (packload r) (pack r) (nodes r) (node_it r) (numobjects r) (numloaded r) (params_per_object r) (expected_params r) (min_params r) (error r) (list_ r) (objectfile r) (bodies r) (combined r).
Definition with_packload (x : bool) (r : LOADER) : LOADER :=
  mkLOADER (env r) (x) (pack r) (nodes r) (node_it r) (numobjects r) (numloaded r) (params_per_object r) (expected_params r) (min_params r) (error r) (list_ r) (objectfile r) (bodies r) (combined r).
Definition with_pack (x : option JPK) (r : LOADER) : LOADER :=
  mkLOADER (env r) (packload r) (x) (nodes r) (node_it r) (numobjects r) (numloaded r) (params_per_object r) (expected_params r) (min_params r) (error r) (list_ r) (objectfile r) (bodies r) (combined r).
Definition with_nodes (x : option (list (string * PTree))) (r : LOADER) : LOADER :=
  mkLOADER (env r) (packload r) (pack r) (x) (node_it r) (numobjects r) (numloaded r) (params_per_object r) (expected_params r) (min_params r) (error r) (list_ r) (objectfile r) (bodies r) (combined r).
Definition with_node_it (x : nat) (r : LOADER) : LOADER :=
  mkLOADER (env r) (packload r) (pack r) (nodes r) (x) (numobjects r) (numloaded r) (params_per_object r) (expected_params r) (min_params r) (error r) (list_ r) (objectfile r) (bodies r) (combined r).
Definition with_numobjects (x : Z) (r : LOADER) : LOADER :=
  mkLOADER (env r) (packload r) (pack r) (nodes r) (node_it r) (x) (numloaded r) (params_per_object r) (expected_params r) (min_params r) (error r) (list_ r) (objectfile r) (bodies r) (combined r).
Definition with_numloaded (x : Z) (r : LOADER) : LOADER :=
  mkLOADER (env r) (packload r) (pack r) (nodes r) (node_it r) (numobjects r) (x) (params_per_object r) (expected_params r) (min_params r) (error r) (list_ r) (objectfile r) (bodies r) (combined r).
Definition with_params_per_object (x : Z) (r : LOADER) : LOADER :=
  mkLOADER (env r) (packload r) (pack r) (nodes r) (node_it r) (numobjects r) (numloaded r) (x) (expected_params r) (min_params r) (error r) (list_ r) (objectfile r) (bodies r) (combined r).
Definition with_expected_params (x : Z) (r : LOADER) : LOADER :=
  mkLOADER (env r) (packload r) (pack r) (nodes r) (node_it r) (numobjects r) (numloaded r) (params_per_object r) (x) (min_params r) (error r) (list_ r) (objectfile r) (bodies r) (combined r).
Definition with_min_params (x : Z) (r : LOADER) : LOADER :=
  mkLOADER (env r) (packload r) (pack r) (nodes r) (node_it r) (numobjects r) (numloaded r) (params_per_object r) (expected_params r) (x) (error r) (list_ r) (objectfile r) (bodies r) (combined r).
Definition with_error (x : bool) (r : LOADER) : LOADER :=
  mkLOADER (env r) (packload r) (pack r) (nodes r) (node_it r) (numobjects r) (numloaded r) (params_per_object r) (expected_params r) (min_params r) (x) (list_ r) (objectfile r) (bodies r) (combined r).
Definition with_list_ (x : bool) (r : LOADER) : LOADER :=
  mkLOADER (env r) (packload r) (pack r) (nodes r) (node_it r) (numobjects r) (numloaded r) (params_per_object r) (expected_params r) (min_params r) (error r) (x) (objectfile r) (bodies r) (combined r).
Definition with_objectfile (x : ifstream) (r : LOADER) : LOADER :=
  mkLOADER (env r) (packload r) (pack r) (nodes r) (node_it r) (numobjects r) (numloaded r) (params_per_object r) (expected_params r) (min_params r) (error r) (list_ r) (x) (bodies r) (combined r).
Definition with_bodies (x : gmap string BODY) (r : LOADER) : LOADER :=
  mkLOADER (env r) (packload r) (pack r) (nodes r) (node_it r) (numobjects r) (numloaded r) (params_per_object r) (expected_params r) (min_params r) (error r) (list_ r) (objectfile r) (x) (combined r).
Definition with_combined (x : gmap string OBJECT) (r : LOADER) : LOADER :=
  mkLOADER (env r) (packload r) (pack r) (nodes r) (node_it r) (numobjects r) (numloaded r) (params_per_object r) (expected_params r) (min_params r) (error r) (list_ r) (objectfile r) (bodies r) (x).

(** [TRACK::LOADER::LOADER] (trackloader.cpp 77-118) *)
Definition LOADER_new (e : Env) (reverse_ : bool) : LOADER :=
  mkLOADER (upd_data (set_reverse reverse_) e)
    false None None 0%nat 0 0 17 17 14 false false closed ∅ ∅.

(** [TRACK::LOADER::Clear] *)
Definition Clear (l : LOADER) : LOADER :=
  with_pack None (with_objectfile closed (with_combined ∅ (with_bodies ∅ l))).

(** [GetIndexedMesh] (trackloader.cpp 55-75); [vcount] is the number of
    floats of the vertex array. *)
Definition GetIndexedMesh (m : MODEL.t) : outcome btTriangleIndexVertexArray :=
  let vcount := Z.of_nat (List.length (VERTEXARRAY.vertices (MODEL.GetVertexArray m))) in
  let fcount := VERTEXARRAY.GetNumFaces (MODEL.GetVertexArray m) in
  _ ← assert (fcount mod 3 =? 0) "fcount % 3 == 0";
  Ret (mkMesh (fcount / 3) vcount m).

(** The last position of ["/"] in a string ([name.rfind("/")]). *)
Fixpoint rfind_slash (s : string) : option nat :=
  match s with
  | EmptyString => None
  | String c s' =>
      match rfind_slash s' with
      | Some n => Some (S n)
      | None => if Ascii.eqb c "/"%char then Some O else None
      end
  end.

Definition push_back {A} (x : A) (v : list A) : list A := v ++ [x].

Definition static_threshold : Q := 1 # 1000.   (* 1E-3 *)

Section Loader.
Context {E : Externals}.

(** [TRACK::LOADER::LoadModel] (309-319) *)
Definition LoadModel (packload_ : bool) (pack_ : option JPK) (name : string)
    (e : Env) : bool * Env :=
  let try_pack :=
    match packload_, pack_ with
    | true, Some archive => content_load_pack name archive (content e)
    | _, _ => (None, content e)
    end in
  let '(found, c) :=
    match try_pack with
    | (Some h, c) => (Some h, c)
    | (None, c) => content_load name c
    end in
  match found with
  | Some h => (true, upd_data (fun d => set_models (push_back (Some h) (models d)) d) (set_content c e))
  | None => (false, set_content c e)
  end.

(** [TRACK::LOADER::LoadShape] (321-372); it always returns [true]. *)
Definition LoadShape (cfg : PTree) (model_ : MODEL.t) (body : BODY) (d : DATA)
    : outcome (BODY * DATA) :=
  if Qltb (mass body) static_threshold then
    mesh ← GetIndexedMesh model_;
    let d := set_meshes (push_back mesh (meshes d)) d in
    let surface_ := snd (get_value (ints cfg) "surface" 0) in
    let surface_ :=
      if surface_ >=? wrap_int (Z.of_nat (List.length (surfaces d))) then 0 else surface_ in
    match vector_at (surfaces d) surface_ with
    | None => Undefined "data.surfaces[surface]"
    | Some _ =>
        let shape_ := btBvhTriangleMeshShape mesh (Some surface_) in
        let d := set_shapes (push_back shape_ (shapes d)) d in
        Ret (mkBody (drawable body) (Some mesh) (Some shape_) (inertia body)
               (center body) (mass body) (collidable body) (nolighting body), d)
    end
  else
    let center_ := snd (get_vec3 cfg "mass-center" vec3_zero) in
    let origin := vec3_sub vec3_zero center_ in
    let '(authored, compound) := LoadCollisionShape cfg origin in
    let '(shape_, center_) :=
      match authored with
      | Some s => (AuthoredShape s, center_)
      | None =>
          (* fall back to model bounding box *)
          let size := MODEL.GetSize model_ in
          (btBoxShape (vec3_scale size (1 # 2)),
           vec3_add center_ (MODEL.GetCenter model_))
      end in
    let shape_ :=
      match compound with
      | Some c => AuthoredShape c
      | None => shape_
      end in
    let d := set_shapes (push_back shape_ (shapes d)) d in
    let inertia_ := calculateLocalInertia shape_ (mass body) in
    Ret (mkBody (drawable body) (body_mesh body) (Some shape_) inertia_
           center_ (mass body) (collidable body) (nolighting body), d).

(** The key under which [LoadBody] registers the body, and the path prefix
    it puts before the model name (400-419). *)
Definition body_name (cfg : PTree) : string :=
  match String.eqb (value cfg) "body", parent cfg with
  | true, Some p => p
  | _, _ => value cfg
  end.

Definition rel_path (cfg : PTree) : string :=
  match String.eqb (value cfg) "body", parent cfg with
  | true, Some _ => ""
  | _, _ =>
      match rfind_slash (value cfg) with
      | Some npos => String.substring 0 (npos + 1) (value cfg)
      | None => ""
      end
  end.

(** [TRACK::LOADER::LoadBody] (374-473).  The result is the entry of
    [bodies] the returned iterator points to, [None] for [bodies.end()].
    The textures, which play no part in what follows, are left out. *)
Definition LoadBody (cf : Config) (packload_ : bool) (pack_ : option JPK)
    (cfg : PTree) (bodies_ : gmap string BODY) (e : Env)
    : outcome (option (string * BODY) * gmap string BODY * Env) :=
  let '(has_texture, _) := get_value (strings cfg) "texture" "" in
  let e := if has_texture then e else log_error "texture not found" e in
  let '(has_model, model_name) := get_value (strings cfg) "model" "" in
  let e := if has_model then e else log_error "model not found" e in
  let alphablend := snd (get_value (bools cfg) "alphablend" false) in
  let skybox_ := snd (get_value (bools cfg) "skybox" false) in
  let doublesided := snd (get_value (bools cfg) "doublesided" false) in
  let isashadow := snd (get_value (bools cfg) "isashadow" false) in
  let nolighting_ := snd (get_value (bools cfg) "nolighting" false) in
  let name := body_name cfg in
  let model_name := rel_path cfg +:+ model_name in
  if dynamic_shadows cf && isashadow then Ret (None, bodies_, e)
  else
    match LoadModel packload_ pack_ model_name e with
    | (false, e) => Ret (None, bodies_, log_info ("Failed to load body " +:+ value cfg) e)
    | (true, e) =>
        match mjoin (last (models (data e))) ≫= fun h => pool (content e) !! h with
        | None => Undefined "*data.models.back()"
        | Some model_ =>
            let '(collidable_, mass_) := get_value (floats cfg) "mass" (mass BODY_new) in
            let body :=
              mkBody (drawable BODY_new) (body_mesh BODY_new) (shape BODY_new)
                (inertia BODY_new) (center BODY_new) mass_ collidable_ nolighting_ in
            '(body, d) ← (if collidable_ then LoadShape cfg model_ body (data e)
                          else Ret (body, data e));
            let e := set_data d e in
            let drawable_ :=
              mkDrawable (Some model_) alphablend (cull d && negb doublesided)
                (MODEL.GetCenter model_) skybox_
                (skybox_ && vertical_tracking_skyboxes d) in
            let body :=
              mkBody drawable_ (body_mesh body) (shape body) (inertia body)
                (center body) (mass body) (collidable body) (nolighting body) in
            (* [bodies.insert] keeps an entry that is already there *)
            match bodies_ !! name with
            | Some old => Ret (Some (name, old), bodies_, e)
            | None => Ret (Some (name, body), <[name := body]> bodies_, e)
            end
        end
    end.

(** The draw list [AddBody] and [AddObject] choose. *)
Definition choose_layer (alphablend nolighting_ skybox_ : bool) : layer :=
  let dlist :=
    if alphablend then normal_blend
    else if nolighting_ then normal_noblend_nolighting
    else normal_noblend in
  if skybox_ then (if alphablend then skybox_blend else skybox_noblend)
  else dlist.

Definition body_layer (body : BODY) : layer :=
  choose_layer (decal (drawable body)) (nolighting body) (draw_skybox (drawable body)).

(** [TRACK::LOADER::AddBody] (475-501) on the node itself ... *)
Definition AddBody (scene : SCENENODE) (body : BODY) : SCENENODE :=
  mkNode (push_back (body_layer body, drawable body) (drawlist scene)) (childnodes scene).

(** ... and [AddNode] followed by [AddBody] on the new child node. *)
Definition AddBody_instanced (scene : SCENENODE) (position : vec3)
    (rotation : QUATERNION) (body : BODY) : SCENENODE :=
  mkNode (drawlist scene)
    (push_back (position, rotation, [(body_layer body, drawable body)]) (childnodes scene)).

Definition static_object (transform : option (vec3 * QUATERNION))
    (shape_ : btCollisionShape) : btCollisionObject :=
  mkObject true transform (Some shape_) (getUserPointer shape_) None None.

(** [data.objects.push_back(object); world.add...(object)] *)
Definition add_object (o : btCollisionObject) (e : Env) : Env :=
  set_world (push_back o (world e))
    (upd_data (fun d => set_objects (push_back o (objects d)) d) e).

(** [TRACK::LOADER::LoadNode] (503-615) *)
Definition LoadNode (cf : Config) (packload_ : bool) (pack_ : option JPK)
    (sec : PTree) (bodies_ : gmap string BODY) (e : Env)
    : outcome (bool * gmap string BODY * Env) :=
  match get_section sec "body" with
  | None => Ret (false, bodies_, log_error "body not found" e)
  | Some sec_body =>
      '(ib, bodies_, e) ← LoadBody cf packload_ pack_ sec_body bodies_ e;
      match ib with
      | None => Ret (true, bodies_, e)
      | Some (_, body) =>
          let '(has_position, position) := get_vec3 sec "position" vec3_zero in
          let '(has_rotation, angle) := get_vec3 sec "rotation" vec3_zero in
          let has_transform := has_position || has_rotation in
          let '(a0, a1, a2) := angle in
          let rotation :=
            quat_of_euler (a0 / 180 * M_PI)%Q (a1 / 180 * M_PI)%Q (a2 / 180 * M_PI)%Q in
          if Qltb (mass body) static_threshold then
            (* static geometry *)
            let e :=
              upd_data (fun d =>
                set_static_node
                  (if has_transform
                   then AddBody_instanced (static_node d) position rotation body
                   else AddBody (static_node d) body) d) e in
            if collidable body then
              match shape body with
              | None => Undefined "body.shape->getUserPointer()"
              | Some shape_ =>
                  Ret (true, bodies_,
                       add_object (static_object (Some (position, rotation)) shape_) e)
              end
            else Ret (true, bodies_, e)
          else
            (* fix position due to rotation around mass center *)
            let center_local := center body in
            let center_world := RotateVector rotation center_local in
            let position := vec3_add (vec3_sub position center_local) center_world in
            if dynamic_objects cf then
              let ms := mkMotionState rotation position (vec3_neg (center body)) in
              let e := upd_data (fun d =>
                set_body_transforms (push_back ms (body_transforms d)) d) e in
              let object :=
                mkObject false None (shape body) None
                  (Some (mkRigidInfo (mass body) (inertia body) (9 # 10), ms))
                  (Some 0%Q) in
              let e := add_object object e in
              let e := upd_data (fun d =>
                set_body_nodes
                  (push_back (List.length (childnodes (dynamic_node d))) (body_nodes d))
                  (set_dynamic_node
                     (AddBody_instanced (dynamic_node d) position rotation body) d)) e in
              Ret (true, bodies_, e)
            else
              match shape body with
              | None => Undefined "body.shape->getUserPointer()"
              | Some shape_ =>
                  let e := add_object (static_object (Some (position, rotation)) shape_) e in
                  let e := upd_data (fun d =>
                    set_static_node
                      (AddBody_instanced (static_node d) position rotation body) d) e in
                  Ret (true, bodies_, e)
              end
      end
  end.

(** [TRACK::LOADER::Begin] (274-290) *)
Definition Begin (l : LOADER) : bool * LOADER :=
  match content_load_config "objects.txt" (content (env l)) with
  | Some track_config =>
      match get_section track_config "object" with
      | Some sec =>
          (true,
           with_numobjects (Z.of_nat (List.length (children sec)))
             (with_node_it 0%nat (with_nodes (Some (children sec)) l)))
      | None => (false, with_nodes None l)
      end
  | None => (false, l)
  end.

(** [TRACK::LOADER::Continue] (292-307): the pair is (error, more work). *)
Definition Continue (cf : Config) (l : LOADER) : outcome (bool * bool * LOADER) :=
  match nodes l with
  | None => Undefined "nodes->end()"
  | Some nodes_ =>
      match nodes_ !! node_it l with
      | None => Ret (false, false, l)
      | Some (_, sec) =>
          '(ok, bodies_, e) ← LoadNode cf (packload l) (pack l) sec (bodies l) (env l);
          let l := with_env e (with_bodies bodies_ l) in
          if (ok : bool) then Ret (false, true, with_node_it (S (node_it l)) l)
          else Ret (true, false, l)
      end
  end.

(** *** The legacy object list *)

(** The loop of [CalculateNumOld] over the records. *)
Fixpoint count_objects (fuel : nat) (params : Z) (f : ifstream) (num : Z) : outcome Z :=
  match fuel with
  | O => OutOfFuel
  | S k =>
      match get f with
      | (Some _, f1) =>
          count_objects k params (get_junk (Z.to_nat (params - 1)) f1) (num + 1)
      | (None, _) => Ret num
      end
  end.

(** [TRACK::LOADER::CalculateNumOld] (641-659): the new value of
    [numobjects], from a stream of its own on the list file. *)
Definition CalculateNumOld (fs : FileSystem) : outcome Z :=
  let f := open (list_txt fs) in
  match get_int f 0 with
  | (true, params, f1) => count_objects (S (String.length (buf f1))) params f1 0
  | (false, _, _) => Ret 0
  end.

(** [TRACK::LOADER::BeginOld] (661-679) *)
Definition BeginOld (fs : FileSystem) (l : LOADER) : outcome (bool * LOADER) :=
  num ← CalculateNumOld fs;
  let l := with_numobjects num l in
  match get_int (objectfile l) (params_per_object l) with
  | (false, _, f) => Ret (false, with_objectfile f l)
  | (true, p, f) =>
      let l := with_params_per_object p (with_objectfile f l) in
      if negb (p =? expected_params l) then
        Ret (false, with_env (log_error "Track object list has the wrong number of params per object" (env l)) l)
      else Ret (true, l)
  end.

(** [TRACK::LOADER::AddObject] (681-774), textures left out; it returns
    [true] whenever it returns. *)
Definition AddObject (object : OBJECT) (e : Env) : outcome (bool * Env) :=
  let e := upd_data (fun d => set_models (push_back (model object) (models d)) d) e in
  match model object ≫= fun h => pool (content e) !! h with
  | None => Undefined "*object.model"
  | Some model_ =>
      let transparent := transparent_blend object =? 1 in
      let dlist := choose_layer transparent (object_nolighting object) (skybox object) in
      let drawable_ :=
        mkDrawable (Some model_) transparent
          (cull (data e) && negb (transparent_blend object =? 2))
          (MODEL.GetCenter model_) (skybox object)
          (skybox object && vertical_tracking_skyboxes (data e)) in
      let e := upd_data (fun d =>
        set_static_node
          (mkNode (push_back (dlist, drawable_) (drawlist (static_node d)))
                  (childnodes (static_node d))) d) e in
      if collideable object then
        mesh ← GetIndexedMesh model_;
        let e := upd_data (fun d => set_meshes (push_back mesh (meshes d)) d) e in
        _ ← assert ((0 <=? surface object)
                    && (surface object <? wrap_int (Z.of_nat (List.length (surfaces (data e))))))
              "object.surface >= 0 && object.surface < (int)data.surfaces.size()";
        match vector_at (surfaces (data e)) (surface object) with
        | None => Undefined "data.surfaces[object.surface]"
        | Some _ =>
            let shape_ := btBvhTriangleMeshShape mesh (Some (surface object)) in
            let e := upd_data (fun d => set_shapes (push_back shape_ (shapes d)) d) e in
            Ret (true, add_object (static_object None shape_) e)
        end
      else Ret (true, e)
  end.

Definition deref (c : ContentManager) (p : option model_ptr) : option MODEL.t :=
  p ≫= fun h => pool c !! h.

(** The fields of one record after the model name (784-807), with the
    stream behind them.  [isashadow] is a local without initial value; it
    is read only after [get] has stored into it unless the record is cut
    short. *)
Definition read_record (params_per_object_ expected_params_ : Z) (f : ifstream)
    : OBJECT * bool * ifstream :=
  let object := OBJECT_new in
  let '(_, texture_, f) := get_string f (texture object) in
  let '(_, mipmap_, f) := get_bool f (mipmap object) in
  let '(_, nolighting_, f) := get_bool f (object_nolighting object) in
  let '(_, skybox_, f) := get_bool f (skybox object) in
  let '(_, transparent_blend_, f) := get_int f (transparent_blend object) in
  let f := get_junk 3 f in          (* bump_wavelength, bump_amplitude, driveable *)
  let '(_, collideable_, f) := get_bool f (collideable object) in
  let f := get_junk 4 f in          (* friction, rolling resistance and drag *)
  let '(_, isashadow, f) := get_bool f false in
  let '(_, clamptexture_, f) := get_int f (clamptexture object) in
  let '(_, surface_, f) := get_int f (surface object) in
  let f := get_junk (Z.to_nat (params_per_object_ - expected_params_)) f in
  (mkOBJECT (model object) texture_ mipmap_ nolighting_ skybox_ transparent_blend_
     clamptexture_ collideable_ surface_ (cached object),
   isashadow, f).

Definition set_model (m : option model_ptr) (o : OBJECT) : OBJECT :=
  mkOBJECT m (texture o) (mipmap o) (object_nolighting o) (skybox o)
    (transparent_blend o) (clamptexture o) (collideable o) (surface o) (cached o).

Definition set_cached (b : bool) (o : OBJECT) : OBJECT :=
  mkOBJECT (model o) (texture o) (mipmap o) (object_nolighting o) (skybox o)
    (transparent_blend o) (clamptexture o) (collideable o) (surface o) b.

(** The [else] branch of the combining step (830-834):
    [object.cached = content.get(object.model, objectdir, object.texture)]
    and [combined[object.texture] = object]. *)
Definition register_combined (object : OBJECT) (l : LOADER) : LOADER :=
  let object :=
    match content_get (texture object) (content (env l)) with
    | Some h => set_cached true (set_model (Some h) object)
    | None => set_cached false object
    end in
  with_combined (<[texture object := object]> (combined l)) l.

(** The merge of the combining step (828): the model of the entry is
    modified in place, behind its handle. *)
Definition merge_into (i object : OBJECT) (l : LOADER) : outcome LOADER :=
  let c := content (env l) in
  match deref c (model i), deref c (model object), model i with
  | Some mi, Some mo, Some hi =>
      let merged := VERTEXARRAY.add (MODEL.GetVertexArray mi) (MODEL.GetVertexArray mo) in
      let c := set_pool (<[hi := MODEL.SetVertexArray merged mi]> (pool c)) c in
      Ret (with_env (set_content c (env l)) l)
  | _, _, _ => Undefined "model->GetVertexArray()"
  end.

(** Lines 814-844: the model is resolved, then the object is combined or
    added. *)
Definition load_object (cf : Config) (model_name : string) (object : OBJECT)
    (l : LOADER) : outcome (bool * bool * LOADER) :=
  let '(model_, c) :=
    if packload l then
      match pack l with
      | Some archive => content_load_pack model_name archive (content (env l))
      | None => (None, content (env l))
      end
    else content_load model_name (content (env l)) in
  let l := with_env (set_content c (env l)) l in
  let object := set_model model_ object in
  if agressive_combining cf then
    match combined l !! texture object with
    | Some i =>
        if negb (cached i) then l ← merge_into i object l; Ret (false, true, l)
        else Ret (false, true, register_combined object l)
    | None => Ret (false, true, register_combined object l)
    end
  else
    '(ok, e) ← AddObject object (env l);
    if (ok : bool) then Ret (false, true, with_env e l)
    else Ret (true, false, with_env e l).

(** [TRACK::LOADER::ContinueOld] (776-845): the pair is (error, more
    work). *)
Definition ContinueOld (cf : Config) (l : LOADER) : outcome (bool * bool * LOADER) :=
  let '(ok, model_name, f) := get_string (objectfile l) "" in
  if negb ok then Ret (false, false, with_objectfile f l)
  else
    let '(object, isashadow, f) :=
      read_record (params_per_object l) (expected_params l) f in
    let l := with_objectfile f l in
    if dynamic_shadows cf && isashadow then Ret (false, true, l)
    else load_object cf model_name object l.

(** [TRACK::LOADER::ContinueObjectLoad] (259-272) *)
Definition ContinueObjectLoad (cf : Config) (l : LOADER) : outcome (bool * bool * LOADER) :=
  if error l then Ret (true, false, l)
  else if list_ l then ContinueOld cf l
  else Continue cf l.

(** The loop of [ContinueLoad] over [combined] (206-216); the entries come
    in the order of the map, which decides nothing but the order in which
    the objects are added. *)
Fixpoint add_combined (entries : list (string * OBJECT)) (l : LOADER) : outcome LOADER :=
  match entries with
  | [] => Ret l
  | (key, object) :: rest =>
      match deref (content (env l)) (model object) with
      | None => Undefined "model->HaveMeshMetrics()"
      | Some m =>
          '(object, l) ←
            (if negb (MODEL.HaveMeshMetrics m) then
               (* cache combined model *)
               '(h, c) ← content_load_varray key (MODEL.GetVertexArray m) (content (env l));
               let object :=
                 mkOBJECT (Some h) (texture object) (mipmap object)
                   (object_nolighting object) (skybox object) (transparent_blend object)
                   (clamptexture object) (collideable object) (surface object)
                   (cached object) in
               Ret (object,
                    with_combined (<[key := object]> (combined l))
                      (with_env (set_content c (env l)) l))
             else Ret (object, l));
          '(_, e) ← AddObject object (env l);
          add_combined rest (with_env e l)
      end
  end.

(** [TRACK::LOADER::ContinueLoad] (189-232) *)
Definition ContinueLoad (cf : Config) (l : LOADER) : outcome (bool * LOADER) :=
  if loaded (data (env l)) then Ret (true, l)
  else
    '(error_, more, l) ← ContinueObjectLoad cf l;
    if (error_ : bool) then Ret (false, l)
    else if negb more then
      l ← (if agressive_combining cf
           then add_combined (map_to_list (combined l)) l
           else Ret l);
      Ret (true, Clear (with_env (upd_data (set_loaded true) (env l)) l))
    else Ret (true, l).

(** The caller's loop: the continuation is invoked until it reports an
    error or no more work.  The result holds the error flag, the loader as
    it was before each invocation that did its unit of work, and the
    final loader. *)
Fixpoint run_object_load (fuel : nat) (cf : Config) (l : LOADER)
    : outcome (bool * list LOADER * LOADER) :=
  match fuel with
  | O => OutOfFuel
  | S k =>
      '(error_, more, l') ← ContinueObjectLoad cf l;
      if (more : bool) then
        '(e, done, l'') ← run_object_load k cf l';
        Ret (e, l :: done, l'')
      else Ret (error_, [], l')
  end.

End Loader.

(* ================================================================== *)
(** ** Surfaces, roads, start positions and lap sections *)

(** One surface section (866-896); [temp] keeps its value from one field to
    the next when a key is missing. *)
Definition read_surface (surf_cfg : PTree) (e : Env) : TRACKSURFACE * Env :=
  let type := snd (get_value (strings surf_cfg) "Type" "") in
  let field (key : string) (st : Q * Env) : Q * Env :=
    match get_value (floats surf_cfg) key (fst st) with
    | (true, v) => (v, snd st)
    | (false, v) => (v, log_error (key +:+ " not found") (snd st))
    end in
  let '(temp, e) := field "BumpWaveLength" (0%Q, e) in
  let '(temp, e) :=
    if Qleb temp 0 then (1%Q, log_error ("Surface Type = " +:+ type +:+ " has BumpWaveLength = 0.0") e)
    else (temp, e) in
  let wave := temp in
  let '(temp, e) := field "BumpAmplitude" (temp, e) in
  let amplitude := temp in
  let '(temp, e) := field "FrictionNonTread" (temp, e) in
  let nontread := temp in
  let '(temp, e) := field "FrictionTread" (temp, e) in
  let tread := temp in
  let '(temp, e) := field "RollResistanceCoefficient" (temp, e) in
  let resistance := temp in
  let '(temp, e) := field "RollingDrag" (temp, e) in
  (mkSurface type wave amplitude nontread tread resistance temp, e).

(** [TRACK::LOADER::LoadSurfaces] (847-901) *)
Definition LoadSurfaces (fs : FileSystem) (e : Env) : bool * Env :=
  match surfaces_txt fs with
  | None => (false, log_info "Can't find surfaces configfile" e)
  | Some param =>
      let e :=
        fold_left (fun e (sec : string * PTree) =>
          if String.prefix "surface" (fst sec) then
            let '(surface_, e) := read_surface (snd sec) e in
            upd_data (fun d => set_surfaces (push_back surface_ (surfaces d)) d) e
          else e) (children param) e in
      (true, log_info "Loaded surfaces file" e)
  end.

(** The loop [for (int i = 0; i < numroads && trackfile; ++i)] (917-921). *)
Fixpoint read_roads (n : nat) (trackfile : roadstream) (reverse_ : bool)
    (roads_ : list ROADSTRIP) : list ROADSTRIP :=
  match n with
  | O => roads_
  | S n' =>
      if road_ok trackfile then
        let '(strip, trackfile) := ReadFrom trackfile reverse_ in
        read_roads n' trackfile reverse_ (push_back strip roads_)
      else roads_
  end.

(** [TRACK::LOADER::LoadRoads] (903-924) *)
Definition LoadRoads (fs : FileSystem) (e : Env) : bool * Env :=
  let e := upd_data (set_roads []) e in
  match roads_trk fs with
  | None => (false, log_error "Error opening roads file" e)
  | Some (numroads, recs) =>
      (true,
       upd_data (fun d =>
         set_roads (read_roads (Z.to_nat numroads) (mkRoadStream true recs)
                      (reverse d) (roads d)) d) e)
  end.

(** [TRACK::LOADER::CreateRacingLines] (926-945): the racing line of a
    strip and its scene node are not part of this model; the function
    returns [true] on every path. *)
Definition CreateRacingLines (e : Env) : bool * Env := (true, e).

(** [int i = x] for a [float] [x]: the fraction is dropped. *)
Definition float_to_int (x : Q) : Z := Z.quot (Qnum x) (QDen x).

Definition get_patch (roads_ : list ROADSTRIP) (p : patch_ptr) : option BEZIER.t :=
  roads_ !! fst p ≫= fun r => patches r !! snd p.

Definition set_patch (roads_ : list ROADSTRIP) (p : patch_ptr) (b : BEZIER.t)
    : list ROADSTRIP :=
  alter (fun r => mkRoad (<[snd p := b]> (patches r))) (fst p) roads_.

Definition ptr_eqb (a b : patch_ptr) : bool :=
  Nat.eqb (fst a) (fst b) && Nat.eqb (snd a) (snd b).

(** The loop of [LoadLapSections] that accumulates the distance from the
    start (1084-1090); [fuel] bounds the number of iterations. *)
Fixpoint walk (fuel : nat) (start_patch : patch_ptr) (curr_patch : option patch_ptr)
    (total_dist : Q) (count : Z) (roads_ : list ROADSTRIP)
    : outcome (list ROADSTRIP * Z) :=
  match curr_patch with
  | None => Ret (roads_, count)
  | Some curr =>
      if ptr_eqb curr start_patch then Ret (roads_, count)
      else
        match fuel with
        | O => OutOfFuel
        | S k =>
            match get_patch roads_ curr with
            | None => Undefined "curr_patch->dist_from_start"
            | Some b =>
                walk k start_patch (BEZIER.next_patch b)
                  (total_dist + BEZIER.length b)%Q (count + 1)
                  (set_patch roads_ curr (BEZIER.set_dist total_dist b))
            end
        end
  end.

(** Lines 1079-1090: the distance of every patch from the starting line. *)
Definition distances_from_start (fuel : nat) (start_patch : patch_ptr)
    (roads_ : list ROADSTRIP) : outcome (list ROADSTRIP * Z) :=
  match get_patch roads_ start_patch with
  | None => Undefined "start_patch->dist_from_start"
  | Some b =>
      walk fuel start_patch (BEZIER.next_patch b) (BEZIER.length b) 0
        (set_patch roads_ start_patch (BEZIER.set_dist 0%Q b))
  end.

(** The patch index of a lap sequence, adjusted for the reverse case
    (1017-1024): the index used on [GetPatches()]. *)
Definition lap_patch_index (reverse_ : bool) (num_patches patchid : Z) : outcome Z :=
  _ ← assert (patchid <? num_patches) "patchid < num_patches";
  Ret (if reverse_ then wrap_int (num_patches - patchid) else patchid).

(** One lap sequence entry (1005-1027). *)
Definition lap_section (info : PTree) (l : Z) (d : DATA) : outcome DATA :=
  let lapraw := snd (get_vector info ("lap sequence " +:+ pretty l) [0%Q; 0%Q; 0%Q]) in
  let roadid := float_to_int (nth 0 lapraw 0%Q) in
  let patchid := float_to_int (nth 1 lapraw 0%Q) in
  if roadid <? 0 then Ret d
  else
    match roads d !! Z.to_nat roadid with
    | None => Ret d
    | Some road =>
        let num_patches := wrap_int (Z.of_nat (List.length (patches road))) in
        patchid ← lap_patch_index (reverse d) num_patches patchid;
        match vector_at (patches road) patchid with
        | None => Undefined "GetPatches()[patchid]"
        | Some _ =>
            Ret (set_lap (push_back (Z.to_nat roadid, Z.to_nat (to_size_t patchid)) (lap d)) d)
        end
    end.

Fixpoint lap_sections (info : PTree) (n : nat) (l : Z) (d : DATA) : outcome DATA :=
  match n with
  | O => Ret d
  | S n' => d ← lap_section info l d; lap_sections info n' (l + 1) d
  end.

Section TrackSetup.
Context {E : Externals}.

(** The loop of [LoadStartPositions] over the numbered keys (949-979). *)
Fixpoint scan_start_positions (fuel : nat) (info : PTree) (sp_num : nat)
    (f3 : list Q) (e : Env) : outcome Env :=
  match fuel with
  | O => OutOfFuel
  | S k =>
      match get_vector info ("start position " +:+ pretty sp_num) f3 with
      | (false, _) => Ret e
      | (true, f3) =>
          let '(found, angle) :=
            get_vector info ("start orientation " +:+ pretty sp_num) [0%Q; 0%Q; 0%Q] in
          let e := if found then e else log_error "start orientation not found" e in
          let q :=
            if found then
              SetEulerZYX (nth 0 angle 0 * M_PI / 180)%Q (nth 1 angle 0 * M_PI / 180)%Q
                (nth 2 angle 0 * M_PI / 180)%Q
            else quat_identity in
          let orient : QUATERNION := (quat_at q 2, quat_at q 0, quat_at q 1, quat_at q 3) in
          (* the initial orientation places the car facing the wrong way *)
          let fixer := Rotate M_PI_2 0 0 1 quat_identity in
          let orient := quat_mul fixer orient in
          let pos : vec3 := (nth 2 f3 0%Q, nth 0 f3 0%Q, nth 1 f3 0%Q) in
          scan_start_positions k info (S sp_num) f3
            (upd_data (fun d =>
               set_start_positions (push_back (pos, orient) (start_positions d)) d) e)
      end
  end.

(** The reverse case (981-992). *)
Definition flip_start_positions (sp : list (vec3 * QUATERNION))
    : list (vec3 * QUATERNION) :=
  rev (map (fun i => (fst i, Rotate M_PI 0 0 1 (snd i))) sp).

(** [TRACK::LOADER::LoadStartPositions] (947-995).  The scan stops at the
    first missing key; a tree has finitely many keys, which bounds it. *)
Definition LoadStartPositions (info : PTree) (e : Env) : outcome (bool * Env) :=
  e ← scan_start_positions (S (size (vectors info))) info 0 [0%Q; 0%Q; 0%Q] e;
  let e :=
    if reverse (data e)
    then upd_data (fun d => set_start_positions (flip_start_positions (start_positions d)) d) e
    else e in
  Ret (true, e).

(** The patch in front of the first start position (1051-1071): the
    nearest one among those ahead. *)
Definition nearest_ahead (bpos bdir : vec3) (roads_ : list ROADSTRIP) : option patch_ptr :=
  snd
    (fold_left (fun st (r : nat * ROADSTRIP) =>
       fold_left (fun st (p : nat * BEZIER.t) =>
         let vec := vec3_sub (BEZIER.BL (snd p)) bpos in
         let len2 := vec3_dot vec vec in
         let fwd := Qltb 0 (vec3_dot vec bdir) in
         if fwd && Qltb len2 (fst st) then (len2, Some (fst r, fst p)) else st)
         (imap pair (patches (snd r))) st)
       (imap pair roads_) (inject_Z 10000000, None)).

(** [TRACK::LOADER::LoadLapSections] (997-1094); [fuel] bounds the final
    walk along [next_patch]. *)
Definition LoadLapSections (fuel : nat) (info : PTree) (e : Env) : outcome (bool * Env) :=
  let '(found, lapmarkers) := get_value (ints info) "lap sequences" 0 in
  d ← (if found then lap_sections info (Z.to_nat lapmarkers) 0 (data e) else Ret (data e));
  match lap d with
  | [] => Ret (true, log_info "No lap sequence found. Lap timing will not be possible." (set_data d e))
  | lap0 :: others =>
      d ← (if reverse d then
             (* reverse the lap sequence, but keep the first bezier where it is *)
             let d := set_lap (lap0 :: rev others) d in
             match start_positions d !! 0%nat with
             | None => Undefined "data.start_positions[0]"
             | Some (pos, orientation) =>
                 let dir := RotateVector orientation Forward in
                 let '(p0, p1, p2) := pos in
                 let '(d0, d1, d2) := dir in
                 match nearest_ahead (p1, p2, p0) (d1, d2, d0) (roads d) with
                 | Some front => Ret (set_lap (front :: rev others) d)
                 | None => Ret d
                 end
             end
           else Ret d);
      match lap d with
      | [] => Undefined "data.lap[0]"
      | start_patch :: _ =>
          '(roads_, _) ← distances_from_start fuel start_patch (roads d);
          Ret (true, log_info "Track timing sectors" (set_data (set_roads roads_ d) e))
      end
  end.

(** [TRACK::LOADER::BeginObjectLoad] (234-257) *)
Definition BeginObjectLoad (fs : FileSystem) (l : LOADER) : outcome (bool * LOADER) :=
  let l := with_list_ true l in
  let l := with_packload (bool_decide (is_Some (objects_jpk fs))) (with_pack (objects_jpk fs) l) in
  match Begin l with
  | (true, l) => Ret (true, with_list_ false l)
  | (false, l) =>
      let l := with_objectfile (open (list_txt fs)) l in
      if negb (good (objectfile l)) then Ret (false, l)
      else BeginOld fs l
  end.

(** [TRACK::LOADER::BeginLoad] (133-187) *)
Definition BeginLoad (fuel : nat) (fs : FileSystem) (l : LOADER) : outcome (bool * LOADER) :=
  let l := Clear l in
  let e := log_info "Loading track from path" (env l) in
  let e :=
    match LoadSurfaces fs e with
    | (false, e) => log_info "No Surfaces File. Continuing with standard surfaces" e
    | (true, e) => e
    end in
  let e :=
    match LoadRoads fs e with
    | (false, e) =>
        upd_data (set_roads [])
          (log_error "Error during road loading; continuing with an unsmoothed track" e)
    | (true, e) => e
    end in
  match CreateRacingLines e with
  | (false, e) => Ret (false, with_env e l)
  | (true, e) =>
      match track_txt fs with
      | None => Ret (false, with_env (log_error "Can't find track configfile" e) l)
      | Some info =>
          let e := upd_data (fun d =>
            set_cull (snd (get_value (bools info) "cull faces" (cull d)))
              (set_vertical_tracking_skyboxes
                 (snd (get_value (bools info) "vertical tracking skyboxes"
                         (vertical_tracking_skyboxes d))) d)) e in
          '(ok, e) ← LoadStartPositions info e;
          if negb ok then Ret (false, with_env e l)
          else
            '(ok, e) ← LoadLapSections fuel info e;
            if negb ok then Ret (false, with_env e l)
            else
              '(ok, l) ← BeginObjectLoad fs (with_env e l);
              if negb ok then Ret (false, l) else Ret (true, l)
      end
  end.

End TrackSetup.

(* ================================================================== *)
(** ** An instance of the collaborators in exact rational arithmetic

    Used to run the loader on concrete tracks.  Sine and cosine are taken
    as Taylor polynomials; quaternions are not renormalised. *)

Definition sin_poly (x : Q) : Q :=
  (x - x * x * x / 6 + x * x * x * x * x / 120)%Q.
Definition cos_poly (x : Q) : Q :=
  (1 - x * x / 2 + x * x * x * x / 24)%Q.

Definition hamilton (a b : QUATERNION) : QUATERNION :=
  let '(ax, ay, az, aw) := a in
  let '(bx, by_, bz, bw) := b in
  ((aw * bx + ax * bw + ay * bz - az * by_)%Q,
   (aw * by_ - ax * bz + ay * bw + az * bx)%Q,
   (aw * bz + ax * by_ - ay * bx + az * bw)%Q,
   (aw * bw - ax * bx - ay * by_ - az * bz)%Q).

Definition axis_angle (angle ax ay az : Q) : QUATERNION :=
  let s := sin_poly (angle / 2) in
  ((ax * s)%Q, (ay * s)%Q, (az * s)%Q, cos_poly (angle / 2)).

Definition conjugate (q : QUATERNION) : QUATERNION :=
  let '(x, y, z, w) := q in ((- x)%Q, (- y)%Q, (- z)%Q, w).

#[global] Instance rational_externals : Externals := {|
  quat_of_euler x y z :=
    hamilton (axis_angle z 0 0 1) (hamilton (axis_angle y 0 1 0) (axis_angle x 1 0 0));
  SetEulerZYX z y x :=
    hamilton (axis_angle z 0 0 1) (hamilton (axis_angle y 0 1 0) (axis_angle x 1 0 0));
  quat_mul := hamilton;
  Rotate angle ax ay az q := hamilton (axis_angle angle ax ay az) q;
  RotateVector q v :=
    let '(v0, v1, v2) := v in
    let '(x, y, z, _) := hamilton (hamilton q (v0, v1, v2, 0%Q)) (conjugate q) in
    (x, y, z);
  LoadCollisionShape cfg _ := (strings cfg !! "shape", None);
  calculateLocalInertia _ _ := vec3_zero;
  Forward := (1%Q, 0%Q, 0%Q) |}.

(* ================================================================== *)
(** ** The patch ring of a strip *)

(** The successor of patch [i] of a strip along [next_patch], the length of
    the patch, and the [i]-th patch met from patch [s]. *)
Definition next_index (strip : ROADSTRIP) (i : nat) : nat :=
  match patches strip !! i ≫= BEZIER.next_patch with
  | Some (_, j) => j
  | None => 0%nat
  end.

Definition length_at (strip : ROADSTRIP) (i : nat) : Q :=
  default 0%Q (BEZIER.length <$> patches strip !! i).

Definition visit (strip : ROADSTRIP) (s i : nat) : nat :=
  Nat.iter i (next_index strip) s.

(** The lengths of the patches met from [s], up to the [i]-th included. *)
Fixpoint dist_after (strip : ROADSTRIP) (s i : nat) : Q :=
  match i with
  | O => length_at strip s
  | S i' => (dist_after strip s i' + length_at strip (visit strip s i))%Q
  end.

(** The patches of strip [r] form a ring: every patch has a successor in
    the strip, and no two patches share their successor. *)
Definition is_ring (r : nat) (strip : ROADSTRIP) : bool :=
  forallb (fun b =>
    match BEZIER.next_patch b with
    | Some (r', j) => Nat.eqb r' r && Nat.ltb j (List.length (patches strip))
    | None => false
    end) (patches strip)
  && bool_decide (NoDup (BEZIER.next_patch <$> patches strip)).

Definition nonnegative_lengths (strip : ROADSTRIP) : bool :=
  forallb (fun b => Qleb 0 (BEZIER.length b)) (patches strip).

Definition dist_in (roads_ : list ROADSTRIP) (p : patch_ptr) : Q :=
  default 0%Q (BEZIER.dist_from_start <$> get_patch roads_ p).

(** Three patches in a ring, and three patches whose links never come back
    to the first. *)
Definition ring_of_three : ROADSTRIP :=
  mkRoad [BEZIER.mk 10 7 (Some (0, 1)%nat) vec3_zero;
          BEZIER.mk 20 7 (Some (0, 2)%nat) vec3_zero;
          BEZIER.mk 30 7 (Some (0, 0)%nat) vec3_zero].
Definition lasso_of_three : ROADSTRIP :=
  mkRoad [BEZIER.mk 10 7 (Some (0, 1)%nat) vec3_zero;
          BEZIER.mk 20 7 (Some (0, 2)%nat) vec3_zero;
          BEZIER.mk 30 7 (Some (0, 1)%nat) vec3_zero].

(** The second and third patch of road 0 point at each other. *)
Definition lasso_links (roads_ : list ROADSTRIP) : Prop :=
  exists b1 b2,
    get_patch roads_ (0, 1)%nat = Some b1 /\ BEZIER.next_patch b1 = Some (0, 2)%nat /\
    get_patch roads_ (0, 2)%nat = Some b2 /\ BEZIER.next_patch b2 = Some (0, 1)%nat.

(* ================================================================== *)
(** ** Runs of the loader, and the predicates of the statements *)

(** The loader once the object load has begun. *)
Definition begun `{Externals} (fs : FileSystem) (l : LOADER) : LOADER :=
  match BeginObjectLoad fs l with
  | Ret (_, l1) => l1
  | _ => l
  end.

(** A bound on the number of invocations of the continuation: the
    characters left in the list file, or the nodes of the tree, and one. *)
Definition work_bound (l : LOADER) : nat :=
  if list_ l then S (String.length (buf (objectfile l)))
  else S (List.length (default [] (nodes l))).

(** The invocations [done] have gone through every object of the source. *)
Definition processed_all (l1 : LOADER) (done : list LOADER) : Prop :=
  Z.of_nat (List.length done) = numobjects l1 /\
  (list_ l1 = false ->
   node_it <$> done = seq 0 (List.length (default [] (nodes l1)))).

(** [ContinueLoad] invoked until the track is loaded; the result is the
    final loader. *)
Fixpoint load_all `{Externals} (fuel : nat) (cf : Config) (l : LOADER) : outcome LOADER :=
  match fuel with
  | O => OutOfFuel
  | S k =>
      '(ok, l') ← ContinueLoad cf l;
      if (ok : bool) then
        if loaded (data (env l')) then Ret l' else load_all k cf l'
      else Ret l'
  end.

(** The models the track data refers to. *)
Definition track_models (l : LOADER) : list (option MODEL.t) :=
  (fun p => deref (content (env l)) p) <$> models (data (env l)).

(** Whether the object load can begin: the content manager has an object
    tree, or the list file opens and declares the expected field count. *)
Definition can_begin (fs : FileSystem) (c : ContentManager) (expected : Z) : bool :=
  match content_load_config "objects.txt" c ≫= fun cfg => get_section cfg "object" with
  | Some _ => true
  | None =>
      good (open (list_txt fs)) &&
      match get (open (list_txt fs)) with
      | (Some tok, _) => to_int tok =? expected
      | (None, _) => false
      end
  end.

(** The members that select and steer the sub-protocol. *)
Definition same_protocol (l l' : LOADER) : Prop :=
  list_ l' = list_ l /\ error l' = error l /\
  params_per_object l' = params_per_object l /\
  expected_params l' = expected_params l /\
  numobjects l' = numobjects l /\ nodes l' = nodes l.

Definition crashed {A} (c : outcome A) : Prop :=
  match c with
  | AssertionFailed _ | Undefined _ => True
  | _ => False
  end.

(** The links and lengths of strip [r] in a road list are those of
    [strip]; the walk changes [dist_from_start] only. *)
Definition linked (r : nat) (strip : ROADSTRIP) (roads_ : list ROADSTRIP) : Prop :=
forall i, (i < List.length (patches strip))%nat ->
  exists b, get_patch roads_ (r, i) = Some b /\
    BEZIER.next_patch b = Some (r, next_index strip i) /\
    BEZIER.length b = length_at strip i.

(** What the scan of the start positions leaves of an environment: new
    start positions behind the old ones, new lines on the error stream. *)
Definition scanned (e e' : Env) : Prop :=
content e' = content e /\ world e' = world e /\ info_output e' = info_output e /\
(exists msgs, error_output e' = error_output e ++ msgs) /\
exists sp, data e' = set_start_positions (start_positions (data e) ++ sp) (data e).

(** The parts of the environment that the surfaces and the start positions
    leave alone, and an error stream that only grows. *)
Definition keeps_roads (e e' : Env) : Prop :=
  content e' = content e /\ roads (data e') = roads (data e) /\
  lap (data e') = lap (data e) /\
  forall msg, msg ∈ error_output e -> msg ∈ error_output e'.

(* ================================================================== *)
(** ** Words, lines and comments of a stream *)

(** Whether a string holds a white space character, or a line end. *)
Fixpoint has_space (s : string) : bool :=
  match s with
  | String c s' => isspace c || has_space s'
  | EmptyString => false
  end.

Fixpoint has_newline (s : string) : bool :=
  match s with
  | String c s' => Ascii.eqb c newline || has_newline s'
  | EmptyString => false
  end.

(** A stream in good state with the given characters ahead. *)
Definition stream_of (s : string) : ifstream := mkStream s false false.

(** A stream position at which a word ends: the end of the file or a white
    space character. *)
Definition at_boundary (s : string) : bool :=
  match s with
  | String c _ => isspace c
  | EmptyString => true
  end.

(** ** The metrics of a mesh *)

(** The [k]-th component of a vector, [v[k]]. *)
Definition vec3_at (v : vec3) (k : nat) : Q :=
  let '(v0, v1, v2) := v in
  match k with O => v0 | 1%nat => v1 | _ => v2 end.

(** ** The OpenGL objects and the file format of a model (graphics/model.cpp)

    The calls a model makes to OpenGL are kept in the order they are made;
    what OpenGL answers is given by a driver.  The serializer of the mesh
    (joeserialize.h) and the length of a vector (mathvector.h) are
    collaborators. *)

Module GL.

(** An argument of a call: a number, or a constant or an array by name. *)
Inductive arg : Type :=
| Num (z : Z)
| Sym (s : string).

Record call : Type := mkCall { fn : string; args : list arg }.

(** The calls made so far and the lines written to [error_output]. *)
Record state : Type := mkState {
  calls : list call;
  error_output : list string }.

(** For the call at position [k] of the trace: the value it returns, and
    the lines [GLUTIL::CheckForOpenGLErrors] writes when it is that
    check. *)
Record driver : Type := mkDriver {
  answer : nat -> Z;
  errors : nat -> list string }.

Definition call_ (fn_ : string) (args_ : list arg) (s : state) : state :=
  mkState (calls s ++ [mkCall fn_ args_]) (error_output s).

Definition ask (D : driver) (fn_ : string) (args_ : list arg) (s : state) : Z * state :=
  (answer D (List.length (calls s)), call_ fn_ args_ s).

(** [GLUTIL::CheckForOpenGLErrors(where, error_output)] *)
Definition CheckForOpenGLErrors (D : driver) (where_ : string) (s : state) : state :=
  mkState (calls s ++ [mkCall "CheckForOpenGLErrors" [Sym where_]])
          (error_output s ++ errors D (List.length (calls s))).

Definition log (msg : string) (s : state) : state :=
  mkState (calls s) (error_output s ++ [msg]).

End GL.

(** The collaborators of a model: the length of a vector and the binary
    serializer of a mesh.  [write_mesh] gives the bytes written and whether
    the serializer reports success; [read_mesh] gives the mesh read from
    the bytes, if the serializer reports success. *)
Class ModelExternals (MESH : Type) : Type := {
  Magnitude : vec3 -> Q;
  write_mesh : MESH -> string * bool;
  read_mesh : string -> option MESH }.

Module FULL.

(** [VERTEXARRAY] with all its arrays: the vertices and faces, the normals
    (three floats per vertex), the colors (four bytes per vertex) and the
    sets of texture coordinates (two floats per vertex each).  A getter
    hands out the length of its array and a pointer that is null for an
    empty array. *)
Record MESH : Type := mkMESH {
  base : VERTEXARRAY.t;
  normals : list Q;
  colors : list Z;
  texcoords : list (list Q) }.

(** [VERTEXARRAY::Clear] *)
Definition no_mesh : MESH := mkMESH VERTEXARRAY.empty [] [] [].

(** [MODEL] with all its members. *)
Record t : Type := mk {
  m_mesh : MESH;
  min : vec3;
  max : vec3;
  radius : Q;
  generatedmetrics : bool;
  vao : Z;
  elementVbo : Z;
  elementCount : Z;
  vbos : list Z;
  listid : Z;
  generatedvao : bool }.

(** [MODEL::MODEL()] *)
Definition new : t :=
  mk no_mesh vec3_zero vec3_zero 0%Q false 0 0 0 [] 0 false.

Definition facecount (m : t) : Z := Z.of_nat (List.length (VERTEXARRAY.faces (base (m_mesh m)))).
Definition vertcount (m : t) : Z := Z.of_nat (List.length (VERTEXARRAY.vertices (base (m_mesh m)))).
Definition normcount (m : t) : Z := Z.of_nat (List.length (normals (m_mesh m))).
Definition colcount (m : t) : Z := Z.of_nat (List.length (colors (m_mesh m))).
Definition GetTexCoordSets (m : t) : Z := Z.of_nat (List.length (texcoords (m_mesh m))).

Definition to_unsigned (z : Z) : Z := z mod 2 ^ 32.

Definition HaveListID (m : t) : bool := negb (listid m =? 0).
Definition HaveMeshMetrics (m : t) : bool := generatedmetrics m.
Definition HaveVertexArrayObject (m : t) : bool := generatedvao m.
Definition HaveMeshData (m : t) : bool := 0 <? VERTEXARRAY.GetNumFaces (base (m_mesh m)).
Definition Loaded (m : t) : bool := 0 <? VERTEXARRAY.GetNumFaces (base (m_mesh m)).
Definition CanSave (m : t) : bool := false.
Definition GetVertexArray (m : t) : MESH := m_mesh m.
Definition GetSize (m : t) : vec3 := vec3_sub (max m) (min m).
Definition GetCenter (m : t) : vec3 := vec3_scale (vec3_add (max m) (min m)) (1 # 2).

(** [MODEL::RequireMetrics], [MODEL::RequireListID] *)
Definition RequireMetrics (m : t) : outcome unit := assert (generatedmetrics m) "generatedmetrics".
Definition RequireListID (m : t) : outcome unit := assert (negb (listid m =? 0)) "listid".

Definition GetRadius (m : t) : outcome Q := _ ← RequireMetrics m; Ret (radius m).
Definition GetListID (m : t) : outcome Z := _ ← RequireListID m; Ret (listid m).

(** [MODEL::GetVertexArrayObject]: the outputs are written only when it
    returns [true]. *)
Definition GetVertexArrayObject (m : t) : option (Z * Z) :=
  if negb (generatedvao m) then None else Some (vao m, elementCount m).

(** The mesh part of the model, as the loader sees it. *)
Definition mesh_part (m : t) : MODEL.t :=
  MODEL.mk (base (m_mesh m)) (min m) (max m) (generatedmetrics m).

Definition set_mesh (x : MESH) (m : t) : t :=
  mk x (min m) (max m) (radius m) (generatedmetrics m) (vao m) (elementVbo m)
     (elementCount m) (vbos m) (listid m) (generatedvao m).
Definition set_listid (x : Z) (m : t) : t :=
  mk (m_mesh m) (min m) (max m) (radius m) (generatedmetrics m) (vao m) (elementVbo m)
     (elementCount m) (vbos m) x (generatedvao m).
Definition set_generatedmetrics (x : bool) (m : t) : t :=
  mk (m_mesh m) (min m) (max m) (radius m) x (vao m) (elementVbo m)
     (elementCount m) (vbos m) (listid m) (generatedvao m).
Definition set_vao (x : Z) (m : t) : t :=
  mk (m_mesh m) (min m) (max m) (radius m) (generatedmetrics m) x (elementVbo m)
     (elementCount m) (vbos m) (listid m) (generatedvao m).
Definition set_elementVbo (x : Z) (m : t) : t :=
  mk (m_mesh m) (min m) (max m) (radius m) (generatedmetrics m) (vao m) x
     (elementCount m) (vbos m) (listid m) (generatedvao m).
Definition set_elementCount (x : Z) (m : t) : t :=
  mk (m_mesh m) (min m) (max m) (radius m) (generatedmetrics m) (vao m) (elementVbo m)
     x (vbos m) (listid m) (generatedvao m).
Definition set_vbos (x : list Z) (m : t) : t :=
  mk (m_mesh m) (min m) (max m) (radius m) (generatedmetrics m) (vao m) (elementVbo m)
     (elementCount m) x (listid m) (generatedvao m).
Definition set_generatedvao (x : bool) (m : t) : t :=
  mk (m_mesh m) (min m) (max m) (radius m) (generatedmetrics m) (vao m) (elementVbo m)
     (elementCount m) (vbos m) (listid m) x.

(** [MODEL::ClearMeshData], [MODEL::ClearMetrics] *)
Definition ClearMeshData (m : t) : t := set_mesh no_mesh m.
Definition ClearMetrics (m : t) : t := set_generatedmetrics false m.

(** [MODEL::ClearListID] *)
Definition ClearListID (m : t) (s : GL.state) : t * GL.state :=
  let s := if negb (listid m =? 0)
           then GL.call_ "glDeleteLists" [GL.Num (listid m); GL.Num 1] s else s in
  (set_listid 0 m, s).

(** [MODEL::ClearVertexArrayObject] *)
Definition ClearVertexArrayObject (m : t) (s : GL.state) : t * GL.state :=
  let '(m, s) :=
    if generatedvao m then
      let s := GL.call_ "glBindBuffer" [GL.Sym "GL_ARRAY_BUFFER"; GL.Num 0] s in
      let s := GL.call_ "glBindBuffer" [GL.Sym "GL_ELEMENT_ARRAY_BUFFER"; GL.Num 0] s in
      let s :=
        if negb (Nat.eqb (List.length (vbos m)) 0)
        then GL.call_ "glDeleteBuffers" (GL.Num <$> vbos m) s else s in
      let '(m, s) :=
        if negb (elementVbo m =? 0)
        then (set_elementVbo 0 m, GL.call_ "glDeleteBuffers" [GL.Num (elementVbo m)] s)
        else (m, s) in
      if negb (vao m =? 0) then
        let s := GL.call_ "glBindVertexArray" [GL.Num 0] s in
        let s := GL.call_ "glDeleteVertexArrays" [GL.Num (vao m)] s in
        (set_vao 0 m, s)
      else (m, s)
    else (m, s) in
  (set_listid 0 m, s).

(** [MODEL::Clear] *)
Definition Clear (m : t) (s : GL.state) : t * GL.state :=
  let m := ClearMeshData m in
  let '(m, s) := ClearListID m s in
  let '(m, s) := ClearVertexArrayObject m s in
  (ClearMetrics m, s).

(** [MODEL::SetVertexArray] *)
Definition SetVertexArray (newmesh : MESH) (m : t) (s : GL.state) : t * GL.state :=
  let '(m, s) := Clear m s in (set_mesh newmesh m, s).

Section Model.
Context `{X : ModelExternals MESH} (D : GL.driver).

(** [MODEL::GenerateMeshMetrics] (347-375), with the radius. *)
Definition GenerateMeshMetrics (m : t) : outcome t :=
  c ← MODEL.GenerateMeshMetrics (mesh_part m);
  let size := MODEL.GetSize c in
  let r := (Magnitude size * (1 # 2) + (1 # 1000))%Q in   (* 0.001 margin *)
  Ret (mk (m_mesh m) (MODEL.min c) (MODEL.max c) r true (vao m) (elementVbo m)
          (elementCount m) (vbos m) (listid m) (generatedvao m)).

(** [MODEL::BuildFromVertexArray] *)
Definition BuildFromVertexArray (newmesh : MESH) (m : t) (s : GL.state)
    : outcome (t * GL.state) :=
  let '(m, s) := SetVertexArray newmesh m s in
  m ← GenerateMeshMetrics m; Ret (m, s).

(** [MODEL::GenerateListID] (149-200).  [GetTexCoords(0, ...)] on a mesh
    without a set of texture coordinates is taken as undefined
    (vertexarray.h is not among the sources). *)
Definition GenerateListID (m : t) (s : GL.state) : outcome (t * GL.state) :=
  if HaveListID m then Ret (m, s)
  else
    let '(m, s) := ClearListID m s in
    let '(id, s) := GL.ask D "glGenLists" [GL.Num 1] s in
    let m := set_listid id m in
    let s := GL.CheckForOpenGLErrors D "MODEL::GenerateListID gen list" s in
    match texcoords (m_mesh m) !! 0%nat with
    | None => Undefined "m_mesh.GetTexCoords(0, tcoord, tccount)"
    | Some tc =>
        let tccount := Z.of_nat (List.length tc) in
        _ ← assert (0 <? facecount m) "facecount > 0";
        _ ← assert (0 <? vertcount m) "vertcount > 0";
        _ ← assert (0 <? normcount m) "normcount > 0";
        _ ← assert (0 <? tccount) "tccount > 0";
        (* mesa vertex attribute segfault fix *)
        let '(n, s) := GL.ask D "glGetIntegerv" [GL.Sym "GL_MAX_VERTEX_ATTRIBS"] s in
        let s :=
          fold_left (fun s i => GL.call_ "glDisableVertexAttribArray" [GL.Num (Z.of_nat i)] s)
            (seq 0 (Z.to_nat n)) s in
        let s := GL.call_ "glEnableClientState" [GL.Sym "GL_VERTEX_ARRAY"] s in
        let s := GL.call_ "glEnableClientState" [GL.Sym "GL_NORMAL_ARRAY"] s in
        let s := GL.call_ "glEnableClientState" [GL.Sym "GL_TEXTURE_COORD_ARRAY"] s in
        let s := GL.call_ "glVertexPointer"
                   [GL.Num 3; GL.Sym "GL_FLOAT"; GL.Num 0; GL.Sym "verts"] s in
        let s := GL.call_ "glNormalPointer" [GL.Sym "GL_FLOAT"; GL.Num 0; GL.Sym "norms"] s in
        let s := GL.call_ "glTexCoordPointer"
                   [GL.Num 2; GL.Sym "GL_FLOAT"; GL.Num 0; GL.Sym "tcoord"] s in
        let s := GL.call_ "glNewList" [GL.Num (listid m); GL.Sym "GL_COMPILE"] s in
        let s := GL.call_ "glDrawElements"
                   [GL.Sym "GL_TRIANGLES"; GL.Num (facecount m); GL.Sym "GL_UNSIGNED_INT";
                    GL.Sym "faces"] s in
        let s := GL.call_ "glEndList" [] s in
        let s := GL.call_ "glDisableClientState" [GL.Sym "GL_TEXTURE_COORD_ARRAY"] s in
        let s := GL.call_ "glDisableClientState" [GL.Sym "GL_NORMAL_ARRAY"] s in
        let s := GL.call_ "glDisableClientState" [GL.Sym "GL_VERTEX_ARRAY"] s in
        Ret (m, GL.CheckForOpenGLErrors D "MODEL::GenerateListID init list" s)
    end.

(** [ERROR_CHECK] at a line of model.cpp; [func] stands for
    [__PRETTY_FUNCTION__]. *)
Definition ERROR_CHECK (func : string) (line : Z) (s : GL.state) : GL.state :=
  GL.CheckForOpenGLErrors D (func +:+ ":model.cpp:" +:+ pretty line) s.

(** [GenerateBufferObject] (202-220); [size] is [sizeof(T)]. *)
Definition GenerateBufferObject (attribId data : string) (size vertexCount elementsPerVertex : Z)
    (type : string) (normalized : bool) (s : GL.state) : Z * GL.state :=
  let check := ERROR_CHECK "GenerateBufferObject" in
  let '(vboHandle, s) := GL.ask D "glGenBuffers" [GL.Num 1] s in
  let s := check 213 s in
  let s := GL.call_ "glBindBuffer" [GL.Sym "GL_ARRAY_BUFFER"; GL.Num vboHandle] s in
  let s := check 214 s in
  let s := GL.call_ "glBufferData"
             [GL.Sym "GL_ARRAY_BUFFER";
              GL.Num (to_unsigned (vertexCount * elementsPerVertex) * size);
              GL.Sym data; GL.Sym "GL_STATIC_DRAW"] s in
  let s := check 215 s in
  let s := GL.call_ "glVertexAttribPointer"
             [GL.Sym attribId; GL.Num elementsPerVertex; GL.Sym type;
              GL.Num (if normalized then 1 else 0); GL.Num 0; GL.Num 0] s in
  let s := check 216 s in
  let s := GL.call_ "glEnableVertexAttribArray" [GL.Sym attribId] s in
  let s := check 217 s in
  (vboHandle, s).

(** [MODEL::GenerateVertexArrayObject] (222-303) *)
Definition GenerateVertexArrayObject (m : t) (s : GL.state) : outcome (t * GL.state) :=
  if generatedvao m then Ret (m, s)
  else
    let check := ERROR_CHECK "MODEL::GenerateVertexArrayObject" in
    (* generate vertex array object *)
    let '(v, s) := GL.ask D "glGenVertexArrays" [GL.Num 1] s in
    let m := set_vao v m in
    let s := check 228 s in
    let s := GL.call_ "glBindVertexArray" [GL.Num (vao m)] s in
    let s := check 231 s in
    (* buffer object for faces *)
    _ ← assert (0 <? facecount m) "faces && facecount > 0";
    let '(e, s) := GL.ask D "glGenBuffers" [GL.Num 1] s in
    let m := set_elementVbo e m in
    let s := check 238 s in
    let s := GL.call_ "glBindBuffer" [GL.Sym "GL_ELEMENT_ARRAY_BUFFER"; GL.Num (elementVbo m)] s in
    let s := check 239 s in
    let s := GL.call_ "glBufferData"
               [GL.Sym "GL_ELEMENT_ARRAY_BUFFER"; GL.Num (facecount m * 4); GL.Sym "faces";
                GL.Sym "GL_STATIC_DRAW"] s in
    let s := check 240 s in
    let m := set_elementCount (facecount m) m in
    (* the number of vertices *)
    _ ← assert (0 <? vertcount m) "verts && vertcount > 0";
    let vertexCount := vertcount m / 3 in
    (* buffer object for vertex positions *)
    let '(b, s) := GenerateBufferObject "VERTEX_POSITION" "verts" 4 vertexCount 3 "GL_FLOAT" false s in
    let m := set_vbos (push_back b (vbos m)) m in
    (* buffer object for normals *)
    '(m, s) ←
      (if normcount m <=? 0 then
         Ret (m, GL.call_ "glDisableVertexAttribArray" [GL.Sym "VERTEX_NORMAL"] s)
       else
         _ ← assert (normcount m =? to_unsigned (vertexCount * 3))
               "(unsigned int)normcount == vertexCount*3";
         let '(b, s) :=
           GenerateBufferObject "VERTEX_NORMAL" "norms" 4 vertexCount 3 "GL_FLOAT" false s in
         Ret (set_vbos (push_back b (vbos m)) m, s));
    let s := GL.call_ "glDisableVertexAttribArray" [GL.Sym "VERTEX_TANGENT"] s in
    let s := GL.call_ "glDisableVertexAttribArray" [GL.Sym "VERTEX_BITANGENT"] s in
    (* buffer object for colors *)
    '(m, s) ←
      (if 0 <? colcount m then
         _ ← assert (colcount m =? to_unsigned (vertexCount * 4))
               "(unsigned int)colcount == vertexCount*4";
         let '(b, s) :=
           GenerateBufferObject "VERTEX_COLOR" "cols" 1 vertexCount 4 "GL_UNSIGNED_BYTE" true s in
         Ret (set_vbos (push_back b (vbos m)) m, s)
       else Ret (m, GL.call_ "glDisableVertexAttribArray" [GL.Sym "VERTEX_COLOR"] s));
    (* buffer object for texture coordinates *)
    '(m, s) ←
      (match texcoords (m_mesh m) with
       | tc0 :: _ =>
           _ ← assert (Z.of_nat (List.length tc0) =? to_unsigned (vertexCount * 2))
                 "(unsigned int)tccount[0] == vertexCount*2";
           let '(b, s) :=
             GenerateBufferObject "VERTEX_UV0" "tc[0]" 4 vertexCount 2 "GL_FLOAT" false s in
           Ret (set_vbos (push_back b (vbos m)) m, s)
       | [] => Ret (m, GL.call_ "glDisableVertexAttribArray" [GL.Sym "VERTEX_UV0"] s)
       end);
    let s := GL.call_ "glDisableVertexAttribArray" [GL.Sym "VERTEX_UV1"] s in
    let s := GL.call_ "glDisableVertexAttribArray" [GL.Sym "VERTEX_UV2"] s in
    (* don't leave anything bound *)
    let s := GL.call_ "glBindVertexArray" [GL.Num 0] s in
    let s := GL.call_ "glBindBuffer" [GL.Sym "GL_ARRAY_BUFFER"; GL.Num 0] s in
    let s := GL.call_ "glBindBuffer" [GL.Sym "GL_ELEMENT_ARRAY_BUFFER"; GL.Num 0] s in
    Ret (set_generatedvao true m, s).

(** [MODEL::Load(varray, error_output, genlist)] (81-89); it returns
    [true] whenever it returns. *)
Definition Load (varray : MESH) (genlist : bool) (m : t) (s : GL.state)
    : outcome (bool * t * GL.state) :=
  '(m, s) ← BuildFromVertexArray varray m s;
  '(m, s) ← (if genlist then GenerateListID m s else GenerateVertexArrayObject m s);
  Ret (true, m, s).

(** [MODEL::Load(strFileName, error_output, genlist)] and [MODEL::Save] *)
Definition Load_file (strFileName : string) (genlist : bool) (m : t) : bool := false.
Definition Save (strFileName : string) (m : t) : bool := false.

(** *** The file of a model *)

Definition file_magic : string := "OGLVARRAYV01".

(** The files by their path, and whether a path can be opened for
    writing. *)
Record Disk : Type := mkDisk {
  contents : gmap string string;
  writable : string -> bool }.

(** [MODEL::WriteToFile] (97-106): the result, and the disk with what has
    been written. *)
Definition WriteToFile (filepath : string) (m : t) (disk : Disk) : bool * Disk :=
  if negb (writable disk filepath) then (false, disk)
  else
    let '(bytes, ok) := write_mesh (m_mesh m) in
    (ok, mkDisk (<[filepath := file_magic +:+ bytes]> (contents disk)) (writable disk)).

Fixpoint take_chars (n : nat) (s : string) : string :=
  match n, s with
  | S n', String c s' => String c (take_chars n' s')
  | _, _ => EmptyString
  end.

Fixpoint drop_chars (n : nat) (s : string) : string :=
  match n, s with
  | S n', String _ s' => drop_chars n' s'
  | _, _ => s
  end.

(** The string a [char] array holds: the characters before the first zero
    character. *)
Fixpoint c_str (s : string) : string :=
  match s with
  | String c s' => if Ascii.eqb c zero then EmptyString else String c (c_str s')
  | EmptyString => EmptyString
  end.

Definition quote : string := String (ascii_of_nat 34) EmptyString.

(** [MODEL::ReadFromFile] (108-147) *)
Definition ReadFromFile (disk : Disk) (filepath : string) (generatelistid : bool)
    (m : t) (s : GL.state) : outcome (bool * t * GL.state) :=
  match contents disk !! filepath with
  | None => Ret (false, m, GL.log ("Can't find file: " +:+ filepath) s)
  | Some bytes =>
      let n := String.length file_magic in
      if (String.length bytes <? n)%nat then
        Ret (false, m, GL.log ("File magic read error: " +:+ filepath) s)
      else
        let fmagic := c_str (take_chars n bytes) in
        (* [compare] gives zero for equal strings *)
        if String.eqb file_magic fmagic then
          Ret (false, m,
               GL.log ("File magic is incorrect: " +:+ quote +:+ file_magic +:+ quote
                       +:+ " != " +:+ quote +:+ fmagic +:+ quote +:+ " in " +:+ filepath) s)
        else
          match read_mesh (drop_chars n bytes) with
          | None =>
              let s := GL.log ("Serialization error: " +:+ filepath) s in
              let '(m, s) := Clear m s in
              Ret (false, m, s)
          | Some mesh =>
              let m := set_mesh mesh m in
              let '(m, s) := ClearListID m s in
              let m := ClearMetrics m in
              m ← GenerateMeshMetrics m;
              '(m, s) ← (if generatelistid then GenerateListID m s else Ret (m, s));
              Ret (true, m, s)
          end
  end.

Fixpoint ends_with (suffix s : string) : bool :=
  String.eqb suffix s ||
  match s with
  | String _ s' => ends_with suffix s'
  | EmptyString => false
  end.

(** [MODEL::MODEL(filepath, error_output)] (46-59) *)
Definition of_file (disk : Disk) (filepath : string) (s : GL.state)
    : outcome (t * GL.state) :=
  if (4 <? String.length filepath)%nat && ends_with ".ova" filepath then
    '(_, m, s) ← ReadFromFile disk filepath false new s; Ret (m, s)
  else
    let _ := Load_file filepath false new in Ret (new, s).

End Model.
End FULL.

(** Whether a call asks OpenGL for a new object. *)
Definition generates (c : GL.call) : bool := String.prefix "glGen" (GL.fn c).

(** The calls made from one state to a later one. *)
Definition calls_since (s s' : GL.state) : list GL.call :=
  drop (List.length (GL.calls s)) (GL.calls s').

(** ** Readings of the track files *)

(** The sections of the surfaces file that describe a surface. *)
Definition surface_sections (fs : FileSystem) : list (string * PTree) :=
  match surfaces_txt fs with
  | Some param => List.filter (fun sec => String.prefix "surface" (fst sec)) (children param)
  | None => []
  end.

(** The position [LoadStartPositions] makes of the value of the key
    [start position k]: the components change places. *)
Definition start_position_of (info : PTree) (k : nat) : vec3 :=
  let f3 := default [] (vectors info !! ("start position " +:+ pretty k)) in
  (nth 2 f3 0%Q, nth 0 f3 0%Q, nth 1 f3 0%Q).

(** What a patch is apart from its distance from the start: its length,
    its link and its corner. *)
Definition patch_shape (b : BEZIER.t) : Q * option patch_ptr * vec3 :=
  (BEZIER.length b, BEZIER.next_patch b, BEZIER.BL b).

(** Two road lists that differ in the distances from the start at most. *)
Definition same_patches (roads_ roads' : list ROADSTRIP) : Prop :=
  List.length roads' = List.length roads_ /\
  forall p, patch_shape <$> get_patch roads' p = patch_shape <$> get_patch roads_ p.

(** The square of the distance from [bpos] to the corner of a patch, and
    whether the corner lies ahead of [bpos] along [bdir] (1062-1064). *)
Definition len2_to (bpos : vec3) (b : BEZIER.t) : Q :=
  let vec := vec3_sub (BEZIER.BL b) bpos in vec3_dot vec vec.
Definition is_ahead (bpos bdir : vec3) (b : BEZIER.t) : bool :=
  Qltb 0 (vec3_dot (vec3_sub (BEZIER.BL b) bpos) bdir).


(** ** Sections, objects and bodies of a load *)

Fixpoint has_slash (s : string) : bool :=
  match s with
  | String c s' => Ascii.eqb c "/"%char || has_slash s'
  | EmptyString => false
  end.

(** Whether a section is the body of an object, named by its parent
    (403). *)
Definition is_body_reference (cfg : PTree) : bool :=
  String.eqb (value cfg) "body" && bool_decide (is_Some (parent cfg)).

(** The same collision objects have been added to the track data and to the
    physics world. *)
Definition in_step (e e' : Env) : Prop :=
  exists new, objects (data e') = objects (data e) ++ new /\ world e' = world e ++ new.

(** The motion state a rigid body was constructed with. *)
Definition motion_state_of (o : btCollisionObject) : option MotionState :=
  snd <$> rigid o.

(** The bodies that move are kept three times over: a rigid body among the
    objects, its motion state, and the handle of its scene node under the
    dynamic node.  The three go by the same index. *)
Definition dynamic_bodies_agree (d : DATA) : Prop :=
  omap motion_state_of (objects d) = body_transforms d /\
  body_nodes d = seq 0 (List.length (childnodes (dynamic_node d))) /\
  List.length (body_nodes d) = List.length (body_transforms d).

(** The drawables on the draw lists of a node itself. *)
Definition drawn (n : SCENENODE) : nat := List.length (drawlist n).

(** ** The tokens of the legacy list *)

(** A word of the list file that is not a comment, and the white space
    before it. *)
Definition plain (tok : string) : Prop :=
  tok <> "" /\ has_space tok = false /\ is_comment tok = false.
Definition blank (ws : string) : Prop := ws <> "" /\ skipws ws = "".
Definition spaced (item : string * string) : Prop := blank (fst item) /\ plain (snd item).

(** Tokens written one after the other, each behind its white space, with
    [rest] behind the last. *)
Definition text_of (items : list (string * string)) (rest : string) : string :=
  fold_right (fun item s => fst item +:+ snd item +:+ s) rest items.

(** The stream whose characters have run out in a failed extraction. *)
Definition spent : ifstream := mkStream "" true true.

(** The [k]-th token of a record behind its model name. *)
Definition field (items : list (string * string)) (k : nat) : string :=
  default "" (snd <$> items !! k).

(** The object [ContinueOld] makes of the sixteen fields of a record
    (788-803), and whether the record is a shadow. *)
Definition object_of (items : list (string * string)) : OBJECT :=
  mkOBJECT None (field items 0) (to_bool (field items 1)) (to_bool (field items 2))
    (to_bool (field items 3)) (to_int (field items 4)) (to_int (field items 14))
    (to_bool (field items 8)) (to_int (field items 15)) false.
Definition shadow_of (items : list (string * string)) : bool := to_bool (field items 13).

(** ** The texture names of a body (trackloader.cpp 43-53) *)

(** [std::getline(lhs, str, delim)] on a stream that is good: the field, the
    characters left behind the delimiter, and whether the end of the stream
    was met. *)
Fixpoint getline (delim : ascii) (s : string) : string * string * bool :=
  match s with
  | String c s' =>
      if Ascii.eqb c delim then (EmptyString, s', false)
      else let '(str, r, e) := getline delim s' in (String c str, r, e)
  | EmptyString => (EmptyString, EmptyString, true)
  end.

(** [lhs >> rhs] for a vector of strings (43-53): the fields between commas
    go to the elements in turn, each through a string stream of its own,
    until the elements or the characters run out; an element whose field
    holds no word keeps its value. *)
Fixpoint extract_strings (lhs : string) (eof : bool) (rhs : list string) : list string :=
  match rhs with
  | [] => []
  | x :: rhs' =>
      if eof then rhs
      else
        let '(str, lhs', eof') := getline ","%char lhs in
        fst (extract x (open (Some str))) :: extract_strings lhs' eof' rhs'
  end.

Fixpoint has_comma (s : string) : bool :=
  match s with
  | String c s' => Ascii.eqb c ","%char || has_comma s'
  | EmptyString => false
  end.

(** A name that can stand between the commas of a texture value. *)
Definition clean (name : string) : Prop := has_comma name = false /\ has_space name = false.

(* ================================================================== *)
(** ** Concrete tracks *)

Definition content_new (files : gmap string MODEL.t) (configs : gmap string PTree)
  : ContentManager := mkContent files configs ∅ [].
Definition env_new (c : ContentManager) : Env := mkEnv c [] DATA_new [] [].
Definition ptree_new (name : string) (sections : list (string * PTree)) : PTree :=
  mkPTree name None ∅ ∅ ∅ ∅ ∅ sections.
Definition config_new : Config := mkConfig "track" 0 true false false.
Definition no_files : FileSystem := mkFS None None None None None.

(** A triangle with its three vertices. *)
Definition triangle : MODEL.t :=
  MODEL.mk (VERTEXARRAY.mk [0; 0; 0; 1; 0; 0; 0; 1; 0]%Q [0; 1; 2])
    vec3_zero (1, 1, 0)%Q true.

(** A track with three surfaces and a road of three patches, reversed. *)
Definition surface_new (type : string) : TRACKSURFACE := mkSurface type 1 0 1 1 0 0.
Definition three_surfaces : list TRACKSURFACE :=
  [surface_new "asphalt"; surface_new "grass"; surface_new "gravel"].
Definition data_three_surfaces : DATA := set_surfaces three_surfaces DATA_new.
Definition data_reversed : DATA := set_reverse true (set_roads [ring_of_three] DATA_new).
Definition info_lap_sequence : PTree :=
  mkPTree "" None ∅ {["lap sequences" := 1]} ∅ ∅
    {["lap sequence 0" := [inject_Z 0; inject_Z 1]]} [].

(** A modern object section that names surface -1, and a static body. *)
Definition cfg_surface_minus_one : PTree :=
  mkPTree "body" (Some "wall") {["model" := "wall.joe"]} {["surface" := -1]} ∅
    {["mass" := 0%Q]} ∅ [].
Definition cfg_no_surface : PTree :=
  mkPTree "body" (Some "wall") {["model" := "wall.joe"]} ∅ ∅ {["mass" := 0%Q]} ∅ [].
Definition static_body : BODY :=
  mkBody (drawable BODY_new) None None vec3_zero vec3_zero 0%Q true false.
Definition object_surface_minus_one : OBJECT :=
  mkOBJECT (Some 0%nat) "wall.png" true false false 0 0 true (-1) false.
Definition env_wall : Env :=
  mkEnv (mkContent ∅ ∅ {["wall.joe" := 0%nat]} [triangle]) [] data_three_surfaces [] [].

(** A mesh of three vertices that lies in the negative octant, and a
    movable body without authored shape. *)
Definition sunken_vertices : list Q :=
  [-1; -1; -1;  -2; -3; -4;  -5; -1; -2]%Q.
Definition sunken : MODEL.t :=
  MODEL.mk (VERTEXARRAY.mk sunken_vertices [0; 1; 2]) vec3_zero vec3_zero false.
Definition cfg_crate : PTree :=
  mkPTree "body" (Some "crate") {["model" := "crate.joe"]} ∅ ∅ {["mass" := 10%Q]} ∅ [].
Definition movable_body : BODY :=
  mkBody (drawable BODY_new) None None vec3_zero vec3_zero 10%Q true false.

(** A legacy list of three objects that share model and texture, loaded
    with aggressive combining. *)
Definition config_combining : Config := mkConfig "track" 0 true false true.
Definition fs_three_trees : FileSystem :=
  mkFS None None None
    (Some "17
tree.joe tree.png 1 0 0 0 0 0 0 0 0 0 0 0 0 0 0
tree.joe tree.png 1 0 0 0 0 0 0 0 0 0 0 0 0 0 0
tree.joe tree.png 1 0 0 0 0 0 0 0 0 0 0 0 0 0 0") None.
Definition loader_three_trees : LOADER :=
  LOADER_new (env_new (content_new {["tree.joe" := triangle]} ∅)) false.

(** A modern object that casts a shadow and has a mass, loaded with dynamic
    shadows, and a lamp without mass. *)
Definition config_shadows : Config := mkConfig "track" 0 true true false.
Definition cfg_shadow : PTree :=
  mkPTree "body" (Some "shadow") {["model" := "shadow.joe"]} ∅ {["isashadow" := true]}
    {["mass" := 10%Q]} ∅ [].
Definition cfg_lamp : PTree :=
  mkPTree "body" (Some "lamp") {["model" := "lamp.joe"]} ∅ ∅ ∅ ∅ [].
Definition sec_lamp : PTree := ptree_new "lamp" [("body", cfg_lamp)].
Definition env_lamp : Env :=
  env_new (content_new {["lamp.joe" := triangle; "shadow.joe" := triangle]} ∅).

(** A track without roads file: surfaces, track file and an object tree
    (with no object) are there. *)
Definition fs_no_roads : FileSystem :=
  mkFS (Some (ptree_new "" [("surface-0", ptree_new "surface-0" [])])) None
    (Some (ptree_new "" [])) None None.
Definition loader_no_roads : LOADER :=
  LOADER_new
    (env_new (content_new ∅ {["objects.txt" := ptree_new "" [("object", ptree_new "object" [])]]}))
    false.

(** A legacy list that declares 14 fields per object. *)
Definition fs_14_fields : FileSystem :=
  mkFS None None None (Some "14 a.joe a.png 1 0 0 0 0 0 0 1 0 0 0 0") None.
Definition loader_14_fields : LOADER :=
  with_objectfile (open (list_txt fs_14_fields)) (LOADER_new (env_new (content_new ∅ ∅)) false).

(** A modern tree whose only node has no [body] section. *)
Definition objects_txt_no_body : PTree :=
  ptree_new "" [("object", ptree_new "object" [("lamp", ptree_new "lamp" [])])].
Definition loader_no_body : LOADER :=
  LOADER_new (env_new (content_new ∅ {["objects.txt" := objects_txt_no_body]})) false.

(** A legacy list of two objects that use the triangle. *)
Definition fs_two_objects : FileSystem :=
  mkFS None None None
    (Some "17
# model texture mipmap nolighting skybox transparent - - - collideable - - - - shadow clamp surface
a.joe a.png 1 0 0 0 0 0 0 0 0 0 0 0 0 0 0
b.joe b.png 1 0 0 0 0 0 0 0 0 0 0 0 0 0 0") None.
Definition loader_two_objects : LOADER :=
  LOADER_new (env_new (content_new {["a.joe" := triangle; "b.joe" := triangle]} ∅)) false.

(** A comment of 1024 characters behind its word, all on one line. *)
Definition long_comment : string :=
  String " " (string_of_list_ascii (repeat "x"%char 1023)).

(** The sunken mesh with the metrics that [GenerateMeshMetrics] gives it. *)
Definition sunken_measured : MODEL.t :=
  MODEL.mk (VERTEXARRAY.mk sunken_vertices [0; 1; 2]) (-5, -3, -4)%Q
    (MODEL.flt_min, MODEL.flt_min, MODEL.flt_min) true.

(** *** A model on concrete collaborators

    The square of the length of a vector stands for its length (there are
    no square roots among the rationals); the serializer writes the two
    counts of a mesh in decimal and reads back the empty mesh only.  OpenGL
    numbers its objects by the position of the call that generates them and
    reports no error. *)

#[global] Instance counting_serializer : ModelExternals FULL.MESH := {|
  Magnitude v := let '(x, y, z) := v in (x * x + y * y + z * z)%Q;
  write_mesh mesh :=
    (pretty (Z.of_nat (List.length (VERTEXARRAY.vertices (FULL.base mesh)))) +:+ " "
       +:+ pretty (Z.of_nat (List.length (VERTEXARRAY.faces (FULL.base mesh)))), true);
  read_mesh bytes := if String.eqb bytes "0 0" then Some FULL.no_mesh else None |}.

Definition gl_counting : GL.driver := GL.mkDriver (fun k => Z.of_nat k + 1) (fun _ => []).
Definition gl_start : GL.state := GL.mkState [] [].

(** A triangle with normals and one set of texture coordinates, a model
    that has generated its vertex array object for it, and a square of two
    triangles. *)
Definition triangle_mesh : FULL.MESH :=
  FULL.mkMESH (VERTEXARRAY.mk [0; 0; 0; 1; 0; 0; 0; 1; 0]%Q [0; 1; 2])
    [0; 0; 1; 0; 0; 1; 0; 0; 1]%Q [] [[0; 0; 1; 0; 0; 1]%Q].
Definition triangle_loaded : FULL.t :=
  FULL.mk triangle_mesh vec3_zero (1, 1, MODEL.flt_min)%Q 1%Q true 1 4 3 [11; 21; 32] 0 true.
Definition square_mesh : FULL.MESH :=
  FULL.mkMESH (VERTEXARRAY.mk [0; 0; 0; 1; 0; 0; 0; 1; 0; 1; 1; 0]%Q [0; 1; 2; 1; 3; 2])
    [] [] [].
Definition empty_disk : FULL.Disk := FULL.mkDisk ∅ (fun _ => true).

(** A track file with start positions 0 and 1, none with number 2, and one
    with number 3, and a track without roads. *)
Definition info_start_positions : PTree :=
  mkPTree "" None ∅ ∅ ∅ ∅
    {["start position 0" := [1; 2; 3]%Q; "start position 1" := [4; 5; 6]%Q;
      "start position 3" := [7; 8; 9]%Q]} [].
Definition env_no_roads : Env := env_new (content_new ∅ ∅).

(** The tokens of the list of walls behind its header, each with the white
    space before it: the fields of the first record, and the second
    record. *)
Definition line_end : string := String newline "".
Definition wall_fields : list (string * string) :=
  (fun f => (" ", f)) <$>
    ["wall.png"; "1"; "0"; "0"; "0"; "0"; "0"; "0"; "1"; "0"; "0"; "0"; "0"; "0"; "0"; "1"].
Definition fence_record : list (string * string) :=
  (line_end, "fence.joe") ::
  ((fun f => (" ", f)) <$>
     ["fence.png"; "1"; "0"; "0"; "0"; "0"; "0"; "0"; "1"; "0"; "0"; "0"; "0"; "0"; "0"; "2"]).

(** A legacy list of two collideable objects on a track with three
    surfaces; the file ends with a line end. *)
Definition fs_walls : FileSystem :=
  mkFS None None None
    (Some "17
wall.joe wall.png 1 0 0 0 0 0 0 1 0 0 0 0 0 0 1
fence.joe fence.png 1 0 0 0 0 0 0 1 0 0 0 0 0 0 2
") None.
Definition env_walls : Env :=
  mkEnv (content_new {["wall.joe" := triangle; "fence.joe" := triangle]} ∅) []
    data_three_surfaces [] [].
Definition loader_walls : LOADER := LOADER_new env_walls false.
Definition wall_object : OBJECT :=
  mkOBJECT None "wall.png" true false false 0 0 true 1 false.
Definition wall_combined : OBJECT :=
  mkOBJECT (Some 0%nat) "wall.png" true false false 0 0 true 1 false.

(** A static body hung on the third surface. *)
Definition cfg_surface_two : PTree :=
  mkPTree "body" (Some "wall") {["model" := "wall.joe"]} {["surface" := 2]} ∅
    {["mass" := 0%Q]} ∅ [].

(** A modern tree with one movable crate. *)
Definition objects_txt_crate : PTree :=
  ptree_new ""
    [("object", ptree_new "object" [("crate", ptree_new "crate" [("body", cfg_crate)])])].
Definition loader_crate : LOADER :=
  LOADER_new
    (env_new (content_new {["crate.joe" := triangle]} {["objects.txt" := objects_txt_crate]}))
    false.

(** Collaborators that leave every orientation as it is. *)
Definition still_externals : Externals := {|
  quat_of_euler _ _ _ := (0, 0, 0, 1)%Q;
  SetEulerZYX _ _ _ := (0, 0, 0, 1)%Q;
  quat_mul a _ := a;
  Rotate _ _ _ _ q := q;
  RotateVector _ v := v;
  LoadCollisionShape _ _ := (None, None);
  calculateLocalInertia _ _ := vec3_zero;
  Forward := (1, 0, 0)%Q |}.

(* ================================================================== *)
(** ** Properties of the token reader *)

Section StreamFacts.

Example get_skips_comment :
  get (open (Some "  # a comment
 17 rest")) = (Some "17", mkStream " rest" false false).
Proof. reflexivity. Qed.

Lemma skipws_length s : (String.length (skipws s) <= String.length s)%nat.
Proof. induction s as [|c s IH]; simpl; [lia|]. destruct (isspace c); simpl; lia. Qed.

Lemma word_length s w r :
  word s = (w, r) -> (String.length w + String.length r = String.length s)%nat.
Proof.
  revert w r. induction s as [|c s IH]; simpl; intros w r Hw.
  - inversion Hw; reflexivity.
  - destruct (isspace c).
    + inversion Hw; reflexivity.
    + destruct (word s) as [w' r'] eqn:Hs. inversion Hw; subst; simpl.
      specialize (IH _ _ eq_refl). lia.
Qed.

Lemma skipws_head c s t : skipws s = String c t -> isspace c = false.
Proof.
  induction s as [|c' s' IH]; simpl; [discriminate|].
  destruct (isspace c') eqn:Hc; [exact IH|]. intros [= -> _]. exact Hc.
Qed.

(** A token is never empty and is taken out of the buffer. *)
Lemma extract_shrinks instr f w f' :
  extract instr f = (w, f') -> w <> instr ->
  (String.length (buf f') < String.length (buf f))%nat /\ w <> "".
Proof.
  unfold extract. destruct (good f); [|intros [= <- <-]; congruence].
  pose proof (skipws_length (buf f)) as Hlen.
  destruct (skipws (buf f)) as [|c s] eqn:Hs; [intros [= <- <-]; congruence|].
  pose proof (skipws_head _ _ _ Hs) as Hc.
  destruct (word (String c s)) as [w' r] eqn:Hw. intros [= <- <-] _.
  pose proof (word_length _ _ _ Hw) as Hl. simpl in *.
  rewrite Hc in Hw. destruct (word s); inversion Hw; subst; simpl in *.
  split; [lia|discriminate].
Qed.

Lemma extract_length instr f :
  (String.length (buf (snd (extract instr f))) <= String.length (buf f))%nat.
Proof.
  unfold extract. destruct (good f); [|simpl; lia].
  pose proof (skipws_length (buf f)) as Hlen.
  destruct (skipws (buf f)) as [|c s] eqn:Hs; [simpl; lia|].
  destruct (word (String c s)) as [w r] eqn:Hw.
  pose proof (word_length _ _ _ Hw) as Hl.
  cbn [snd buf]. cbn [String.length] in Hl, Hlen. lia.
Qed.

Lemma ignore_chars_length n s :
  (String.length (fst (ignore_chars n s)) <= String.length s)%nat.
Proof.
  revert s. induction n as [|n IH]; intros s; simpl; [lia|].
  destruct s as [|c s]; simpl; [lia|].
  destruct (Ascii.eqb c newline); simpl; [lia|]. specialize (IH s). lia.
Qed.

Lemma ignore_length f : (String.length (buf (ignore f)) <= String.length (buf f))%nat.
Proof.
  unfold ignore. destruct (good f); [|simpl; lia].
  pose proof (ignore_chars_length 1024 (buf f)) as H.
  destruct (ignore_chars 1024 (buf f)) as [r e]. exact H.
Qed.

Lemma ignore_chars_shrinks n c s :
  (String.length (fst (ignore_chars (S n) (String c s))) < String.length (String c s))%nat.
Proof.
  cbn [ignore_chars]. destruct (Ascii.eqb c newline); [simpl; lia|].
  pose proof (ignore_chars_length n s). simpl. lia.
Qed.

Lemma ignore_shrinks f :
  good f = true -> buf f <> "" ->
  (String.length (buf (ignore f)) < String.length (buf f))%nat.
Proof.
  intros Hg Hb. unfold ignore. rewrite Hg.
  destruct (buf f) as [|c s]; [congruence|].
  pose proof (ignore_chars_shrinks 1023 c s) as H.
  change (S 1023) with 1024%nat in H.
  destruct (ignore_chars 1024 (String c s)) as [r e]. exact H.
Qed.

Lemma ignore_eof f : good f = true -> buf f = "" -> good (ignore f) = false.
Proof. intros Hg Hb. unfold ignore. rewrite Hg, Hb. reflexivity. Qed.

Lemma skip_comments_length fuel instr f :
  (String.length (buf (snd (skip_comments fuel instr f))) <= String.length (buf f))%nat.
Proof.
  revert instr f. induction fuel as [|k IH]; intros instr f; simpl; [lia|].
  destruct (is_comment instr && good f); simpl; [|lia].
  pose proof (extract_length instr (ignore f)) as H1.
  pose proof (ignore_length f) as H2.
  destruct (extract instr (ignore f)) as [i' f'] eqn:He; simpl in *.
  specialize (IH i' f'). lia.
Qed.

(** [get] never gives characters back ... *)
Lemma get_length f : (String.length (buf (snd (get f))) <= String.length (buf f))%nat.
Proof.
  unfold get. destruct (good f); [|cbn [snd]; lia].
  pose proof (extract_length "" f) as H1.
  destruct (extract "" f) as [instr f1] eqn:He; cbn [snd] in H1.
  destruct (is_empty instr); [cbn [snd]; lia|].
  pose proof (skip_comments_length (S (String.length (buf f1))) instr f1) as H2.
  destruct (skip_comments (S (String.length (buf f1))) instr f1) as [i2 f2]; cbn [snd] in H2.
  destruct (negb (good f2) && is_comment i2); cbn [snd]; lia.
Qed.

(** ... and a successful [get] consumes at least one. *)
Lemma get_shrinks f tok f' :
  get f = (Some tok, f') -> (String.length (buf f') < String.length (buf f))%nat.
Proof.
  unfold get. destruct (good f); [|discriminate].
  destruct (extract "" f) as [instr f1] eqn:He.
  destruct (is_empty instr) eqn:Hi; [discriminate|].
  assert (instr <> "") as Hne by (destruct instr; [discriminate|congruence]).
  destruct (extract_shrinks _ _ _ _ He Hne) as [Hlt _].
  pose proof (skip_comments_length (S (String.length (buf f1))) instr f1) as H2.
  destruct (skip_comments (S (String.length (buf f1))) instr f1) as [i2 f2]; cbn [snd] in H2.
  destruct (negb (good f2) && is_comment i2); [discriminate|].
  intros [= _ <-]. lia.
Qed.

Lemma get_junk_length n f :
  (String.length (buf (get_junk n f)) <= String.length (buf f))%nat.
Proof.
  revert f. induction n as [|n IH]; intros f; simpl; [lia|].
  specialize (IH (snd (get f))). pose proof (get_length f). lia.
Qed.

Lemma get_junk_0 f : get_junk 0 f = f.
Proof. reflexivity. Qed.

Lemma get_junk_add n m f : get_junk (n + m) f = get_junk m (get_junk n f).
Proof. revert f. induction n as [|n IH]; intros f; simpl; [reflexivity|apply IH]. Qed.

Lemma get_string_stream f o : snd (get_string f o) = snd (get f).
Proof. unfold get_string. destruct (get f) as [[?|] ?]; reflexivity. Qed.
Lemma get_int_stream f o : snd (get_int f o) = snd (get f).
Proof. unfold get_int. destruct (get f) as [[?|] ?]; reflexivity. Qed.
Lemma get_bool_stream f o : snd (get_bool f o) = snd (get f).
Proof. unfold get_bool. destruct (get f) as [[?|] ?]; reflexivity. Qed.

(** The comment loop of [get] has run to its end: the fuel given to
    [skip_comments] is enough. *)
Lemma skip_comments_done fuel instr f i' f' :
  (String.length (buf f) < fuel)%nat ->
  skip_comments fuel instr f = (i', f') ->
  is_comment i' && good f' = false.
Proof.
  revert instr f. induction fuel as [|k IH]; intros instr f Hlt; [lia|].
  cbn [skip_comments].
  destruct (is_comment instr && good f) eqn:Hc; [|intros [= <- <-]; exact Hc].
  apply andb_true_iff in Hc as [Hi Hg].
  destruct (extract instr (ignore f)) as [i1 f1] eqn:He.
  destruct (String.eqb (buf f) "") eqn:Hb.
  - (* nothing left: [ignore] meets the end of the file *)
    apply String.eqb_eq in Hb.
    pose proof (ignore_eof f Hg Hb) as Hbad.
    unfold extract in He. rewrite Hbad in He. inversion He; subst.
    assert (good {| buf := buf (ignore f); eofbit := eofbit (ignore f); failbit := true |}
            = false) as Hbad' by (unfold good; simpl; apply andb_false_r).
    destruct k; cbn [skip_comments]; [|rewrite Hbad', andb_false_r];
      intros [= <- <-]; rewrite Hbad'; apply andb_false_r.
  - apply String.eqb_neq in Hb. intros Hs. apply (IH i1 f1); [|exact Hs].
    pose proof (extract_length instr (ignore f)) as H1. rewrite He in H1. simpl in H1.
    pose proof (ignore_shrinks f Hg Hb). lia.
Qed.

End StreamFacts.

#[global] Arguments get : simpl never.
#[global] Arguments skip_comments : simpl never.

(* ================================================================== *)
(** ** The legacy list: what one step reads, and the pre-scan *)

Ltac expose := unfold mbind, outcome_bind, mret, outcome_ret, assert.

Ltac case_step :=
  expose;
  match goal with
  | |- context [match ?x with _ => _ end] =>
      lazymatch x with
      | context [match _ with _ => _ end] => fail
      | _ => destruct x eqn:?; cbv beta iota
      end
  end.

Section LegacyFacts.
Context {E : Externals}.

Lemma AddObject_true object e ok e' : AddObject object e = Ret (ok, e') -> ok = true.
Proof.
  unfold AddObject, GetIndexedMesh. repeat case_step; try discriminate;
    intros H; inversion H; reflexivity.
Qed.

Lemma AddObject_fuel object e : AddObject object e <> OutOfFuel.
Proof. unfold AddObject, GetIndexedMesh. repeat case_step; discriminate. Qed.

(** The fields of a record are sixteen tokens and the trailing ones. *)
Lemma read_record_stream p x f :
  snd (read_record p x f) = get_junk (Z.to_nat (p - x)) (get_junk 16 f).
Proof.
  unfold read_record.
  repeat match goal with
  | |- context [get_string ?f ?o] =>
      let H := fresh in
      pose proof (get_string_stream f o) as H;
      destruct (get_string f o) as [[? ?] ?]; cbn [snd] in H; subst
  | |- context [get_bool ?f ?o] =>
      let H := fresh in
      pose proof (get_bool_stream f o) as H;
      destruct (get_bool f o) as [[? ?] ?]; cbn [snd] in H; subst
  | |- context [get_int ?f ?o] =>
      let H := fresh in
      pose proof (get_int_stream f o) as H;
      destruct (get_int f o) as [[? ?] ?]; cbn [snd] in H; subst
  end.
  cbv beta iota. cbn [snd get_junk]. reflexivity.
Qed.

(** Resolving and adding or combining an object leaves the list file and
    the protocol alone, and never reports an error. *)
Lemma load_object_frame cf name object l :
  match load_object cf name object l with
  | Ret (error_, more, l') =>
      error_ = false /\ more = true /\ same_protocol l l' /\
      objectfile l' = objectfile l
  | OutOfFuel => False
  | _ => True
  end.
Proof.
  unfold load_object, merge_into, register_combined, same_protocol.
  destruct (if packload l then _ else _) as [model_ c].
  destruct (agressive_combining cf).
  - repeat case_step; cbn; auto 10.
  - pose proof (AddObject_true (set_model model_ object) (env (with_env (set_content c (env l)) l))) as Ht.
    pose proof (AddObject_fuel (set_model model_ object) (env (with_env (set_content c (env l)) l))) as Hf.
    expose. destruct (AddObject _ _) as [[ok e']| | |]; [|exact I|exact I|congruence].
    rewrite (Ht _ _ eq_refl). cbn. auto 10.
Qed.

(** The merge puts the vertices of the object's model behind those of the
    entry's model, as both are at that moment. *)
Lemma merge_into_adds i object l l' mi mo :
  deref (content (env l)) (model i) = Some mi ->
  deref (content (env l)) (model object) = Some mo ->
  merge_into i object l = Ret l' ->
  VERTEXARRAY.vertices <$> (MODEL.GetVertexArray <$> deref (content (env l')) (model i))
  = Some (VERTEXARRAY.vertices (MODEL.GetVertexArray mi)
          ++ VERTEXARRAY.vertices (MODEL.GetVertexArray mo)).
Proof.
  unfold merge_into. intros Hi Ho. rewrite Hi, Ho.
  destruct (model i) as [hi|] eqn:Hm; [|discriminate]. intros [= <-].
  unfold deref in *. cbn in *. rewrite list_lookup_insert_eq; [reflexivity|].
  eapply lookup_lt_Some, Hi.
Qed.

(** At the end of the list [ContinueOld] reports that no work is left. *)
Lemma ContinueOld_end cf l f1 :
  get (objectfile l) = (None, f1) ->
  ContinueOld cf l = Ret (false, false, with_objectfile f1 l).
Proof. intros Hg. unfold ContinueOld, get_string. rewrite Hg. reflexivity. Qed.

(** A record takes the model name, sixteen more tokens and
    [params_per_object - expected_params] trailing ones; the step never
    reports an error. *)
Lemma ContinueOld_record cf l tok f1 :
  get (objectfile l) = (Some tok, f1) ->
  match ContinueOld cf l with
  | Ret (error_, more, l') =>
      error_ = false /\ more = true /\ same_protocol l l' /\
      objectfile l' =
        get_junk (Z.to_nat (params_per_object l - expected_params l)) (get_junk 16 f1)
  | OutOfFuel => False
  | _ => True
  end.
Proof.
  intros Hg. unfold ContinueOld, get_string. rewrite Hg. cbn [negb].
  pose proof (read_record_stream (params_per_object l) (expected_params l) f1) as Hs.
  destruct (read_record _ _ f1) as [[object isashadow] f2]. cbn [snd] in Hs. subst f2.
  destruct (dynamic_shadows cf && isashadow).
  - unfold same_protocol. cbn. auto 10.
  - match goal with |- context [load_object cf tok object ?l1] =>
      pose proof (load_object_frame cf tok object l1) as Hf;
      destruct (load_object cf tok object l1) as [[[e m] l']| | |];
        [|exact I|exact I|exact Hf]
    end.
    destruct Hf as (-> & -> & Hp & Ho). repeat split; try apply Hp. exact Ho.
Qed.

End LegacyFacts.

Section RunFacts.
Context {E : Externals}.

(** The pre-scan comes to the end of the list file. *)
Lemma count_objects_returns fuel p f num :
  (String.length (buf f) < fuel)%nat ->
  exists k : nat, count_objects fuel p f num = Ret (num + Z.of_nat k).
Proof.
  revert f num. induction fuel as [|fuel IH]; intros f num Hlt; [lia|].
  cbn [count_objects]. destruct (get f) as [[tok|] f1] eqn:Hg.
  - pose proof (get_shrinks _ _ _ Hg) as H1.
    pose proof (get_junk_length (Z.to_nat (p - 1)) f1) as H2.
    destruct (IH (get_junk (Z.to_nat (p - 1)) f1) (num + 1)) as [k Hk]; [lia|].
    exists (S k). rewrite Hk. f_equal. lia.
  - exists 0%nat. f_equal. lia.
Qed.

Lemma CalculateNumOld_returns fs : exists n, CalculateNumOld fs = Ret n.
Proof.
  unfold CalculateNumOld. destruct (get_int _ 0) as [[[|] p] f1]; [|eauto].
  destruct (count_objects_returns (S (String.length (buf f1))) p f1 0) as [k Hk]; [lia|].
  eauto.
Qed.

(** Stepping through a legacy list whose header was accepted follows the
    pre-scan record by record. *)
Lemma run_legacy cf fuel : forall l num,
  list_ l = true -> error l = false ->
  params_per_object l = 17 -> expected_params l = 17 ->
  match run_object_load fuel cf l with
  | Ret (error_, done, l') =>
      error_ = false /\
      count_objects fuel 17 (objectfile l) num = Ret (num + Z.of_nat (List.length done))
  | OutOfFuel => count_objects fuel 17 (objectfile l) num = OutOfFuel
  | _ => True
  end.
Proof.
  induction fuel as [|fuel IH]; intros l num Hl He Hp Hx; [reflexivity|].
  cbn [run_object_load count_objects]. unfold ContinueObjectLoad. rewrite He, Hl.
  destruct (get (objectfile l)) as [[tok|] f1] eqn:Hg.
  - pose proof (ContinueOld_record cf l tok f1 Hg) as Hr.
    destruct (ContinueOld cf l) as [[[e m] l1]| | |]; [|exact I|exact I|destruct Hr].
    destruct Hr as (-> & -> & (Hl1 & He1 & Hp1 & Hx1 & _) & Hf).
    rewrite Hp, Hx in Hf.
    change (Z.to_nat (17 - 17)) with 0%nat in Hf. rewrite get_junk_0 in Hf.
    change (Z.to_nat (17 - 1)) with 16%nat. cbn [mbind outcome_bind].
    specialize (IH l1 (num + 1)). rewrite Hf in IH.
    destruct (run_object_load fuel cf l1) as [[[e d] l2]| | |]; cbn [mbind outcome_bind];
      [|exact I|exact I|apply IH; congruence].
    destruct IH as [-> Hc]; [congruence..|]. split; [reflexivity|].
    rewrite Hc. f_equal. cbn [List.length]. lia.
  - rewrite (ContinueOld_end cf l f1 Hg). cbn. split; [reflexivity|]. f_equal. lia.
Qed.

Lemma LoadShape_fuel cfg m body d : LoadShape cfg m body d <> OutOfFuel.
Proof. unfold LoadShape, GetIndexedMesh. repeat case_step; discriminate. Qed.

Lemma LoadBody_fuel cf pl pk cfg b e : LoadBody cf pl pk cfg b e <> OutOfFuel.
Proof.
  unfold LoadBody.
  repeat match goal with
  | |- context [LoadShape ?a ?b ?c ?d] =>
      pose proof (LoadShape_fuel a b c d); destruct (LoadShape a b c d) as [[? ?]| | |]
  | _ => case_step
  end; congruence.
Qed.

(** [LoadNode] fails exactly on a node without [body] section. *)
Lemma LoadNode_result cf pl pk sec b e :
  match LoadNode cf pl pk sec b e with
  | Ret (ok, _, _) => ok = bool_decide (is_Some (get_section sec "body"))
  | OutOfFuel => False
  | _ => True
  end.
Proof.
  unfold LoadNode. destruct (get_section sec "body") as [sec_body|]; [|reflexivity].
  pose proof (LoadBody_fuel cf pl pk sec_body b e) as Hf.
  expose. destruct (LoadBody cf pl pk sec_body b e) as [[[ib b'] e']| | |];
    [|exact I|exact I|congruence].
  repeat case_step; first [reflexivity | exact I].
Qed.

(** One step of the modern protocol. *)
Lemma Continue_step cf l nodes_ :
  nodes l = Some nodes_ ->
  match Continue cf l with
  | Ret (error_, more, l') =>
      nodes l' = nodes l /\ list_ l' = list_ l /\ error l' = error l /\
      match nodes_ !! node_it l with
      | None => error_ = false /\ more = false
      | Some (_, sec) =>
          if bool_decide (is_Some (get_section sec "body"))
          then error_ = false /\ more = true /\ node_it l' = S (node_it l)
          else error_ = true /\ more = false
      end
  | OutOfFuel => False
  | _ => True
  end.
Proof.
  intros Hn. unfold Continue. rewrite Hn.
  destruct (nodes_ !! node_it l) as [[name sec]|]; [|cbn; auto 10].
  pose proof (LoadNode_result cf (packload l) (pack l) sec (bodies l) (env l)) as Hr.
  expose. destruct (LoadNode _ _ _ sec _ _) as [[[ok b'] e']| | |]; [|exact I|exact I|exact Hr].
  rewrite <- Hr. destruct ok; cbn; auto 10.
Qed.

(** Stepping through the nodes of the modern tree: the nodes are taken in
    turn, and the run stops early only at a node without [body]. *)
Lemma run_modern cf fuel : forall l nodes_,
  nodes l = Some nodes_ -> list_ l = false -> error l = false ->
  (node_it l <= List.length nodes_)%nat ->
  (List.length nodes_ - node_it l < fuel)%nat ->
  match run_object_load fuel cf l with
  | Ret (error_, done, l') =>
      node_it <$> done = seq (node_it l) (List.length done) /\
      (error_ = false -> (node_it l + List.length done)%nat = List.length nodes_) /\
      (error_ = true ->
         exists name sec, nodes_ !! (node_it l + List.length done)%nat = Some (name, sec)
                          /\ get_section sec "body" = None)
  | OutOfFuel => False
  | _ => True
  end.
Proof.
  induction fuel as [|fuel IH]; intros l nodes_ Hn Hl He Hle Hlt; [lia|].
  cbn [run_object_load]. unfold ContinueObjectLoad. rewrite He, Hl.
  pose proof (Continue_step cf l nodes_ Hn) as Hs.
  expose. destruct (Continue cf l) as [[[e m] l1]| | |]; [|exact I|exact I|exact Hs].
  destruct Hs as (Hn1 & Hl1 & He1 & Hs).
  destruct (nodes_ !! node_it l) as [[name sec]|] eqn:Hlook.
  - apply lookup_lt_Some in Hlook as Hlt'.
    destruct (bool_decide (is_Some (get_section sec "body"))) eqn:Hb.
    + destruct Hs as (-> & -> & Hit).
      specialize (IH l1 nodes_). rewrite Hit in IH.
      destruct (run_object_load fuel cf l1) as [[[e d] l2]| | |];
        [|exact I|exact I|apply IH; (congruence || lia)].
      destruct IH as (Hd & Hok & Hbad); [congruence|congruence|congruence|lia|lia|].
      cbn [List.length fmap list_fmap seq]. repeat split.
      * f_equal. exact Hd.
      * intros ->. specialize (Hok eq_refl). lia.
      * intros ->. destruct (Hbad eq_refl) as (n & s0 & Hs0 & Hnone).
        exists n, s0. split; [|exact Hnone]. rewrite <- Hs0. f_equal. lia.
    + destruct Hs as (-> & ->). cbn. repeat split; [discriminate|].
      intros _. exists name, sec. rewrite Nat.add_0_r. split; [exact Hlook|].
      apply bool_decide_eq_false in Hb. destruct (get_section sec "body"); [|reflexivity].
      exfalso. apply Hb. eauto.
  - apply lookup_ge_None in Hlook. destruct Hs as (-> & ->). cbn.
    repeat split; [intros _; lia|discriminate].
Qed.

Lemma Begin_true l l0 :
  Begin l = (true, l0) ->
  exists nodes_,
    l0 = with_numobjects (Z.of_nat (List.length nodes_))
           (with_node_it 0%nat (with_nodes (Some nodes_) l)).
Proof.
  unfold Begin. destruct (content_load_config _ _) as [track_config|]; [|discriminate].
  destruct (get_section track_config "object") as [sec|]; [|discriminate].
  intros [= <-]. eauto.
Qed.

Lemma Begin_false l l0 : Begin l = (false, l0) -> l0 = l \/ l0 = with_nodes None l.
Proof.
  unfold Begin. destruct (content_load_config _ _) as [track_config|]; [|intros [= <-]; auto].
  destruct (get_section track_config "object") as [sec|]; [discriminate|].
  intros [= <-]; auto.
Qed.

(** [BeginOld] accepts the header exactly when the declared field count
    is the expected one. *)
Lemma BeginOld_result fs l :
  exists n, CalculateNumOld fs = Ret n /\
    BeginOld fs l =
      match get (objectfile l) with
      | (Some tok, f1) =>
          let l1 := with_params_per_object (to_int tok)
                      (with_objectfile f1 (with_numobjects n l)) in
          if to_int tok =? expected_params l then Ret (true, l1)
          else Ret (false,
                    with_env (log_error "Track object list has the wrong number of params per object" (env l1)) l1)
      | (None, f1) => Ret (false, with_objectfile f1 (with_numobjects n l))
      end.
Proof.
  destruct (CalculateNumOld_returns fs) as [n Hn]. exists n. split; [exact Hn|].
  unfold BeginOld. rewrite Hn. expose.
  change (objectfile (with_numobjects n l)) with (objectfile l).
  unfold get_int. destruct (get (objectfile l)) as [[tok|] f1]; [|reflexivity].
  change (expected_params _) with (expected_params l).
  destruct (to_int tok =? expected_params l); reflexivity.
Qed.

(** What a successful [BeginObjectLoad] leaves behind: the modern tree
    with its cursor at the first node, or the legacy list behind its
    accepted header, with the count of the pre-scan. *)
Lemma BeginObjectLoad_begun fs l l1 :
  BeginObjectLoad fs l = Ret (true, l1) ->
  error l1 = error l /\
  ((list_ l1 = false /\ exists nodes_, nodes l1 = Some nodes_ /\ node_it l1 = 0%nat /\
      numobjects l1 = Z.of_nat (List.length nodes_))
   \/ (list_ l1 = true /\ params_per_object l1 = expected_params l /\
       expected_params l1 = expected_params l /\
       exists tok f1, get (open (list_txt fs)) = (Some tok, f1) /\
         to_int tok = expected_params l /\ objectfile l1 = f1 /\
         CalculateNumOld fs = Ret (numobjects l1))).
Proof.
  unfold BeginObjectLoad.
  destruct (Begin _) as [[|] l0] eqn:HB.
  - apply Begin_true in HB as [nodes_ ->]. intros [= <-].
    split; [reflexivity|]. left. split; [reflexivity|]. exists nodes_. auto.
  - change (objectfile (with_objectfile (open (list_txt fs)) l0)) with (open (list_txt fs)).
    destruct (negb (good (open (list_txt fs)))); [discriminate|].
    destruct (BeginOld_result fs (with_objectfile (open (list_txt fs)) l0)) as (n & Hn & ->).
    change (objectfile (with_objectfile (open (list_txt fs)) l0)) with (open (list_txt fs)).
    destruct (get (open (list_txt fs))) as [[tok|] f1]; [|discriminate].
    cbv zeta.
    destruct (to_int tok =? _) eqn:Heq; [|discriminate].
    apply Z.eqb_eq in Heq. intros [= <-].
    apply Begin_false in HB as [-> | ->];
      (split; [reflexivity|]; right; repeat split; try exact Heq;
       exists tok, f1; repeat split; auto).
Qed.

End RunFacts.

(* ================================================================== *)
(** ** The legacy header and the resumable run *)

(** C2, as the code has it.  The field count per object starts at 17, with
    17 expected and a minimum of 14 stored; [BeginOld] always returns, and it
    accepts the header exactly when the declared count is the expected one:
    the minimum is not consulted.  Behind an accepted header [ContinueOld]
    reads a record as the model name and sixteen more tokens, with no
    trailing token left to discard. *)
Theorem C2_header_count_must_be_expected `{Externals} (fs : FileSystem) (l : LOADER) :
  (forall e r, let l0 := LOADER_new e r in
     params_per_object l0 = 17 /\ expected_params l0 = 17 /\ min_params l0 = 14) /\
  exists ok l1, BeginOld fs l = Ret (ok, l1) /\
    (ok = true <->
       exists tok f1, get (objectfile l) = (Some tok, f1) /\ to_int tok = expected_params l) /\
    (ok = true ->
       Z.to_nat (params_per_object l1 - expected_params l1) = 0%nat /\
       forall cf tok f1, get (objectfile l1) = (Some tok, f1) ->
         match ContinueOld cf l1 with
         | Ret (_, _, l2) => objectfile l2 = get_junk 16 f1
         | OutOfFuel => False
         | _ => True
         end).
Proof.
  split; [intros e r; repeat split|].
  destruct (BeginOld_result fs l) as (n & _ & Hb). rewrite Hb. clear Hb.
  destruct (get (objectfile l)) as [[tok|] f1] eqn:Hg.
  - cbv zeta. destruct (to_int tok =? expected_params l) eqn:Heq.
    + apply Z.eqb_eq in Heq. eexists _, _. split; [reflexivity|]. split.
      * split; [eauto|reflexivity].
      * intros _.
        assert (params_per_object
                  (with_params_per_object (to_int tok)
                     (with_objectfile f1 (with_numobjects n l))) -
                expected_params
                  (with_params_per_object (to_int tok)
                     (with_objectfile f1 (with_numobjects n l))) = 0) as Hz.
        { cbn. lia. }
        split; [rewrite Hz; reflexivity|].
        intros cf tok' f' Hg'.
        pose proof (ContinueOld_record cf _ tok' f' Hg') as Hr.
        destruct (ContinueOld cf _) as [[[? ?] l2]| | |]; try exact I; [|exact Hr].
        destruct Hr as (_ & _ & _ & ->). rewrite Hz.
        change (Z.to_nat 0) with 0%nat. apply get_junk_0.
    + apply Z.eqb_neq in Heq. eexists _, _. split; [reflexivity|]. split.
      * split; [discriminate|]. intros (tok' & f' & [= <- <-] & Heq'). contradiction.
      * discriminate.
  - eexists _, _. split; [reflexivity|]. split.
    + split; [discriminate|]. intros (tok' & f' & [=] & _).
    + discriminate.
Qed.

(** C2, the claim as stated fails: a list that declares 14 fields per
    object, the stored minimum, is turned down by [BeginOld]. *)
Lemma C2_counterexample :
  to_int "14" = min_params loader_14_fields /\
  exists l1, BeginOld fs_14_fields loader_14_fields = Ret (false, l1).
Proof. split; [reflexivity|]. eexists. vm_compute. reflexivity. Qed.

(** C7, as the code has it.  Once the object load has begun, invoking the
    continuation until it reports no more work takes no more invocations
    than [work_bound]; unless the loader stops on a failed assertion or an
    undefined access, the run ends, a legacy run ends without error, and a
    run that ends without error has processed exactly [numobjects] objects
    (the node count, or the count of the pre-scan), the nodes of the modern
    tree one after the other, each once. *)
Theorem C7_run_processes_every_object `{Externals} (cf : Config) (fs : FileSystem)
    (l l1 : LOADER) :
  error l = false -> expected_params l = 17 ->
  BeginObjectLoad fs l = Ret (true, l1) ->
  let r := run_object_load (work_bound l1) cf l1 in
  crashed r \/
  exists error_ done l2, r = Ret (error_, done, l2) /\
    (list_ l1 = true -> error_ = false) /\
    (error_ = false -> processed_all l1 done).
Proof.
  intros He Hx Hb r. subst r.
  apply BeginObjectLoad_begun in Hb as [He1 [Hm | Hleg]].
  - destruct Hm as (Hl & nodes_ & Hn & Hit & Hnum).
    assert (work_bound l1 = S (List.length nodes_)) as Hw.
    { unfold work_bound. rewrite Hl, Hn. reflexivity. }
    pose proof (run_modern cf (work_bound l1) l1 nodes_ Hn Hl) as Hr.
    rewrite Hw, Hit in *.
    specialize (Hr ltac:(congruence) ltac:(lia) ltac:(lia)).
    destruct (run_object_load _ cf l1) as [[[e d] l2]| | |];
      [|left; exact I|left; exact I|destruct Hr].
    right. exists e, d, l2. split; [reflexivity|]. split; [congruence|].
    intros ->. destruct Hr as (Hd & Hok & _). specialize (Hok eq_refl).
    cbn [Nat.add] in Hok. unfold processed_all. rewrite Hn.
    split; [lia|]. intros _. rewrite Hd, Hok. reflexivity.
  - destruct Hleg as (Hl & Hp & Hx1 & tok & f1 & Hg & Htok & Hf & Hnum).
    pose proof (run_legacy cf (work_bound l1) l1 0 Hl ltac:(congruence)
                  ltac:(congruence) ltac:(congruence)) as Hr.
    assert (work_bound l1 = S (String.length (buf f1))) as Hw.
    { unfold work_bound. rewrite Hl, Hf. reflexivity. }
    unfold CalculateNumOld, get_int in Hnum. rewrite Hg, Htok, Hx in Hnum.
    rewrite Hw in *. rewrite Hf in Hr.
    destruct (run_object_load _ cf l1) as [[[e d] l2]| | |];
      [|left; exact I|left; exact I|congruence].
    right. exists e, d, l2. destruct Hr as [-> Hc]. split; [reflexivity|].
    split; [reflexivity|]. intros _. split; [|congruence].
    rewrite Hc in Hnum. injection Hnum as <-. lia.
Qed.

(** C7 at work: the object load of the two-object list has begun and is
    run through. *)
Lemma C7_witness :
  let l1 := begun fs_two_objects loader_two_objects in
  let r := run_object_load (work_bound l1) config_new l1 in
  crashed r \/
  exists error_ done l2, r = Ret (error_, done, l2) /\
    (list_ l1 = true -> error_ = false) /\
    (error_ = false -> processed_all l1 done).
Proof.
  apply (C7_run_processes_every_object config_new fs_two_objects loader_two_objects);
    [reflexivity|reflexivity|vm_compute; reflexivity].
Defined.

(** C7, the claim as stated fails: the tree has one node, the first
    invocation reports an error and no more work, and no object has been
    processed. *)
Lemma C7_counterexample :
  let l1 := begun no_files loader_no_body in
  BeginObjectLoad no_files loader_no_body = Ret (true, l1) /\
  numobjects l1 = 1 /\
  exists l2, run_object_load (work_bound l1) config_new l1 = Ret (true, [], l2).
Proof.
  split; [vm_compute; reflexivity|]. split; [reflexivity|].
  eexists. vm_compute. reflexivity.
Qed.

(* ================================================================== *)
(** ** The walk along the patch ring *)

Lemma Qleb_le x y : Qleb x y = true <-> (x <= y)%Q.
Proof. unfold Qleb, Qle. apply Z.leb_le. Qed.

Lemma Qltb_lt x y : Qltb x y = true <-> (x < y)%Q.
Proof. unfold Qltb, Qlt. apply Z.ltb_lt. Qed.

Lemma ptr_eqb_eq a b : ptr_eqb a b = true <-> a = b.
Proof.
  destruct a as [a1 a2], b as [b1 b2]. unfold ptr_eqb. cbn [fst snd].
  rewrite andb_true_iff, !Nat.eqb_eq. split; [intros [-> ->]; reflexivity|].
  intros [= -> ->]. auto.
Qed.

Lemma get_set_patch_eq roads_ p b0 b :
  get_patch roads_ p = Some b0 -> get_patch (set_patch roads_ p b) p = Some b.
Proof.
  unfold get_patch, set_patch. destruct p as [r i]. cbn [fst snd].
  rewrite list_lookup_alter. destruct (decide (r = r)); [|congruence].
  destruct (roads_ !! r) as [strip|]; [|discriminate]. cbn.
  intros Hb. apply list_lookup_insert_eq. eapply lookup_lt_Some, Hb.
Qed.

Lemma get_set_patch_ne roads_ p q b :
  p <> q -> get_patch (set_patch roads_ p b) q = get_patch roads_ q.
Proof.
  unfold get_patch, set_patch. destruct p as [r i], q as [r' i']. cbn [fst snd].
  intros Hne. rewrite list_lookup_alter. destruct (decide (r = r')) as [<-|]; [|reflexivity].
  destruct (roads_ !! r) as [strip|]; [|reflexivity]. cbn.
  apply list_lookup_insert_ne. congruence.
Qed.

Section RingWalk.
Variables (r s : nat) (strip : ROADSTRIP).
Let N := List.length (patches strip).
Let x := visit strip s.

Hypothesis ring : is_ring r strip = true.
Hypothesis start_in : (s < N)%nat.

Lemma ring_next i b :
  patches strip !! i = Some b ->
  BEZIER.next_patch b = Some (r, next_index strip i) /\ (next_index strip i < N)%nat.
Proof.
  intros Hb. pose proof ring as Hring. apply andb_true_iff in Hring as [Hall _].
  rewrite forallb_forall in Hall.
  assert (In b (patches strip)) as Hin
    by (apply list_elem_of_In; eapply list_elem_of_lookup_2, Hb).
  specialize (Hall b Hin). unfold next_index. rewrite Hb. cbn.
  destruct (BEZIER.next_patch b) as [[r' j]|]; [|discriminate].
  apply andb_true_iff in Hall as [Hr Hj].
  apply Nat.eqb_eq in Hr as ->. apply Nat.ltb_lt in Hj. auto.
Qed.

Lemma next_index_lt i : (i < N)%nat -> (next_index strip i < N)%nat.
Proof.
  intros Hi. destruct (lookup_lt_is_Some_2 (patches strip) i Hi) as [b Hb].
  apply (ring_next i b Hb).
Qed.

Lemma next_index_inj i j :
  (i < N)%nat -> (j < N)%nat -> next_index strip i = next_index strip j -> i = j.
Proof.
  intros Hi Hj Heq.
  destruct (lookup_lt_is_Some_2 (patches strip) i Hi) as [bi Hbi].
  destruct (lookup_lt_is_Some_2 (patches strip) j Hj) as [bj Hbj].
  destruct (ring_next i bi Hbi) as [Hni _]. destruct (ring_next j bj Hbj) as [Hnj _].
  pose proof ring as Hring.
  apply andb_true_iff in Hring as [_ Hnd]. apply bool_decide_eq_true in Hnd.
  apply (NoDup_lookup _ i j (Some (r, next_index strip i)) Hnd).
  - rewrite list_lookup_fmap, Hbi. cbn. congruence.
  - rewrite list_lookup_fmap, Hbj. cbn. congruence.
Qed.

Lemma visit_lt i : (x i < N)%nat.
Proof.
  induction i as [|i IH]; [exact start_in|].
  unfold x, visit. cbn [Nat.iter]. apply next_index_lt, IH.
Qed.

(** Patches met before the ring closes are met once: as long as the start
    is not met again, a new patch differs from all the earlier ones. *)
Lemma visit_fresh j :
  (forall a b, (a < b < j)%nat -> x a <> x b) ->
  x j <> s -> forall a, (a < j)%nat -> x a <> x j.
Proof.
  intros Hd Hs a Ha Heq. destruct a as [|a]; [apply Hs; symmetry; exact Heq|].
  destruct j as [|j]; [lia|].
  apply (Hd a j); [lia|].
  apply next_index_inj; [apply visit_lt..|]. exact Heq.
Qed.

(** Distinct patches of the strip are at most [N]. *)
Lemma distinct_bound j :
  (forall a b, (a < b < j)%nat -> x a <> x b) -> (j <= N)%nat.
Proof.
  intros Hd. destruct (le_lt_dec j N) as [|Hlt]; [assumption|].
  destruct (nat_pigeonhole x j N Hlt) as (a & b & Hab & Heq).
  - intros i _. apply visit_lt.
  - exfalso. exact (Hd a b Hab Heq).
Qed.

Lemma linked_set roads_ i b d :
  linked r strip roads_ -> get_patch roads_ (r, i) = Some b ->
  linked r strip (set_patch roads_ (r, i) (BEZIER.set_dist d b)).
Proof.
  intros Hl Hb k Hk. destruct (decide (k = i)) as [->|Hne].
  - destruct (Hl i Hk) as (b' & Hb' & Hn & Hlen).
    assert (b' = b) as -> by congruence.
    exists (BEZIER.set_dist d b). split; [eapply get_set_patch_eq, Hb|]. auto.
  - rewrite get_set_patch_ne by congruence. apply Hl, Hk.
Qed.

(** The walk from the [S j]-th patch on, with the patches met so far
    pairwise distinct: it ends where the ring closes, after at most the
    patches that are left, and has given every patch it met the
    accumulated distance. *)
Lemma walk_closes fuel : forall j roads_ count,
  linked r strip roads_ ->
  (forall a b, (a < b < S j)%nat -> x a <> x b) ->
  (forall a, (1 <= a < S j)%nat -> x a <> s) ->
  (N - S j <= fuel)%nat ->
  exists k roads',
    (j <= k)%nat /\ (S k <= N)%nat /\ x (S k) = s /\
    (forall a, (1 <= a < S k)%nat -> x a <> s) /\
    walk fuel (r, s) (Some (r, x (S j))) (dist_after strip s j) count roads_
      = Ret (roads', count + Z.of_nat (k - j)) /\
    linked r strip roads' /\
    (forall i, (j < i <= k)%nat ->
       BEZIER.dist_from_start <$> get_patch roads' (r, x i) = Some (dist_after strip s (i - 1))) /\
    (forall p, (forall i, (j < i <= k)%nat -> p <> (r, x i)) ->
       get_patch roads' p = get_patch roads_ p).
Proof.
  induction fuel as [|fuel IH]; intros j roads_ count Hl Hd Hs Hfuel.
  - (* no fuel: all the patches have been met, the ring closes here *)
    pose proof (distinct_bound (S j) Hd) as Hb.
    assert (x (S j) = s) as Hclose.
    { destruct (decide (x (S j) = s)) as [|Hne]; [assumption|].
      pose proof (distinct_bound (S (S j))) as Hb2.
      assert (S (S j) <= N)%nat; [|lia]. apply Hb2.
      intros a b Hab. destruct (decide (b = S j)) as [->|].
      - apply (visit_fresh (S j) Hd Hne). lia.
      - apply Hd. lia. }
    assert (walk 0 (r, s) (Some (r, x (S j))) (dist_after strip s j) count roads_
            = Ret (roads_, count + Z.of_nat (j - j))) as Hwalk.
    { cbn [walk]. rewrite Hclose.
      replace (ptr_eqb (r, s) (r, s)) with true
        by (symmetry; apply ptr_eqb_eq; reflexivity).
      rewrite Nat.sub_diag, Z.add_0_r. reflexivity. }
    exists j, roads_. repeat split; try lia; auto; intros; lia.
  - cbn [walk]. destruct (ptr_eqb (r, x (S j)) (r, s)) eqn:Heq.
    + apply ptr_eqb_eq in Heq. injection Heq as Hclose.
      pose proof (distinct_bound (S j) Hd) as Hb.
      exists j, roads_. rewrite Nat.sub_diag, Z.add_0_r.
      repeat split; try lia; auto; intros; lia.
    + assert (x (S j) <> s) as Hne.
      { intros Hc. rewrite Hc in Heq.
        assert (ptr_eqb (r, s) (r, s) = true) by (apply ptr_eqb_eq; reflexivity).
        congruence. }
      assert (forall a b, (a < b < S (S j))%nat -> x a <> x b) as Hd'.
      { intros a b Hab. destruct (decide (b = S j)) as [->|].
        - apply (visit_fresh (S j) Hd Hne). lia.
        - apply Hd. lia. }
      assert (forall a, (1 <= a < S (S j))%nat -> x a <> s) as Hs'.
      { intros a Ha. destruct (decide (a = S j)) as [->|]; [exact Hne|]. apply Hs. lia. }
      pose proof (distinct_bound (S (S j)) Hd') as Hb.
      destruct (Hl (x (S j)) (visit_lt (S j))) as (b & Hget & Hnext & Hlen).
      rewrite Hget, Hnext, Hlen.
      change (next_index strip (x (S j))) with (x (S (S j))).
      change (dist_after strip s j + length_at strip (x (S j)))%Q
        with (dist_after strip s (S j)).
      destruct (IH (S j) (set_patch roads_ (r, x (S j))
                            (BEZIER.set_dist (dist_after strip s j) b)) (count + 1))
        as (k & roads' & Hjk & HkN & Hclose & Hs'' & Hwalk & Hl' & Hdist & Hother);
        [apply linked_set; assumption|assumption|assumption|lia|].
      exists k, roads'. repeat split; try lia; auto.
      * rewrite Hwalk. do 2 f_equal. lia.
      * intros i Hi. destruct (decide (i = S j)) as [->|Hne'].
        -- rewrite Hother.
           ++ erewrite get_set_patch_eq by exact Hget. cbn.
              replace (j - 0)%nat with j by lia. reflexivity.
           ++ intros i Hi' [= Heq']. 
              destruct (le_lt_dec (S k) i) as [|Hik]; [lia|].
              assert (forall a b, (a < b < S k)%nat -> x a <> x b) as Hdk.
              { clear -Hs'' ring start_in. intros a b Hab.
                induction b as [|b IHb] in a, Hab |- *; [lia|].
                intros Heq. destruct a as [|a].
                - apply (Hs'' (S b)); [lia|]. symmetry. exact Heq.
                - apply (IHb a); [lia|].
                  apply next_index_inj; [apply visit_lt..|]. exact Heq. }
              apply (Hdk (S j) i); [lia|exact Heq'].
        -- apply Hdist. lia.
      * intros p Hp. rewrite Hother.
        -- apply get_set_patch_ne. intros <-. apply (Hp (S j)); [lia|reflexivity].
        -- intros i Hi. apply Hp. lia.
Qed.

End RingWalk.

Lemma length_at_nonneg strip i :
  nonnegative_lengths strip = true -> (0 <= length_at strip i)%Q.
Proof.
  intros Hn. unfold length_at.
  destruct (patches strip !! i) as [b|] eqn:Hb; cbn; [|apply Qle_refl].
  unfold nonnegative_lengths in Hn. rewrite forallb_forall in Hn.
  apply Qleb_le, Hn, list_elem_of_In. eapply list_elem_of_lookup_2, Hb.
Qed.

Lemma dist_after_step strip s i :
  nonnegative_lengths strip = true ->
  (dist_after strip s i <= dist_after strip s (S i))%Q.
Proof.
  intros Hn. cbn [dist_after].
  pose proof (length_at_nonneg strip (visit strip s (S i)) Hn). lra.
Qed.

(** The loop has no step bound of its own: on links that never come back
    to the lap-zero patch it uses up any fuel. *)
Lemma walk_on_lasso fuel : forall roads_ total count,
  lasso_links roads_ ->
  walk fuel (0, 0)%nat (Some (0, 1)%nat) total count roads_ = OutOfFuel /\
  walk fuel (0, 0)%nat (Some (0, 2)%nat) total count roads_ = OutOfFuel.
Proof.
  induction fuel as [|fuel IH]; intros roads_ total count (b1 & b2 & H1 & Hn1 & H2 & Hn2);
    [split; reflexivity|].
  cbn [walk]. change (ptr_eqb (0, 1)%nat (0, 0)%nat) with false.
  change (ptr_eqb (0, 2)%nat (0, 0)%nat) with false. cbv iota.
  rewrite H1, H2, Hn1, Hn2. split.
  - apply IH. exists (BEZIER.set_dist total b1), b2.
    rewrite (get_set_patch_eq _ _ b1) by exact H1.
    rewrite get_set_patch_ne by discriminate. auto.
  - apply IH. exists b1, (BEZIER.set_dist total b2).
    rewrite (get_set_patch_eq _ _ b2) by exact H2.
    rewrite get_set_patch_ne by discriminate. auto.
Qed.

Lemma distances_on_lasso_never_end fuel :
  distances_from_start fuel (0, 0)%nat [lasso_of_three] = OutOfFuel.
Proof.
  unfold distances_from_start. cbn [get_patch lasso_of_three fst snd lookup list_lookup
    mbind option_bind patches BEZIER.next_patch BEZIER.length].
  apply walk_on_lasso. eexists _, _. repeat split; reflexivity.
Qed.

(** C3.  On a strip whose [N] patches form a ring (every patch has its
    successor in the strip, no two patches share one) and have no negative
    length, the walk from the lap-zero patch ends within the fuel [N]: it
    makes [k] steps, with the start [k + 1 <= N] patches in all; it stops
    where the successor is the lap-zero patch again and not before; the
    lap-zero patch has distance 0 and the distances along the walk never
    decrease. *)
Theorem C3_walk_on_ring (roads_ : list ROADSTRIP) (r s : nat) (strip : ROADSTRIP) :
  roads_ !! r = Some strip ->
  (s < List.length (patches strip))%nat ->
  is_ring r strip = true ->
  nonnegative_lengths strip = true ->
  exists roads' k,
    distances_from_start (List.length (patches strip)) (r, s) roads_
      = Ret (roads', Z.of_nat k) /\
    (S k <= List.length (patches strip))%nat /\
    visit strip s (S k) = s /\
    (forall a, (1 <= a <= k)%nat -> visit strip s a <> s) /\
    dist_in roads' (r, s) = 0%Q /\
    forall i, (i < k)%nat ->
      (dist_in roads' (r, visit strip s i) <= dist_in roads' (r, visit strip s (S i)))%Q.
Proof.
  intros Hr Hs Hring Hnn.
  assert (linked r strip roads_) as Hl.
  { intros i Hi. destruct (lookup_lt_is_Some_2 (patches strip) i Hi) as [b Hb].
    exists b. unfold get_patch. cbn [fst snd]. rewrite Hr. cbn. split; [exact Hb|].
    split; [apply (ring_next r strip Hring i b Hb)|].
    unfold length_at. rewrite Hb. reflexivity. }
  destruct (Hl s Hs) as (b0 & Hget & Hnext & Hlen).
  unfold distances_from_start. rewrite Hget, Hnext, Hlen.
  destruct (walk_closes r s strip Hring Hs (List.length (patches strip)) 0
              (set_patch roads_ (r, s) (BEZIER.set_dist 0%Q b0)) 0)
    as (k & roads' & _ & HkN & Hclose & Hnot & Hwalk & _ & Hdist & Hother);
    [apply linked_set; assumption|intros a b ?; lia|intros a ?; lia|lia|].
  exists roads', k.
  assert (dist_in roads' (r, s) = 0%Q) as H0.
  { unfold dist_in. rewrite Hother.
    - erewrite get_set_patch_eq by exact Hget. reflexivity.
    - intros i Hi [= Heq]. apply (Hnot i); [lia|]. symmetry. exact Heq. }
  repeat split; auto.
  - change (visit strip s 1) with (next_index strip s) in Hwalk.
    change (dist_after strip s 0) with (length_at strip s) in Hwalk.
    rewrite Hwalk. do 2 f_equal. lia.
  - intros a Ha. apply Hnot. lia.
  - intros i Hi. destruct i as [|i].
    + change (visit strip s 0) with s. rewrite H0.
      unfold dist_in. destruct (get_patch roads' (r, visit strip s 1)) eqn:Hg.
      * pose proof (Hdist 1%nat ltac:(lia)) as Hd. rewrite Hg in Hd. cbn in *.
        injection Hd as ->. apply length_at_nonneg, Hnn.
      * cbn. apply Qle_refl.
    + unfold dist_in.
      pose proof (Hdist (S i) ltac:(lia)) as Hd1.
      pose proof (Hdist (S (S i)) ltac:(lia)) as Hd2.
      destruct (get_patch roads' (r, visit strip s (S i))); [|discriminate].
      destruct (get_patch roads' (r, visit strip s (S (S i)))); [|discriminate].
      cbn in *. injection Hd1 as ->. injection Hd2 as ->.
      replace (i - 0)%nat with i by lia. apply dist_after_step, Hnn.
Qed.

(** C3 at work: the ring of three patches, walked from its first patch. *)
Lemma C3_witness :
  exists roads' k,
    distances_from_start 3 (0, 0)%nat [ring_of_three] = Ret (roads', Z.of_nat k) /\
    (S k <= 3)%nat /\
    visit ring_of_three 0 (S k) = 0%nat /\
    (forall a, (1 <= a <= k)%nat -> visit ring_of_three 0 a <> 0%nat) /\
    dist_in roads' (0, 0)%nat = 0%Q /\
    forall i, (i < k)%nat ->
      (dist_in roads' (0, visit ring_of_three 0 i)%nat
       <= dist_in roads' (0, visit ring_of_three 0 (S i))%nat)%Q.
Proof.
  apply (C3_walk_on_ring [ring_of_three] 0 0 ring_of_three);
    [reflexivity|simpl; lia|reflexivity|reflexivity].
Defined.

(* ================================================================== *)
(** ** Surface indices, mesh metrics and combined meshes at work *)

Lemma wrap_int_small z : INT_MIN <= z <= INT_MAX -> wrap_int z = z.
Proof.
  unfold wrap_int, INT_MIN, INT_MAX. intros Hz.
  change (2 ^ 31) with 2147483648. change (2 ^ 32) with 4294967296.
  rewrite Z.mod_small; lia.
Qed.

Lemma vector_at_in_bounds {A} (v : list A) (i : Z) :
  0 <= i < Z.of_nat (List.length v) -> is_Some (vector_at v i).
Proof.
  intros Hi. unfold vector_at, to_size_t.
  assert (Z.of_nat (List.length v) <= 2 ^ 64 \/ 2 ^ 64 < Z.of_nat (List.length v)) as [Hs|Hs] by lia.
  - rewrite Z.mod_small by lia.
    destruct (i <? Z.of_nat (List.length v)) eqn:Hlt; [|lia].
    apply lookup_lt_is_Some. lia.
  - pose proof (Z.mod_pos_bound i (2 ^ 64) ltac:(lia)) as Hm.
    destruct (i `mod` 2 ^ 64 <? Z.of_nat (List.length v)) eqn:Hlt; [|lia].
    apply lookup_lt_is_Some. lia.
Qed.

(** The legacy path: when [AddObject] returns for a collideable object, its
    surface index is within the table. *)
Lemma AddObject_surface_in_bounds object e r :
  AddObject object e = Ret r -> collideable object = true ->
  is_Some (vector_at (surfaces (data e)) (surface object)).
Proof.
  unfold AddObject, GetIndexedMesh. intros Hr Hc. rewrite Hc in Hr. revert Hr.
  repeat case_step; try discriminate. intros _.
  match goal with H : vector_at _ _ = Some _ |- _ => revert H end.
  cbn. intros ->. eauto.
Qed.

(** The modern path keeps an authored index that is in range, as long as
    the table is not empty. *)
Lemma LoadShape_surface_kept `{Externals} cfg m body d i r :
  (mass body < static_threshold)%Q ->
  ints cfg !! "surface" = Some i ->
  0 <= i < Z.of_nat (List.length (surfaces d)) ->
  Z.of_nat (List.length (surfaces d)) <= INT_MAX ->
  LoadShape cfg m body d = Ret r ->
  exists mesh, shape (fst r) = Some (btBvhTriangleMeshShape mesh (Some i)).
Proof.
  intros Hm Hi Hr Hmax. unfold LoadShape, GetIndexedMesh, get_value.
  apply Qltb_lt in Hm. rewrite Hm, Hi. cbn [snd]. expose.
  destruct (_ =? 0); [|discriminate]. cbv beta iota.
  change (surfaces (set_meshes _ d)) with (surfaces d).
  rewrite wrap_int_small by (unfold INT_MIN; lia).
  destruct (i >=? Z.of_nat (List.length (surfaces d))) eqn:Hge; [lia|].
  destruct (vector_at (surfaces d) i); [|discriminate].
  intros [= <-]. cbn. eauto.
Qed.

(** C4, on the code.  The modern path replaces an authored surface index
    only when it is too large: the index -1 is kept and the surface table
    of three entries is accessed outside its bounds; so is an empty table
    at the index 0 the clamp yields.  The legacy path stops at its
    assertion on the same index. *)
Theorem C4_modern_surface_index_out_of_bounds :
  LoadShape cfg_surface_minus_one triangle static_body data_three_surfaces
    = Undefined "data.surfaces[surface]" /\
  LoadShape cfg_no_surface triangle static_body DATA_new
    = Undefined "data.surfaces[surface]" /\
  AddObject object_surface_minus_one env_wall
    = AssertionFailed "object.surface >= 0 && object.surface < (int)data.surfaces.size()".
Proof. repeat split; vm_compute; reflexivity. Qed.

(** C5, on the code.  For a mesh in the negative octant
    [GenerateMeshMetrics] leaves [max] at the smallest positive [float] in
    every component, where the largest vertex coordinate is -1; the box
    that [LoadShape] falls back to has half extents and center computed
    from that [max]. *)
Theorem C5_max_is_not_the_componentwise_maximum :
  exists m,
    MODEL.GenerateMeshMetrics sunken = Ret m /\
    MODEL.max m = (MODEL.flt_min, MODEL.flt_min, MODEL.flt_min) /\
    MODEL.min m = ((-5)%Q, (-3)%Q, (-4)%Q) /\
    Qmaximum (component 0 sunken_vertices) = Some (-1)%Q /\
    Qmaximum (component 1 sunken_vertices) = Some (-1)%Q /\
    Qmaximum (component 2 sunken_vertices) = Some (-1)%Q /\
    Qminimum (component 0 sunken_vertices) = Some (-5)%Q /\
    exists body d,
      LoadShape cfg_crate m movable_body DATA_new = Ret (body, d) /\
      shape body = Some (btBoxShape (vec3_scale (MODEL.GetSize m) (1 # 2))) /\
      center body = vec3_add vec3_zero (MODEL.GetCenter m) /\
      ~ vec3_eq (MODEL.GetSize m) (4, 2, 3)%Q.
Proof.
  eexists. split; [vm_compute; reflexivity|]. repeat split; try reflexivity.
  eexists _, _. split; [vm_compute; reflexivity|]. repeat split.
  vm_compute. intros [H _]. discriminate.
Qed.

(** C6, on the code.  Three objects with the same model and texture are
    combined; the model has 3 vertices, the combined mesh the track ends up
    with has 12, not 9: the merge adds the shared model to itself, and
    doubles it each time. *)
Theorem C6_combined_mesh_of_a_repeated_model :
  MODEL.vertex_count triangle = 3 /\
  CalculateNumOld fs_three_trees = Ret 3 /\
  exists l,
    load_all 4 config_combining (begun fs_three_trees loader_three_trees) = Ret l /\
    loaded (data (env l)) = true /\
    option_map MODEL.vertex_count <$> track_models l = [Some 12].
Proof.
  split; [reflexivity|]. split; [vm_compute; reflexivity|].
  eexists. split; [vm_compute; reflexivity|]. split; vm_compute; reflexivity.
Qed.

(** C10.  On a reversed track an authored patch index [p] with
    [1 <= p < num_patches] is remapped to [num_patches - p], which lies in
    [1, num_patches - 1] and within the patches of the road: the lap
    sequence entry is resolved to that patch.  The index 0 is remapped to
    [num_patches], outside the patches: the entry is not resolved. *)
Theorem C10_reversed_patch_index (info_ : PTree) (l : Z) (d : DATA) (road : ROADSTRIP)
    (roadid p : Z) :
  reverse d = true ->
  vectors info_ !! ("lap sequence " +:+ pretty l) = Some [inject_Z roadid; inject_Z p] ->
  0 <= roadid ->
  roads d !! Z.to_nat roadid = Some road ->
  Z.of_nat (List.length (patches road)) <= INT_MAX ->
  let num_patches := Z.of_nat (List.length (patches road)) in
  (1 <= p < num_patches ->
     lap_patch_index true num_patches p = Ret (num_patches - p) /\
     1 <= num_patches - p <= num_patches - 1 /\
     is_Some (patches road !! Z.to_nat (num_patches - p)) /\
     lap_section info_ l d =
       Ret (set_lap (lap d ++ [(Z.to_nat roadid, Z.to_nat (num_patches - p))]) d)) /\
  (p = 0 -> 0 < num_patches ->
     lap_patch_index true num_patches p = Ret num_patches /\
     patches road !! Z.to_nat num_patches = None /\
     lap_section info_ l d = Undefined "GetPatches()[patchid]").
Proof.
  intros Hrev Hinfo Hroad Hlook Hmax n.
  assert (float_to_int (inject_Z roadid) = roadid /\ float_to_int (inject_Z p) = p) as [Hf1 Hf2].
  { unfold float_to_int. cbn. rewrite !Z.quot_1_r. auto. }
  assert (wrap_int n = n) as Hwn by (apply wrap_int_small; unfold INT_MIN; lia).
  assert (forall q, lap_section info_ l d =
            (if roadid <? 0 then Ret d
             else patchid ← lap_patch_index true n q;
                  match vector_at (patches road) patchid with
                  | None => Undefined "GetPatches()[patchid]"
                  | Some _ =>
                      Ret (set_lap (push_back (Z.to_nat roadid, Z.to_nat (to_size_t patchid))
                                      (lap d)) d)
                  end) \/ q <> p) as Hsec.
  { intros q. destruct (decide (q = p)) as [->|]; [left|right; assumption].
    unfold lap_section, get_vector. rewrite Hinfo. cbn [snd overwrite List.length take drop app nth].
    rewrite Hf1, Hf2, Hlook, Hrev. fold n. rewrite Hwn. reflexivity. }
  destruct (Hsec p) as [Hs|]; [|congruence]. rewrite Hs. clear Hsec Hs.
  destruct (roadid <? 0) eqn:Hneg; [lia|].
  unfold lap_patch_index, vector_at, to_size_t. expose. split.
  - intros Hp. destruct (p <? n) eqn:Hlt; [|lia].
    rewrite wrap_int_small by (unfold INT_MIN, INT_MAX in *; lia).
    assert (n - p < 2 ^ 64) by (unfold INT_MAX in *; lia).
    rewrite Z.mod_small by lia.
    destruct (n - p <? Z.of_nat (List.length (patches road))) eqn:Hin; [|lia].
    assert (is_Some (patches road !! Z.to_nat (n - p))) as [b Hb]
      by (apply lookup_lt_is_Some; lia).
    rewrite Hb. repeat split; eauto; lia.
  - intros -> Hn. destruct (0 <? n) eqn:Hlt; [|lia].
    rewrite Z.sub_0_r, Hwn.
    assert (n < 2 ^ 64) by (unfold INT_MAX in *; lia).
    rewrite Z.mod_small by lia.
    destruct (n <? Z.of_nat (List.length (patches road))) eqn:Hin; [lia|].
    repeat split. apply lookup_ge_None. lia.
Qed.

(** C10 at work: the lap sequence entry of the reversed three-patch road. *)
Lemma C10_witness :
  (1 <= 1 < 3 ->
     lap_patch_index true 3 1 = Ret (3 - 1) /\
     1 <= 3 - 1 <= 3 - 1 /\
     is_Some (patches ring_of_three !! Z.to_nat (3 - 1)) /\
     lap_section info_lap_sequence 0 data_reversed =
       Ret (set_lap (lap data_reversed ++ [(Z.to_nat 0, Z.to_nat (3 - 1))]) data_reversed)) /\
  (1 = 0 -> 0 < 3 ->
     lap_patch_index true 3 1 = Ret 3 /\
     patches ring_of_three !! Z.to_nat 3 = None /\
     lap_section info_lap_sequence 0 data_reversed = Undefined "GetPatches()[patchid]").
Proof.
  apply (C10_reversed_patch_index info_lap_sequence 0 data_reversed ring_of_three 0 1);
    [reflexivity|reflexivity|lia|reflexivity|vm_compute; discriminate].
Defined.

(* ================================================================== *)
(** ** Start positions *)

Section StartPositions.
Context {E : Externals}.

Lemma start_position_key_inj (a b : nat) :
  "start position " +:+ pretty a = "start position " +:+ pretty b -> a = b.
Proof. intros Heq. apply String.app_inj in Heq. apply (inj pretty) in Heq. exact Heq. Qed.

Lemma scanned_refl e : scanned e e.
Proof.
  repeat split. - exists []. symmetry. apply app_nil_r.
  - exists []. rewrite app_nil_r. destruct (data e). reflexivity.
Qed.

(** The scan ends: every key it finds is one of the finitely many keys of
    the tree, and it finds no key twice. *)
Lemma scan_start_positions_returns fuel : forall info_ n f3 e (m : gmap string (list Q)),
  (forall k, (n <= k)%nat ->
     m !! ("start position " +:+ pretty k) = vectors info_ !! ("start position " +:+ pretty k)) ->
  (size m < fuel)%nat ->
  exists e', scan_start_positions fuel info_ n f3 e = Ret e' /\ scanned e e'.
Proof.
  induction fuel as [|fuel IH]; intros info_ n f3 e m Hm Hsize; [lia|].
  cbn [scan_start_positions]. unfold get_vector at 1.
  destruct (vectors info_ !! ("start position " +:+ pretty n)) as [v|] eqn:Hv.
  - destruct (get_vector info_ ("start orientation " +:+ pretty n) _) as [found angle].
    match goal with |- context [scan_start_positions fuel info_ (S n) ?f ?e1] =>
      destruct (IH info_ (S n) f e1 (delete ("start position " +:+ pretty n) m))
        as (e' & Hscan & Hkept)
    end.
    + intros k Hk. rewrite lookup_delete_ne; [apply Hm; lia|].
      intros Heq. apply start_position_key_inj in Heq. lia.
    + assert (m !! ("start position " +:+ pretty n) = Some v) as Hmv
        by (rewrite Hm by lia; exact Hv).
      rewrite <- (insert_delete_id m _ _ Hmv) in Hsize.
      rewrite map_size_insert_None in Hsize by apply lookup_delete_eq. lia.
    + exists e'. split; [exact Hscan|].
      destruct Hkept as (Hc & Hw & Hi & [msgs Hmsgs] & [sp Hsp]).
      destruct found; cbn in *.
      * repeat split; auto; [exists msgs; assumption|].
        eexists. rewrite Hsp. unfold push_back. rewrite <- app_assoc. reflexivity.
      * repeat split; auto.
        -- eexists. rewrite Hmsgs, <- app_assoc. reflexivity.
        -- eexists. rewrite Hsp. unfold push_back. rewrite <- app_assoc. reflexivity.
  - exists e. split; [reflexivity|apply scanned_refl].
Qed.

(** The scan does not look at the reverse flag. *)
Lemma scan_start_positions_reverse fuel b : forall info_ n f3 e,
  scan_start_positions fuel info_ n f3 (upd_data (set_reverse b) e)
  = e' ← scan_start_positions fuel info_ n f3 e; Ret (upd_data (set_reverse b) e').
Proof.
  induction fuel as [|fuel IH]; intros info_ n f3 e; [reflexivity|].
  cbn [scan_start_positions].
  destruct (get_vector info_ ("start position " +:+ pretty n) f3) as [[|] f3']; [|reflexivity].
  destruct (get_vector info_ ("start orientation " +:+ pretty n) _) as [found angle].
  rewrite <- IH. f_equal. destruct found; reflexivity.
Qed.

End StartPositions.

(** C9.  For every track file and every environment, loading the start
    positions with reversal requested gives the list that loading without
    reversal gives, in reverse order, each orientation turned by
    [Rotate(M_PI, 0, 0, 1)]: half a turn about the vertical axis. *)
Theorem C9_reversed_start_positions `{Externals} (info_ : PTree) (e : Env) :
  exists e_fwd e_rev,
    LoadStartPositions info_ (upd_data (set_reverse false) e) = Ret (true, e_fwd) /\
    LoadStartPositions info_ (upd_data (set_reverse true) e) = Ret (true, e_rev) /\
    start_positions (data e_rev)
      = rev ((fun i => (fst i, Rotate M_PI 0 0 1 (snd i))) <$> start_positions (data e_fwd)).
Proof.
  destruct (scan_start_positions_returns (S (size (vectors info_))) info_ 0
              [0%Q; 0%Q; 0%Q] e (vectors info_)) as (e1 & Hscan & _); [reflexivity|lia|].
  unfold LoadStartPositions. rewrite !scan_start_positions_reverse, Hscan.
  cbn [mbind outcome_bind]. eexists _, _. split; [reflexivity|]. split; [reflexivity|].
  cbn. reflexivity.
Qed.

(* ================================================================== *)
(** ** Bodies and their collision shapes *)

Section BodyFacts.
Context {E : Externals}.

Lemma LoadModel_frame pl pk name e ok e' :
  LoadModel pl pk name e = (ok, e') ->
  world e' = world e /\ shapes (data e') = shapes (data e) /\
  objects (data e') = objects (data e) /\ surfaces (data e') = surfaces (data e).
Proof.
  unfold LoadModel. repeat case_step; intros [= <- <-]; cbn; auto.
Qed.

(** [LoadShape] builds exactly one shape and gives it to the body. *)
Lemma LoadShape_builds cfg m body d body' d' :
  LoadShape cfg m body d = Ret (body', d') ->
  objects d' = objects d /\ collidable body' = collidable body /\
  mass body' = mass body /\
  exists sh, shapes d' = shapes d ++ [sh] /\ shape body' = Some sh.
Proof.
  unfold LoadShape, GetIndexedMesh. repeat case_step; try discriminate;
    intros [= <- <-]; cbn; eauto 10.
Qed.

(** What [LoadBody] does to the shapes, the bodies and the physics
    objects. *)
Lemma LoadBody_spec cf pl pk cfg bodies_ e r bodies' e' :
  LoadBody cf pl pk cfg bodies_ e = Ret (r, bodies', e') ->
  objects (data e') = objects (data e) /\ world e' = world e /\
  match r with
  | None => bodies' = bodies_ /\ shapes (data e') = shapes (data e)
  | Some (name, body) =>
      name = body_name cfg /\
      match floats cfg !! "mass" with
      | Some mass_ =>
          exists sh, shapes (data e') = shapes (data e) ++ [sh] /\
            (bodies_ !! name = None ->
               shape body = Some sh /\ collidable body = true /\ mass body = mass_)
      | None =>
          shapes (data e') = shapes (data e) /\
          (bodies_ !! name = None ->
             shape body = None /\ collidable body = false /\ mass body = 0%Q)
      end
  end.
Proof.
  unfold LoadBody.
  destruct (get_value (strings cfg) "texture" "") as [has_texture ?].
  destruct (get_value (strings cfg) "model" "") as [has_model model_name].
  set (e0 := if has_model then _ else _).
  assert (objects (data e0) = objects (data e) /\ world e0 = world e /\
          shapes (data e0) = shapes (data e)) as (Ho0 & Hw0 & Hs0).
  { subst e0. destruct has_model, has_texture; cbn; auto. }
  clearbody e0.
  destruct (dynamic_shadows cf && _).
  { intros [= <- <- <-]. auto. }
  destruct (LoadModel pl pk _ e0) as [[|] e1] eqn:Hmodel;
    apply LoadModel_frame in Hmodel as (Hw1 & Hs1 & Ho1 & _).
  2:{ intros [= <- <- <-]. cbn. repeat split; congruence. }
  destruct (mjoin (last (models (data e1))) ≫= _) as [model_|]; [|discriminate].
  unfold get_value. destruct (floats cfg !! "mass") as [mass_|].
  - expose.
    destruct (LoadShape cfg model_ _ (data e1)) as [[body1 d1]| | |] eqn:Hshape;
      try discriminate.
    apply LoadShape_builds in Hshape as (Hobj & Hcol & Hmass & sh & Hsh & Hshape).
    destruct (bodies_ !! body_name cfg) eqn:Hold; intros [= <- <- <-]; cbn;
      (split; [congruence|]); (split; [congruence|]); (split; [reflexivity|]);
      exists sh; (split; [congruence|]); intros Hnew; [congruence|].
    cbn in *. auto.
  - expose.
    destruct (bodies_ !! body_name cfg) eqn:Hold; intros [= <- <- <-]; cbn;
      (split; [congruence|]); (split; [congruence|]); (split; [reflexivity|]);
      (split; [congruence|]); intros Hnew; [congruence|]. auto.
Qed.

End BodyFacts.

(** C8, as the code has it.  For a modern object section whose body is
    built and newly registered (the model is resolved, the body is not
    dropped as a shadow caster, its name is not taken), a collision shape
    is built if and only if the section has a [mass] key, whatever its
    value, and that is what sets the collidable flag.  Without the key the
    body is not collidable, and [LoadNode] builds no shape for it and
    gives the physics world no object. *)
Theorem C8_shape_built_iff_mass_key `{Externals} (cf : Config) (pl : bool)
    (pk : option JPK) (sec cfg : PTree) (bodies_ : gmap string BODY) (e : Env) :
  get_section sec "body" = Some cfg ->
  bodies_ !! body_name cfg = None ->
  (forall name body bodies' e',
     LoadBody cf pl pk cfg bodies_ e = Ret (Some (name, body), bodies', e') ->
     collidable body = bool_decide (is_Some (floats cfg !! "mass")) /\
     if collidable body
     then exists sh, shapes (data e') = shapes (data e) ++ [sh] /\ shape body = Some sh
     else shapes (data e') = shapes (data e) /\ shape body = None) /\
  (floats cfg !! "mass" = None ->
   forall ok bodies' e',
     LoadNode cf pl pk sec bodies_ e = Ret (ok, bodies', e') ->
     shapes (data e') = shapes (data e) /\
     objects (data e') = objects (data e) /\ world e' = world e).
Proof.
  intros Hsec Hnew. split.
  - intros name body bodies' e' Hload.
    apply LoadBody_spec in Hload as (_ & _ & -> & Hmass).
    destruct (floats cfg !! "mass") as [mass_|].
    + destruct Hmass as (sh & Hsh & Hbody). destruct (Hbody Hnew) as (Hs & -> & _).
      split; [reflexivity|]. eauto.
    + destruct Hmass as (Hsh & Hbody). destruct (Hbody Hnew) as (Hs & -> & _). auto.
  - intros Hnone ok bodies' e'. unfold LoadNode. rewrite Hsec. expose.
    destruct (LoadBody cf pl pk cfg bodies_ e) as [[[ib b1] e1]| | |] eqn:Hload;
      try discriminate.
    apply LoadBody_spec in Hload as (Ho & Hw & Hr).
    destruct ib as [[name body]|].
    + destruct Hr as (-> & Hr). rewrite Hnone in Hr. destruct Hr as (Hs & Hbody).
      destruct (Hbody Hnew) as (_ & Hcol & Hmass).
      destruct (get_vec3 sec "position" vec3_zero) as [has_position position].
      destruct (get_vec3 sec "rotation" vec3_zero) as [has_rotation [[a0 a1] a2]].
      rewrite Hmass, Hcol.
      change (Qltb 0 static_threshold) with true. cbv iota.
      intros [= <- <- <-]. cbn. auto.
    + destruct Hr as (_ & Hs). intros [= <- <- <-]. auto.
Qed.

(** C8 at work: the lamp has no [mass] key, so no shape and no physics
    object. *)
Lemma C8_witness :
  (forall name body bodies' e',
     LoadBody config_new false None cfg_lamp ∅ env_lamp = Ret (Some (name, body), bodies', e') ->
     collidable body = bool_decide (is_Some (floats cfg_lamp !! "mass")) /\
     if collidable body
     then exists sh, shapes (data e') = shapes (data env_lamp) ++ [sh] /\ shape body = Some sh
     else shapes (data e') = shapes (data env_lamp) /\ shape body = None) /\
  (floats cfg_lamp !! "mass" = None ->
   forall ok bodies' e',
     LoadNode config_new false None sec_lamp ∅ env_lamp = Ret (ok, bodies', e') ->
     shapes (data e') = shapes (data env_lamp) /\
     objects (data e') = objects (data env_lamp) /\ world e' = world env_lamp).
Proof.
  apply (C8_shape_built_iff_mass_key config_new false None sec_lamp cfg_lamp ∅ env_lamp);
    reflexivity.
Defined.

(** C8, the claim as stated fails: the section has a [mass] key, the body
    is dropped as a shadow caster and no collision shape is built. *)
Lemma C8_counterexample :
  floats cfg_shadow !! "mass" = Some 10%Q /\
  exists e',
    LoadBody config_shadows false None cfg_shadow ∅ env_lamp = Ret (None, ∅, e') /\
    shapes (data e') = [].
Proof. split; [reflexivity|]. eexists. split; vm_compute; reflexivity. Qed.

(* ================================================================== *)
(** ** The steps of [BeginLoad] *)

Lemma fold_left_invariant {A B} (P : A -> Prop) (f : A -> B -> A) (l : list B) (a : A) :
  P a -> (forall a b, P a -> P (f a b)) -> P (fold_left f l a).
Proof. revert a. induction l as [|b l IH]; intros a Ha Hf; cbn; auto. Qed.

Lemma keeps_roads_refl e : keeps_roads e e.
Proof. repeat split; auto. Qed.

Lemma keeps_roads_trans e1 e2 e3 : keeps_roads e1 e2 -> keeps_roads e2 e3 -> keeps_roads e1 e3.
Proof.
  intros (Hc & Hr & Hl & Hm) (Hc' & Hr' & Hl' & Hm'). repeat split; try congruence. auto.
Qed.

Lemma keeps_roads_log_error msg e : keeps_roads e (log_error msg e).
Proof. repeat split; auto. intros m Hm. cbn. apply elem_of_app. auto. Qed.

Lemma read_surface_keeps cfg e : keeps_roads e (snd (read_surface cfg e)).
Proof.
  unfold read_surface.
  repeat match goal with
  | |- context [get_value ?m ?k ?o] => destruct (get_value m k o) as [[|] ?]; cbn [fst snd]
  | |- context [Qleb ?a ?b] => destruct (Qleb a b)
  end; cbn [snd];
  repeat first [apply keeps_roads_refl
               | eapply keeps_roads_trans; [|apply keeps_roads_log_error]].
Qed.

Lemma LoadSurfaces_keeps fs e : keeps_roads e (snd (LoadSurfaces fs e)).
Proof.
  unfold LoadSurfaces. destruct (surfaces_txt fs) as [param|]; cbn [snd].
  - match goal with |- keeps_roads e (log_info ?m ?x) =>
      apply (keeps_roads_trans e x); [|repeat split; auto]
    end.
    apply fold_left_invariant; [apply keeps_roads_refl|].
    intros a [name cfg] Ha. cbn [fst snd]. destruct (String.prefix "surface" name); [|exact Ha].
    pose proof (read_surface_keeps cfg a) as Hs.
    destruct (read_surface cfg a) as [surface_ e1]. cbn [snd] in Hs.
    eapply keeps_roads_trans; [exact Ha|]. eapply keeps_roads_trans; [exact Hs|].
    repeat split; auto.
  - repeat split; auto.
Qed.

Lemma lap_sections_without_roads info_ n : forall l d,
  roads d = [] -> lap_sections info_ n l d = Ret d.
Proof.
  induction n as [|n IH]; intros l d Hr; [reflexivity|].
  cbn [lap_sections]. unfold lap_section. rewrite Hr.
  destruct (_ <? 0); cbn; apply IH, Hr.
Qed.

Section BeginLoadFacts.
Context {E : Externals}.

Lemma LoadStartPositions_keeps info_ e :
  exists e', LoadStartPositions info_ e = Ret (true, e') /\ keeps_roads e e'.
Proof.
  destruct (scan_start_positions_returns (S (size (vectors info_))) info_ 0
              [0%Q; 0%Q; 0%Q] e (vectors info_)) as (e1 & Hscan & Hs); [reflexivity|lia|].
  unfold LoadStartPositions. rewrite Hscan. cbn [mbind outcome_bind].
  eexists. split; [reflexivity|].
  destruct Hs as (Hc & _ & _ & [msgs Hmsgs] & [sp Hsp]).
  assert (keeps_roads e e1) as Hk.
  { repeat split; [exact Hc|rewrite Hsp; reflexivity..|].
    intros msg Hm. rewrite Hmsgs. apply elem_of_app. auto. }
  destruct (reverse (data e1)); [|exact Hk].
  eapply keeps_roads_trans; [exact Hk|]. repeat split; auto.
Qed.

(** Without roads and without lap sectors from before, [LoadLapSections]
    finds no lap sequence and returns. *)
Lemma LoadLapSections_without_roads fuel info_ e :
  roads (data e) = [] -> lap (data e) = [] ->
  LoadLapSections fuel info_ e
  = Ret (true, log_info "No lap sequence found. Lap timing will not be possible." e).
Proof.
  intros Hr Hl. unfold LoadLapSections.
  destruct (get_value (ints info_) "lap sequences" 0) as [[|] lapmarkers].
  - rewrite lap_sections_without_roads by exact Hr. cbn [mbind outcome_bind]. rewrite Hl.
    destruct e as [? ? d ? ?]; reflexivity.
  - cbn [mbind outcome_bind]. rewrite Hl. destruct e as [? ? d ? ?]; reflexivity.
Qed.

(** [BeginObjectLoad] returns, with success exactly when the object load
    can begin; the track data are as before. *)
Lemma BeginObjectLoad_result fs l :
  exists l1,
    BeginObjectLoad fs l
    = Ret (can_begin fs (content (env l)) (expected_params l), l1) /\
    data (env l1) = data (env l) /\
    forall msg, msg ∈ error_output (env l) -> msg ∈ error_output (env l1).
Proof.
  unfold BeginObjectLoad, can_begin, Begin.
  cbn [env content with_list_ with_packload with_pack].
  destruct (content_load_config "objects.txt" (content (env l))) as [cfg|]; cbn [mbind option_bind].
  - destruct (get_section cfg "object") as [sec|].
    + eexists. split; [reflexivity|]. cbn. auto.
    + match goal with |- context [BeginOld fs ?l0] =>
        destruct (BeginOld_result fs l0) as (n & _ & Hb); rewrite Hb; clear Hb
      end.
      cbn [objectfile with_objectfile with_nodes].
      destruct (good (open (list_txt fs))); cbn [negb andb];
        [|eexists; split; [reflexivity|]; cbn; auto].
      destruct (get (open (list_txt fs))) as [[tok|] f1]; cbv zeta;
        [|eexists; split; [reflexivity|]; cbn; auto].
      simpl (expected_params _). destruct (to_int tok =? expected_params l);
        eexists; (split; [reflexivity|]); cbn; (split; [reflexivity|]); auto.
      intros msg Hm. apply elem_of_app. auto.
  - match goal with |- context [BeginOld fs ?l0] =>
      destruct (BeginOld_result fs l0) as (n & _ & Hb); rewrite Hb; clear Hb
    end.
    cbn [objectfile with_objectfile with_nodes].
    destruct (good (open (list_txt fs))); cbn [negb andb];
      [|eexists; split; [reflexivity|]; cbn; auto].
    destruct (get (open (list_txt fs))) as [[tok|] f1]; cbv zeta;
      [|eexists; split; [reflexivity|]; cbn; auto].
    simpl (expected_params _). destruct (to_int tok =? expected_params l);
      eexists; (split; [reflexivity|]); cbn; (split; [reflexivity|]); auto.
    intros msg Hm. apply elem_of_app. auto.
Qed.

End BeginLoadFacts.

(** C1, as the code has it.  When the roads file cannot be opened, the
    failure is reported on the error stream, the road list is left empty and
    [BeginLoad] goes on, as it does after a missing surfaces file: on fresh
    track data it returns, with success exactly when the track file is there
    and the object load can begin. *)
Theorem C1_missing_roads_file_is_recoverable `{Externals} (fuel : nat)
    (fs : FileSystem) (l : LOADER) :
  roads_trk fs = None ->
  lap (data (env l)) = [] ->
  exists l',
    BeginLoad fuel fs l
    = Ret (bool_decide (is_Some (track_txt fs))
           && can_begin fs (content (env l)) (expected_params l), l') /\
    "Error opening roads file" ∈ error_output (env l') /\
    "Error during road loading; continuing with an unsmoothed track"
      ∈ error_output (env l') /\
    roads (data (env l')) = [].
Proof.
  intros Hroads Hlap. unfold BeginLoad.
  set (e0 := log_info "Loading track from path" (env (Clear l))).
  assert (keeps_roads (env l) e0) as H0 by (repeat split; auto).
  pose proof (LoadSurfaces_keeps fs e0) as H1.
  destruct (LoadSurfaces fs e0) as [ok1 e1]. cbn [snd] in H1.
  set (e2 := match ok1 with false => _ | true => _ end).
  assert (keeps_roads e1 e2) as H2 by (subst e2; destruct ok1; repeat split; auto).
  unfold LoadRoads. rewrite Hroads.
  set (e3 := upd_data (set_roads []) (log_error _ (log_error _ (upd_data (set_roads []) e2)))).
  assert (content e3 = content (env l) /\ roads (data e3) = [] /\ lap (data e3) = [] /\
          "Error opening roads file" ∈ error_output e3 /\
          "Error during road loading; continuing with an unsmoothed track"
            ∈ error_output e3) as (Hc3 & Hr3 & Hl3 & Hm1 & Hm2).
  { destruct H0 as (Hc0 & _ & Hl0 & _), H1 as (Hc1 & _ & Hl1 & _), H2 as (Hc2 & _ & Hl2 & _).
    subst e3. cbn. repeat split; try congruence.
    - rewrite !elem_of_app, !list_elem_of_singleton. auto.
    - rewrite !elem_of_app, !list_elem_of_singleton. auto. }
  clearbody e3. clear H0 H1 H2 e2 e1 e0.
  cbn [CreateRacingLines].
  destruct (track_txt fs) as [info_|].
  - set (e4 := upd_data _ e3).
    assert (keeps_roads e3 e4) as H4 by (repeat split; auto). clearbody e4.
    destruct (LoadStartPositions_keeps info_ e4) as (e5 & Hsp & H5). rewrite Hsp.
    cbn [mbind outcome_bind negb].
    pose proof (keeps_roads_trans _ _ _ H4 H5) as (Hc5 & Hr5 & Hl5 & Hm5).
    rewrite LoadLapSections_without_roads by congruence.
    cbn [mbind outcome_bind negb].
    match goal with |- context [BeginObjectLoad fs ?l0] =>
      destruct (BeginObjectLoad_result fs l0) as (l1 & Hb & Hd & Hm); rewrite Hb
    end.
    cbn [mbind outcome_bind env with_env content log_info set_info_output] in *.
    exists l1. split.
    + change (expected_params (with_env _ (Clear l))) with (expected_params l).
      rewrite Hc5, Hc3.
      replace (bool_decide (is_Some (Some info_))) with true
        by (symmetry; apply bool_decide_eq_true; eauto).
      destruct (can_begin fs (content (env l)) (expected_params l)); reflexivity.
    + rewrite Hd. cbn. repeat split; [apply Hm, Hm5, Hm1|apply Hm, Hm5, Hm2|congruence].
  - eexists. split; [reflexivity|]. cbn.
    repeat split; try assumption; apply elem_of_app; auto.
Qed.

(** C1 at work: a fresh loader on the track without roads file. *)
Lemma C1_witness :
  exists l',
    BeginLoad 0 fs_no_roads loader_no_roads
    = Ret (bool_decide (is_Some (track_txt fs_no_roads))
           && can_begin fs_no_roads (content (env loader_no_roads))
                (expected_params loader_no_roads), l') /\
    "Error opening roads file" ∈ error_output (env l') /\
    "Error during road loading; continuing with an unsmoothed track"
      ∈ error_output (env l') /\
    roads (data (env l')) = [].
Proof.
  apply (C1_missing_roads_file_is_recoverable 0 fs_no_roads loader_no_roads); reflexivity.
Defined.

(** C1, the claim as stated fails: the roads file cannot be opened and
    [BeginLoad] returns success. *)
Lemma C1_counterexample :
  roads_trk fs_no_roads = None /\
  exists l', BeginLoad 0 fs_no_roads loader_no_roads = Ret (true, l').
Proof. split; [reflexivity|]. eexists. vm_compute. reflexivity. Qed.

(* ================================================================== *)
(** ** What the token reader delivers *)

Section TokenFacts.

Lemma word_no_space s w r : word s = (w, r) -> has_space w = false.
Proof.
  revert w r. induction s as [|c s IH]; cbn [word]; intros w r.
  - intros [= <- <-]. reflexivity.
  - destruct (isspace c) eqn:Hc; [intros [= <- <-]; reflexivity|].
    destruct (word s) as [w' r'] eqn:Hw. intros [= <- <-].
    cbn [has_space]. rewrite Hc. exact (IH _ _ eq_refl).
Qed.

Lemma extract_token instr f w f' :
  extract instr f = (w, f') -> w = instr \/ (w <> "" /\ has_space w = false).
Proof.
  intros He. destruct (string_dec w instr) as [->|Hne]; [left; reflexivity|right].
  split; [exact (proj2 (extract_shrinks _ _ _ _ He Hne))|].
  unfold extract in He. destruct (good f); [|inversion He; congruence].
  destruct (skipws (buf f)) as [|c s]; [inversion He; congruence|].
  destruct (word (String c s)) as [w' r] eqn:Hw. inversion He; subst.
  exact (word_no_space _ _ _ Hw).
Qed.

Lemma skip_comments_S k instr f :
  skip_comments (S k) instr f =
    if is_comment instr && good f then
      let '(instr', f') := extract instr (ignore f) in skip_comments k instr' f'
    else (instr, f).
Proof. reflexivity. Qed.

Lemma skip_comments_token fuel : forall instr f i' f',
  instr <> "" -> has_space instr = false ->
  skip_comments fuel instr f = (i', f') ->
  i' <> "" /\ has_space i' = false.
Proof.
  induction fuel as [|k IH]; intros instr f i' f' Hne Hsp.
  - intros [= <- <-]. auto.
  - rewrite skip_comments_S. destruct (is_comment instr && good f); [|intros [= <- <-]; auto].
    destruct (extract instr (ignore f)) as [i1 f1] eqn:He.
    apply extract_token in He as [-> | [H1 H2]]; eauto.
Qed.

(** X1: a token that [get] delivers is a word: it is not empty, holds no
    white space, and is not a comment. *)
Theorem get_delivers_words_only (f f' : ifstream) (tok : string) :
  get f = (Some tok, f') ->
  tok <> "" /\ has_space tok = false /\ is_comment tok = false.
Proof.
  unfold get. destruct (good f); [|discriminate].
  destruct (extract "" f) as [instr f1] eqn:He.
  destruct (is_empty instr) eqn:Hi; [discriminate|].
  assert (instr <> "") as Hne by (destruct instr; [discriminate|congruence]).
  apply extract_token in He as [-> | [_ Hsp]]; [congruence|].
  destruct (skip_comments (S (String.length (buf f1))) instr f1) as [i2 f2] eqn:Hs.
  destruct (negb (good f2) && is_comment i2) eqn:Hc; [discriminate|].
  intros [= <- <-].
  destruct (skip_comments_token _ _ _ _ _ Hne Hsp Hs) as [H1 H2].
  split; [exact H1|]. split; [exact H2|].
  apply skip_comments_done in Hs; [|lia].
  destruct (is_comment i2); [|reflexivity].
  destruct (good f2); simpl in *; congruence.
Qed.

Lemma append_nil (s : string) : "" +:+ s = s.
Proof. reflexivity. Qed.
Lemma append_cons c (a b : string) : String c a +:+ b = String c (a +:+ b).
Proof. reflexivity. Qed.

Lemma append_assoc (a b c : string) : (a +:+ b) +:+ c = a +:+ (b +:+ c).
Proof.
  induction a as [|x a IH]; rewrite ?append_nil, ?append_cons; [reflexivity|].
  rewrite IH. reflexivity.
Qed.

Lemma skipws_app ws s : skipws ws = "" -> skipws (ws +:+ s) = skipws s.
Proof.
  induction ws as [|c ws IH]; rewrite ?append_nil, ?append_cons; cbn [skipws];
    [reflexivity|].
  destruct (isspace c); [exact IH|discriminate].
Qed.

Lemma skipws_word w s :
  w <> "" -> has_space w = false -> skipws (w +:+ s) = w +:+ s.
Proof.
  destruct w as [|c w]; [congruence|]. intros _. rewrite append_cons.
  cbn [has_space skipws].
  destruct (isspace c); [discriminate|reflexivity].
Qed.

Lemma word_app w r :
  has_space w = false -> at_boundary r = true -> word (w +:+ r) = (w, r).
Proof.
  intros Hw Hr. induction w as [|c w IH]; rewrite ?append_nil, ?append_cons.
  - destruct r as [|c r]; [reflexivity|]. cbn [word]. cbn in Hr. rewrite Hr. reflexivity.
  - cbn [has_space] in Hw. apply orb_false_iff in Hw as [Hc Hw].
    cbn [word]. rewrite Hc, (IH Hw). reflexivity.
Qed.

Lemma word_cat s w r : word s = (w, r) -> s = w +:+ r /\ at_boundary r = true.
Proof.
  revert w r. induction s as [|c s IH]; cbn [word]; intros w r.
  - intros [= <- <-]. auto.
  - destruct (isspace c) eqn:Hc; [intros [= <- <-]; auto|].
    destruct (word s) as [w' r'] eqn:Hw. intros [= <- <-].
    destruct (IH _ _ eq_refl) as [-> Hb]. auto.
Qed.

Lemma has_newline_app a b : has_newline (a +:+ b) = has_newline a || has_newline b.
Proof.
  induction a as [|c a IH]; rewrite ?append_nil, ?append_cons; cbn [has_newline];
    [reflexivity|].
  rewrite IH. apply orb_assoc.
Qed.

Lemma string_length_app a b : String.length (a +:+ b) = (String.length a + String.length b)%nat.
Proof.
  induction a as [|c a IH]; rewrite ?append_nil, ?append_cons; cbn [String.length];
    [reflexivity|].
  rewrite IH. reflexivity.
Qed.

(** [ignore] drops a line up to its end ... *)
Lemma ignore_chars_line n : forall c rest,
  has_newline c = false -> (String.length c < n)%nat ->
  ignore_chars n (c +:+ String newline rest) = (rest, false).
Proof.
  induction n as [|n IH]; intros c rest Hc Hn; [lia|].
  destruct c as [|a c]; rewrite ?append_nil, ?append_cons; cbn [ignore_chars].
  - rewrite Ascii.eqb_refl. reflexivity.
  - cbn [has_newline] in Hc. apply orb_false_iff in Hc as [Ha Hc]. rewrite Ha.
    apply IH; [exact Hc|]. cbn in Hn. lia.
Qed.

(** ... or its count of characters, whichever comes first. *)
Lemma ignore_chars_count n : forall c rest,
  has_newline c = false -> String.length c = n ->
  ignore_chars n (c +:+ rest) = (rest, false).
Proof.
  induction n as [|n IH]; intros c rest Hc Hn.
  - destruct c; [reflexivity|discriminate].
  - destruct c as [|a c]; [discriminate|]. rewrite append_cons. cbn [ignore_chars].
    cbn [has_newline] in Hc. apply orb_false_iff in Hc as [Ha Hc]. rewrite Ha.
    apply IH; [exact Hc|]. cbn in Hn. lia.
Qed.

Lemma skip_comments_not_good k instr f :
  good f = false -> skip_comments k instr f = (instr, f).
Proof.
  intros Hg. destruct k; [reflexivity|]. rewrite skip_comments_S, Hg, andb_false_r.
  reflexivity.
Qed.

(** The comment loop does not depend on its fuel once there is enough. *)
Lemma skip_comments_fuel k1 : forall k2 instr f,
  (String.length (buf f) < k1)%nat -> (String.length (buf f) < k2)%nat ->
  skip_comments k1 instr f = skip_comments k2 instr f.
Proof.
  induction k1 as [|k1 IH]; intros k2 instr f H1 H2; [lia|].
  destruct k2 as [|k2]; [lia|]. rewrite !skip_comments_S.
  destruct (is_comment instr && good f) eqn:Hc; [|reflexivity].
  apply andb_true_iff in Hc as [Hi Hg].
  destruct (extract instr (ignore f)) as [i1 f1] eqn:He.
  destruct (String.eqb (buf f) "") eqn:Hb.
  - apply String.eqb_eq in Hb. pose proof (ignore_eof f Hg Hb) as Hbad.
    unfold extract in He. rewrite Hbad in He. inversion He; subst.
    rewrite !skip_comments_not_good; [reflexivity| |];
      unfold good; cbn; apply andb_false_r.
  - apply String.eqb_neq in Hb.
    pose proof (extract_length instr (ignore f)) as Hl. rewrite He in Hl. cbn in Hl.
    pose proof (ignore_shrinks f Hg Hb).
    apply IH; lia.
Qed.

(** What [f >> instr] gives on a stream in good state. *)
Lemma extract_word instr ws w r :
  skipws ws = "" -> w <> "" -> has_space w = false -> at_boundary r = true ->
  extract instr (stream_of (ws +:+ w +:+ r)) = (w, mkStream r (is_empty r) false).
Proof.
  intros Hws Hne Hsp Hb. unfold extract.
  change (good (stream_of _)) with true. cbv iota.
  change (buf (stream_of ?s)) with s.
  rewrite (skipws_app ws _ Hws), (skipws_word _ _ Hne Hsp).
  destruct (w +:+ r) as [|a s] eqn:Hwr; [destruct w; [congruence|discriminate]|].
  rewrite <- Hwr, (word_app _ _ Hsp Hb). reflexivity.
Qed.

Lemma extract_fresh instr rest :
  extract instr (stream_of rest) =
    match skipws rest with
    | EmptyString => (instr, mkStream EmptyString true true)
    | s => let '(w, r) := word s in (w, mkStream r (is_empty r) false)
    end.
Proof. reflexivity. Qed.

(** Behind a comment word the reader carries on where [ignore] leaves the
    stream. *)
Lemma get_after_comment ws c1 tail rest :
  skipws ws = "" -> has_space c1 = false ->
  tail <> "" -> at_boundary tail = true ->
  ignore (stream_of tail) = stream_of rest ->
  (String.length rest < String.length tail)%nat ->
  get (stream_of (ws +:+ String "#" (c1 +:+ tail))) = get (stream_of rest).
Proof.
  intros Hws Hc1 Hne Hb Hig Hlen. unfold get.
  change (good (stream_of _)) with true. cbv iota.
  assert (String "#" c1 <> "") as Hne1 by discriminate.
  assert (has_space (String "#" c1) = false) as Hsp by exact Hc1.
  change (String "#" (c1 +:+ tail)) with (String "#" c1 +:+ tail).
  rewrite (extract_word "" ws _ tail Hws Hne1 Hsp Hb).
  assert (is_empty tail = false) as -> by (destruct tail; [congruence|reflexivity]).
  change (is_empty (String "#" c1)) with false. cbv iota.
  change (buf (mkStream tail false false)) with tail.
  rewrite skip_comments_S.
  change (is_comment (String "#" c1) && good (mkStream tail false false)) with true.
  cbv iota. change (mkStream tail false false) with (stream_of tail). rewrite Hig.
  rewrite !extract_fresh.
  pose proof (skipws_length rest) as Hsk.
  destruct (skipws rest) as [|a s] eqn:Hs.
  - rewrite skip_comments_not_good by reflexivity. reflexivity.
  - destruct (word (String a s)) as [w2 r2] eqn:Hw.
    pose proof (word_length _ _ _ Hw) as Hl.
    assert (is_empty w2 = false) as ->.
    { pose proof (skipws_head _ _ _ Hs) as Ha. cbn [word] in Hw. rewrite Ha in Hw.
      destruct (word s). inversion Hw. reflexivity. }
    rewrite (skip_comments_fuel (String.length tail) (S (String.length (buf (mkStream r2 (is_empty r2) false)))));
      [reflexivity| |]; cbn [buf]; cbn [String.length] in *; lia.
Qed.

(** A word that is not a comment is delivered as it stands, and the stream
    is left right behind it. *)
Lemma get_plain (ws w r : string) :
  skipws ws = "" -> w <> "" -> has_space w = false -> is_comment w = false ->
  at_boundary r = true ->
  get (stream_of (ws +:+ w +:+ r)) = (Some w, mkStream r (is_empty r) false).
Proof.
  intros Hws Hne Hsp Hc Hb. unfold get.
  change (good (stream_of _)) with true. cbv iota.
  rewrite (extract_word "" ws w r Hws Hne Hsp Hb).
  assert (is_empty w = false) as -> by (destruct w; [congruence|reflexivity]).
  rewrite skip_comments_S, Hc. cbn [andb]. rewrite Hc, andb_false_r. reflexivity.
Qed.

(** X2: a comment, from its [#] to the end of its line, is skipped when the
    line is shorter than 1024 characters: the reader delivers what it
    delivers on the lines behind it. *)
Theorem get_skips_a_comment_line (ws c rest : string) :
  skipws ws = "" -> has_newline c = false -> (String.length c < 1024)%nat ->
  get (stream_of (ws +:+ String "#" (c +:+ String newline rest))) = get (stream_of rest).
Proof.
  intros Hws Hc Hlen.
  destruct (word c) as [c1 c2] eqn:Hw.
  pose proof (word_no_space _ _ _ Hw) as Hsp.
  apply word_cat in Hw as [-> Hb].
  rewrite has_newline_app in Hc. apply orb_false_iff in Hc as [_ Hc2].
  rewrite string_length_app in Hlen.
  rewrite append_assoc.
  apply (get_after_comment ws c1 (c2 +:+ String newline rest) rest Hws Hsp).
  - destruct c2; discriminate.
  - destruct c2; [reflexivity|exact Hb].
  - unfold ignore. change (good (stream_of _)) with true. cbv iota.
    change (buf (stream_of ?s)) with s.
    rewrite (ignore_chars_line 1024 c2 rest Hc2); [reflexivity|lia].
  - rewrite string_length_app. cbn. lia.
Qed.

(** X3: [ignore] drops 1024 characters at most: on a longer comment line the
    reader carries on inside the comment, 1024 characters behind the
    comment word. *)
Theorem get_resumes_inside_a_long_comment (ws c1 c2 rest : string) :
  skipws ws = "" -> has_space c1 = false ->
  String.length c2 = 1024%nat -> has_newline c2 = false -> at_boundary c2 = true ->
  get (stream_of (ws +:+ String "#" (c1 +:+ c2 +:+ rest))) = get (stream_of rest).
Proof.
  intros Hws Hsp Hlen Hnl Hb.
  apply (get_after_comment ws c1 (c2 +:+ rest) rest Hws Hsp).
  - destruct c2; discriminate.
  - destruct c2; [discriminate|exact Hb].
  - unfold ignore. change (good (stream_of _)) with true. cbv iota.
    change (buf (stream_of ?s)) with s.
    rewrite (ignore_chars_count 1024 c2 rest Hnl Hlen). reflexivity.
  - rewrite string_length_app. lia.
Qed.

End TokenFacts.

(** X1 at work: a list that starts with a comment line. *)
Lemma get_delivers_words_only_witness :
  "17" <> "" /\ has_space "17" = false /\ is_comment "17" = false.
Proof.
  apply (get_delivers_words_only (stream_of "  # fields per object
 17 rest") (mkStream " rest" false false) "17").
  reflexivity.
Defined.

(** X2 at work: a comment line before the first record. *)
Lemma get_skips_a_comment_line_witness :
  get (stream_of (" " +:+ String "#" (" model texture" +:+ String newline "a.joe a.png")))
  = get (stream_of "a.joe a.png").
Proof.
  apply (get_skips_a_comment_line " " " model texture" "a.joe a.png");
    [reflexivity|reflexivity|vm_compute; lia].
Defined.

(** X3 at work: a comment line of more than 1024 characters. *)
Lemma get_resumes_inside_a_long_comment_witness :
  get (stream_of ("" +:+ String "#" ("note" +:+ long_comment +:+ " 17 a.joe")))
  = get (stream_of " 17 a.joe").
Proof.
  apply (get_resumes_inside_a_long_comment "" "note" long_comment " 17 a.joe");
    [reflexivity|reflexivity|vm_compute; reflexivity|vm_compute; reflexivity|reflexivity].
Defined.

(** ** The mesh metrics of a model *)

Lemma list_ind3 {A} (P : list A -> Prop) :
  P [] -> (forall a, P [a]) -> (forall a b, P [a; b]) ->
  (forall a b c l, P l -> P (a :: b :: c :: l)) ->
  forall l, P l.
Proof.
  intros H0 H1 H2 H3.
  assert (forall l, P l /\ (forall a, P (a :: l)) /\ forall a b, P (a :: b :: l)) as H.
  { induction l as [|x l (IH0 & IH1 & IH2)]; [auto|].
    split; [apply IH1|]. split; [intros a; apply IH2|]. intros a b. apply H3, IH0. }
  intros l. apply H.
Qed.

(** The loop keeps, for every axis, a lower and an upper bound of the
    coordinates met so far, each either its initial value or one of the
    coordinates. *)
Lemma metrics_loop_bounds verts : forall maxv minv maxv' minv' k,
  MODEL.metrics_loop verts maxv minv = Some (maxv', minv') ->
  (k < 3)%nat ->
  let c := component k verts in
  (vec3_at minv' k <= vec3_at minv k)%Q /\ (vec3_at maxv k <= vec3_at maxv' k)%Q /\
  (forall v, v ∈ c -> (vec3_at minv' k <= v <= vec3_at maxv' k)%Q) /\
  (vec3_at minv' k = vec3_at minv k \/ vec3_at minv' k ∈ c) /\
  (vec3_at maxv' k = vec3_at maxv k \/ vec3_at maxv' k ∈ c).
Proof.
  induction verts as [| | |v0 v1 v2 rest IH] using list_ind3;
    intros maxv minv maxv' minv' k Hl Hk; try discriminate.
  - injection Hl as <- <-. cbn.
    split; [lra|]. split; [lra|]. split; [intros v Hv; inversion Hv|]. auto.
  - destruct maxv as [[M0 M1] M2], minv as [[m0 m1] m2]. cbn [MODEL.metrics_loop] in Hl.
    specialize (IH _ _ _ _ k Hl Hk). cbv zeta in IH.
    destruct IH as (H1 & H2 & H3 & H4 & H5).
    assert (forall a b, (if Qltb a b then b else a) = a \/ (if Qltb a b then b else a) = b)
      as Hsel by (intros a b; destruct (Qltb a b); auto).
    assert (forall a b, (a <= if Qltb a b then b else a)%Q /\ (b <= if Qltb a b then b else a)%Q)
      as Hmax.
    { intros a b. destruct (Qltb a b) eqn:Hc; [apply Qltb_lt in Hc; lra|].
      assert (~ (a < b)%Q) by (rewrite <- Qltb_lt; congruence). lra. }
    assert (forall a b, ((if Qltb b a then b else a) <= a)%Q /\ ((if Qltb b a then b else a) <= b)%Q)
      as Hmin.
    { intros a b. destruct (Qltb b a) eqn:Hc; [apply Qltb_lt in Hc; lra|].
      assert (~ (b < a)%Q) by (rewrite <- Qltb_lt; congruence). lra. }
    assert (forall a b, (if Qltb b a then b else a) = a \/ (if Qltb b a then b else a) = b)
      as Hsel' by (intros a b; destruct (Qltb b a); auto).
    destruct k as [|[|[|k]]]; [| | |lia]; cbn [component vec3_at] in *.
    + pose proof (Hmax M0 v0). pose proof (Hmin m0 v0).
      split; [lra|]. split; [lra|]. split; [|split].
      * intros v [->|Hv]%elem_of_cons; [lra|apply H3, Hv].
      * destruct H4 as [-> | H4]; [|right; right; exact H4].
        destruct (Hsel' m0 v0) as [-> | ->]; [left; reflexivity|right; left].
      * destruct H5 as [-> | H5]; [|right; right; exact H5].
        destruct (Hsel M0 v0) as [-> | ->]; [left; reflexivity|right; left].
    + pose proof (Hmax M1 v1). pose proof (Hmin m1 v1).
      split; [lra|]. split; [lra|]. split; [|split].
      * intros v [->|Hv]%elem_of_cons; [lra|apply H3, Hv].
      * destruct H4 as [-> | H4]; [|right; right; exact H4].
        destruct (Hsel' m1 v1) as [-> | ->]; [left; reflexivity|right; left].
      * destruct H5 as [-> | H5]; [|right; right; exact H5].
        destruct (Hsel M1 v1) as [-> | ->]; [left; reflexivity|right; left].
    + pose proof (Hmax M2 v2). pose proof (Hmin m2 v2).
      split; [lra|]. split; [lra|]. split; [|split].
      * intros v [->|Hv]%elem_of_cons; [lra|apply H3, Hv].
      * destruct H4 as [-> | H4]; [|right; right; exact H4].
        destruct (Hsel' m2 v2) as [-> | ->]; [left; reflexivity|right; left].
      * destruct H5 as [-> | H5]; [|right; right; exact H5].
        destruct (Hsel M2 v2) as [-> | ->]; [left; reflexivity|right; left].
Qed.

Lemma GenerateMeshMetrics_ret m m' :
  MODEL.GenerateMeshMetrics m = Ret m' ->
  MODEL.metrics_loop (VERTEXARRAY.vertices (MODEL.m_mesh m))
    (MODEL.flt_min, MODEL.flt_min, MODEL.flt_min)
    (MODEL.flt_max, MODEL.flt_max, MODEL.flt_max) = Some (MODEL.max m', MODEL.min m') /\
  MODEL.m_mesh m' = MODEL.m_mesh m /\ MODEL.generatedmetrics m' = true.
Proof.
  unfold MODEL.GenerateMeshMetrics. expose.
  destruct (negb _); [|discriminate].
  destruct (MODEL.metrics_loop _ _ _) as [[maxv minv]|]; [|discriminate].
  intros [= <-]. auto.
Qed.

Lemma vec3_at_const q k : (k < 3)%nat -> vec3_at (q, q, q) k = q.
Proof. intros Hk. destruct k as [|[|[|k]]]; [reflexivity..|lia]. Qed.

(** X4: the box [min], [max] that [GenerateMeshMetrics] leaves encloses the
    mesh: on every axis, every vertex lies between [min] and [max]. *)
Theorem mesh_box_contains_every_vertex (m m' : MODEL.t) (k : nat) (v : Q) :
  MODEL.GenerateMeshMetrics m = Ret m' -> (k < 3)%nat ->
  v ∈ component k (VERTEXARRAY.vertices (MODEL.m_mesh m)) ->
  (vec3_at (MODEL.min m') k <= v <= vec3_at (MODEL.max m') k)%Q.
Proof.
  intros Hg Hk Hv. apply GenerateMeshMetrics_ret in Hg as (Hl & _ & _).
  destruct (metrics_loop_bounds _ _ _ _ _ k Hl Hk) as (_ & _ & H & _).
  exact (H v Hv).
Qed.

(** X5: on every axis each bound of the box is the coordinate of a vertex,
    unless it is the value the loop starts from and no vertex goes beyond
    it: [min] stays at [flt_max] only above every finite [float], but [max]
    stays at [flt_min], the smallest positive [float], for a mesh that has
    no coordinate above it. *)
Theorem mesh_box_bounds_are_attained (m m' : MODEL.t) (k : nat) :
  MODEL.GenerateMeshMetrics m = Ret m' -> (k < 3)%nat ->
  let c := component k (VERTEXARRAY.vertices (MODEL.m_mesh m)) in
  (vec3_at (MODEL.min m') k ∈ c \/
   vec3_at (MODEL.min m') k = MODEL.flt_max /\ forall v, v ∈ c -> (MODEL.flt_max <= v)%Q) /\
  (vec3_at (MODEL.max m') k ∈ c \/
   vec3_at (MODEL.max m') k = MODEL.flt_min /\ forall v, v ∈ c -> (v <= MODEL.flt_min)%Q).
Proof.
  intros Hg Hk c. apply GenerateMeshMetrics_ret in Hg as (Hl & _ & _).
  destruct (metrics_loop_bounds _ _ _ _ _ k Hl Hk) as (_ & _ & H & Hmin & Hmax).
  fold c in H, Hmin, Hmax. rewrite vec3_at_const in Hmin, Hmax by exact Hk.
  split.
  - destruct Hmin as [Hmin|Hmin]; [right|left; exact Hmin].
    split; [exact Hmin|]. intros v Hv. rewrite <- Hmin. apply (H v Hv).
  - destruct Hmax as [Hmax|Hmax]; [right|left; exact Hmax].
    split; [exact Hmax|]. intros v Hv. rewrite <- Hmax. apply (H v Hv).
Qed.

Lemma metrics_loop_some verts : forall maxv minv,
  is_Some (MODEL.metrics_loop verts maxv minv) <-> (3 | Z.of_nat (List.length verts)).
Proof.
  induction verts as [| | |v0 v1 v2 rest IH] using list_ind3; intros maxv minv.
  - split; [intros _; exists 0; reflexivity|eauto].
  - split; [intros [? [=]]|]. intros [q Hq]. cbn in Hq. lia.
  - split; [intros [? [=]]|]. intros [q Hq]. cbn in Hq. lia.
  - destruct maxv as [[M0 M1] M2], minv as [[m0 m1] m2]. cbn [MODEL.metrics_loop].
    rewrite IH. cbn [List.length]. split; intros [q Hq]; [exists (q + 1)|exists (q - 1)]; lia.
Qed.

(** X6: [BuildFromVertexArray] succeeds exactly on a non-empty array of
    three floats per vertex; the model it leaves holds that array, has its
    metrics, and owes nothing to the mesh or the metrics it had before.  On
    an empty array the assertion of [GenerateMeshMetrics] fails, and on a
    cut array the loop reads behind its end. *)
Theorem BuildFromVertexArray_builds_from_the_array_alone (varray : VERTEXARRAY.t)
    (m : MODEL.t) :
  let n := Z.of_nat (List.length (VERTEXARRAY.vertices varray)) in
  (n = 0 -> MODEL.BuildFromVertexArray varray m = AssertionFailed "vnum3") /\
  (n <> 0 -> ~ (3 | n) ->
     MODEL.BuildFromVertexArray varray m
     = Undefined "GenerateMeshMetrics: read past the vertex array") /\
  (n <> 0 -> (3 | n) ->
     exists m', MODEL.BuildFromVertexArray varray m = Ret m' /\
       MODEL.GetVertexArray m' = varray /\ MODEL.HaveMeshMetrics m' = true /\
       forall m0, MODEL.BuildFromVertexArray varray m0 = Ret m').
Proof.
  intros n. unfold MODEL.BuildFromVertexArray, MODEL.GenerateMeshMetrics.
  cbn [MODEL.SetVertexArray MODEL.m_mesh]. expose.
  pose proof (metrics_loop_some (VERTEXARRAY.vertices varray)
    (MODEL.flt_min, MODEL.flt_min, MODEL.flt_min)
    (MODEL.flt_max, MODEL.flt_max, MODEL.flt_max)) as Hs.
  fold n in Hs.
  destruct (VERTEXARRAY.vertices varray) as [|v0 verts] eqn:Hv.
  - split; [reflexivity|]. split; intros H; exfalso; apply H; reflexivity.
  - cbn [List.length Nat.eqb negb]. split; [subst n; cbn; lia|].
    rewrite <- Hv in *.
    destruct (MODEL.metrics_loop _ _ _) as [[maxv minv]|].
    + split; [intros _ H; exfalso; apply H, Hs; eauto|]. intros _ _.
      eexists. split; [reflexivity|]. split; [reflexivity|]. split; reflexivity.
    + split; [reflexivity|]. intros _ H. apply Hs in H as [? [=]].
Qed.

(** X4 at work: the second axis of the sunken mesh. *)
Lemma mesh_box_contains_every_vertex_witness :
  MODEL.GenerateMeshMetrics sunken = Ret sunken_measured /\
  (vec3_at (MODEL.min sunken_measured) 1 <= -3 <= vec3_at (MODEL.max sunken_measured) 1)%Q.
Proof.
  split; [reflexivity|].
  apply (mesh_box_contains_every_vertex sunken sunken_measured 1 (-3));
    [reflexivity|lia|vm_compute; set_solver].
Defined.

(** X5 at work: the sunken mesh, whose [max] is no coordinate of a vertex. *)
Lemma mesh_box_bounds_are_attained_witness :
  (vec3_at (MODEL.min sunken_measured) 1 ∈ component 1 sunken_vertices \/
   vec3_at (MODEL.min sunken_measured) 1 = MODEL.flt_max /\
   forall v, v ∈ component 1 sunken_vertices -> (MODEL.flt_max <= v)%Q) /\
  (vec3_at (MODEL.max sunken_measured) 1 ∈ component 1 sunken_vertices \/
   vec3_at (MODEL.max sunken_measured) 1 = MODEL.flt_min /\
   forall v, v ∈ component 1 sunken_vertices -> (v <= MODEL.flt_min)%Q).
Proof.
  apply (mesh_box_bounds_are_attained sunken sunken_measured 1); [reflexivity|lia].
Defined.

(** ** The file and the OpenGL objects of a model *)

Section ModelFileFacts.
Context `{X : ModelExternals FULL.MESH} (D : GL.driver).

Lemma take_chars_app a b : FULL.take_chars (String.length a) (a +:+ b) = a.
Proof.
  induction a as [|c a IH]; rewrite ?append_nil, ?append_cons; cbn; [destruct b; reflexivity|].
  rewrite IH. reflexivity.
Qed.

Lemma ReadFromFile_magic disk filepath generatelistid m s rest :
  FULL.contents disk !! filepath = Some (FULL.file_magic +:+ rest) ->
  exists msg, FULL.ReadFromFile D disk filepath generatelistid m s
              = Ret (false, m, GL.log msg s) /\
    String.prefix "File magic is incorrect" msg = true.
Proof.
  intros Hf. unfold FULL.ReadFromFile. rewrite Hf.
  rewrite string_length_app, take_chars_app.
  destruct (_ <? _)%nat eqn:Hlt; [apply Nat.ltb_lt in Hlt; lia|].
  change (FULL.c_str FULL.file_magic) with FULL.file_magic.
  rewrite String.eqb_refl. eexists. split; [reflexivity|]. reflexivity.
Qed.

(** X7: the test of the file magic is inverted.  A file that starts with
    the magic is turned down, with the model and OpenGL left alone; a file
    that [ReadFromFile] accepts holds twelve bytes or more that are not the
    magic. *)
Theorem ReadFromFile_turns_down_the_magic (disk : FULL.Disk) (filepath : string)
    (generatelistid : bool) (m : FULL.t) (s : GL.state) :
  (forall rest, FULL.contents disk !! filepath = Some (FULL.file_magic +:+ rest) ->
     exists msg, FULL.ReadFromFile D disk filepath generatelistid m s
                 = Ret (false, m, GL.log msg s) /\
       String.prefix "File magic is incorrect" msg = true) /\
  (forall m' s', FULL.ReadFromFile D disk filepath generatelistid m s = Ret (true, m', s') ->
     exists bytes, FULL.contents disk !! filepath = Some bytes /\
       (12 <= String.length bytes)%nat /\ String.prefix FULL.file_magic bytes = false).
Proof.
  split.
  - intros rest Hf. exact (ReadFromFile_magic _ _ _ _ _ rest Hf).
  - intros m' s'. unfold FULL.ReadFromFile.
    destruct (FULL.contents disk !! filepath) as [bytes|]; [|discriminate].
    destruct (_ <? _)%nat eqn:Hlt; [discriminate|]. apply Nat.ltb_ge in Hlt.
    destruct (String.eqb _ _) eqn:Heq; [discriminate|]. intros _.
    exists bytes. split; [reflexivity|]. split; [exact Hlt|].
    destruct (String.prefix FULL.file_magic bytes) eqn:Hp; [|reflexivity].
    apply String.eqb_neq in Heq. exfalso. apply Heq.
    assert (exists rest, bytes = FULL.file_magic +:+ rest) as [rest ->].
    { clear -Hp. unfold FULL.file_magic in *.
      repeat (destruct bytes as [|? bytes]; [discriminate|];
              cbn [String.prefix] in Hp;
              match type of Hp with
              | (if ?d then _ else _) = true => destruct d as [<-|]; [|discriminate]
              end).
      exists bytes. reflexivity. }
    rewrite take_chars_app. reflexivity.
Qed.

(** X8: what [WriteToFile] writes, [ReadFromFile] turns down: the file
    starts with the magic, so reading it back fails at the magic test,
    whatever the serializer does, and the model that reads is left as it
    was. *)
Theorem ReadFromFile_turns_down_what_WriteToFile_wrote (disk : FULL.Disk)
    (filepath : string) (m m0 : FULL.t) (generatelistid : bool) (s : GL.state) :
  FULL.writable disk filepath = true ->
  let '(ok, disk') := FULL.WriteToFile filepath m disk in
  ok = snd (write_mesh (FULL.m_mesh m)) /\
  FULL.contents disk' !! filepath
    = Some (FULL.file_magic +:+ fst (write_mesh (FULL.m_mesh m))) /\
  exists msg, FULL.ReadFromFile D disk' filepath generatelistid m0 s
              = Ret (false, m0, GL.log msg s).
Proof.
  intros Hw. unfold FULL.WriteToFile. rewrite Hw. cbn [negb].
  destruct (write_mesh (FULL.m_mesh m)) as [bytes ok] eqn:Hb. cbn [fst snd].
  split; [reflexivity|].
  pose proof (lookup_insert_eq (FULL.contents disk) filepath (FULL.file_magic +:+ bytes)) as Hf.
  split; [exact Hf|].
  destruct (ReadFromFile_magic (FULL.mkDisk _ (FULL.writable disk)) filepath generatelistid
              m0 s bytes Hf) as (msg & Hr & _).
  eauto.
Qed.

End ModelFileFacts.

Section VertexArrayObjectFacts.
Context `{X : ModelExternals FULL.MESH} (D : GL.driver).

Lemma calls_since_app s l e :
  calls_since s (GL.mkState (GL.calls s ++ l) e) = l.
Proof. unfold calls_since. cbn. rewrite drop_app_length. reflexivity. Qed.

Ltac fields :=
  cbn [FULL.listid FULL.generatedvao FULL.vbos FULL.elementVbo FULL.vao FULL.set_mesh
       FULL.set_listid FULL.set_vao FULL.set_elementVbo FULL.set_generatedmetrics
       FULL.set_elementCount FULL.set_vbos FULL.set_generatedvao
       FULL.min FULL.max FULL.radius FULL.elementCount FULL.m_mesh FULL.generatedmetrics
       GL.calls GL.error_output].

Lemma ClearListID_result m s :
  exists l,
    FULL.ClearListID m s
      = (FULL.set_listid 0 m, GL.mkState (GL.calls s ++ l) (GL.error_output s)) /\
    Forall (fun c => generates c = false) l.
Proof.
  unfold FULL.ClearListID, GL.call_. destruct s as [cs eo]. fields.
  destruct (negb (FULL.listid m =? 0)).
  - eexists. split; [reflexivity|]. repeat constructor.
  - exists []. rewrite app_nil_r. split; [reflexivity|constructor].
Qed.

Lemma ClearVertexArrayObject_result m s :
  exists l,
    FULL.ClearVertexArrayObject m s =
      (FULL.mk (FULL.m_mesh m) (FULL.min m) (FULL.max m) (FULL.radius m)
         (FULL.generatedmetrics m)
         (if FULL.generatedvao m then 0 else FULL.vao m)
         (if FULL.generatedvao m then 0 else FULL.elementVbo m)
         (FULL.elementCount m) (FULL.vbos m) 0 (FULL.generatedvao m),
       GL.mkState (GL.calls s ++ l) (GL.error_output s)) /\
    Forall (fun c => generates c = false) l.
Proof.
  unfold FULL.ClearVertexArrayObject, GL.call_.
  destruct m as [mesh mn mx r gm v ev ec vb li gv]. destruct s as [cs eo]. fields.
  destruct gv.
  2: { exists []. rewrite app_nil_r. split; [reflexivity|constructor]. }
  set (s1 := if negb (Nat.eqb (List.length vb) 0) then _ else _).
  assert (exists l1, s1 = GL.mkState (cs ++ l1) eo /\ Forall (fun c => generates c = false) l1)
    as (l1 & -> & H1).
  { subst s1. destruct (negb _); eexists; (split; [fields; rewrite <- ?app_assoc; reflexivity|]);
      repeat constructor. }
  fields.
  destruct (negb (ev =? 0)) eqn:He; fields.
  - destruct (negb (v =? 0)) eqn:Hv; fields.
    + eexists. split; [rewrite <- !app_assoc; reflexivity|].
      apply Forall_app. split; [exact H1|repeat constructor].
    + apply negb_false_iff, Z.eqb_eq in Hv as ->.
      eexists. split; [rewrite <- !app_assoc; reflexivity|].
      apply Forall_app. split; [exact H1|repeat constructor].
  - apply negb_false_iff, Z.eqb_eq in He as ->.
    destruct (negb (v =? 0)) eqn:Hv; fields.
    + eexists. split; [rewrite <- !app_assoc; reflexivity|].
      apply Forall_app. split; [exact H1|repeat constructor].
    + apply negb_false_iff, Z.eqb_eq in Hv as ->.
      exists l1. split; [reflexivity|exact H1].
Qed.

(** What [Clear] leaves of a model, and the calls it makes: it deletes, and
    generates nothing. *)
Lemma Clear_result m s :
  exists l,
    FULL.Clear m s =
      (FULL.mk FULL.no_mesh (FULL.min m) (FULL.max m) (FULL.radius m) false
         (if FULL.generatedvao m then 0 else FULL.vao m)
         (if FULL.generatedvao m then 0 else FULL.elementVbo m)
         (FULL.elementCount m) (FULL.vbos m) 0 (FULL.generatedvao m),
       GL.mkState (GL.calls s ++ l) (GL.error_output s)) /\
    Forall (fun c => generates c = false) l.
Proof.
  unfold FULL.Clear.
  destruct (ClearListID_result (FULL.ClearMeshData m) s) as (l1 & -> & H1).
  destruct (ClearVertexArrayObject_result (FULL.set_listid 0 (FULL.ClearMeshData m))
              (GL.mkState (GL.calls s ++ l1) (GL.error_output s))) as (l2 & -> & H2).
  exists (l1 ++ l2). split; [|apply Forall_app; auto].
  unfold FULL.ClearMetrics, FULL.ClearMeshData. fields. rewrite <- app_assoc. reflexivity.
Qed.

Lemma GenerateMeshMetrics_full_returns m :
  VERTEXARRAY.vertices (FULL.base (FULL.m_mesh m)) <> [] ->
  (3 | Z.of_nat (List.length (VERTEXARRAY.vertices (FULL.base (FULL.m_mesh m))))) ->
  exists mn mx r,
    FULL.GenerateMeshMetrics m =
      Ret (FULL.mk (FULL.m_mesh m) mn mx r true (FULL.vao m) (FULL.elementVbo m)
             (FULL.elementCount m) (FULL.vbos m) (FULL.listid m) (FULL.generatedvao m)).
Proof.
  intros Hne Hd. unfold FULL.GenerateMeshMetrics, MODEL.GenerateMeshMetrics, FULL.mesh_part.
  cbn [MODEL.m_mesh]. expose.
  destruct (VERTEXARRAY.vertices (FULL.base (FULL.m_mesh m))) as [|v0 vs] eqn:Hv; [congruence|].
  cbn [List.length Nat.eqb negb]. rewrite <- Hv in *.
  apply (metrics_loop_some _ (MODEL.flt_min, MODEL.flt_min, MODEL.flt_min)
           (MODEL.flt_max, MODEL.flt_max, MODEL.flt_max)) in Hd as [[mx mn] ->].
  eauto.
Qed.

(** X9: a model generates its vertex array object once.  [Clear] deletes the
    object and its buffers but leaves [generatedvao] set, so a model that
    is loaded from a further vertex array holds the new mesh, asks OpenGL
    for nothing, and hands out handle 0 with the element count of the mesh
    before. *)
Theorem Load_generates_no_second_vertex_array_object (varray : FULL.MESH) (m : FULL.t)
    (s : GL.state) :
  FULL.generatedvao m = true ->
  VERTEXARRAY.vertices (FULL.base varray) <> [] ->
  (3 | Z.of_nat (List.length (VERTEXARRAY.vertices (FULL.base varray)))) ->
  exists m1 s1, FULL.Load D varray false m s = Ret (true, m1, s1) /\
    FULL.GetVertexArray m1 = varray /\ FULL.HaveMeshMetrics m1 = true /\
    FULL.HaveVertexArrayObject m1 = true /\
    FULL.GetVertexArrayObject m1 = Some (0, FULL.elementCount m) /\
    Forall (fun c => generates c = false) (calls_since s s1).
Proof.
  intros Hg Hne Hd. unfold FULL.Load, FULL.BuildFromVertexArray, FULL.SetVertexArray.
  destruct (Clear_result m s) as (l & -> & Hl). rewrite Hg.
  match goal with |- context [FULL.GenerateMeshMetrics ?m0] =>
    destruct (GenerateMeshMetrics_full_returns m0 Hne Hd) as (mn & mx & r & ->)
  end.
  expose. fields. unfold FULL.GenerateVertexArrayObject. fields.
  eexists _, _. split; [reflexivity|]. rewrite calls_since_app. auto 10.
Qed.

Ltac buffer :=
  match goal with
  | |- context [FULL.GenerateBufferObject D ?a ?b ?c ?d ?e ?f ?g ?h] =>
      destruct (FULL.GenerateBufferObject D a b c d e f g h) as [? ?]; cbv beta iota
  end.

Lemma GenerateVertexArrayObject_result m s :
  let vertexCount := FULL.vertcount m / 3 in
  FULL.generatedvao m = false ->
  0 < FULL.facecount m -> 0 < FULL.vertcount m ->
  (FULL.normcount m = 0 \/ FULL.normcount m = FULL.to_unsigned (vertexCount * 3)) ->
  (FULL.colcount m = 0 \/ FULL.colcount m = FULL.to_unsigned (vertexCount * 4)) ->
  match FULL.texcoords (FULL.m_mesh m) with
  | tc0 :: _ => Z.of_nat (List.length tc0) = FULL.to_unsigned (vertexCount * 2)
  | [] => True
  end ->
  exists e new s1,
    FULL.GenerateVertexArrayObject D m s =
      Ret (FULL.mk (FULL.m_mesh m) (FULL.min m) (FULL.max m) (FULL.radius m)
             (FULL.generatedmetrics m) (GL.answer D (List.length (GL.calls s))) e
             (FULL.facecount m) (FULL.vbos m ++ new) (FULL.listid m) true, s1) /\
    List.length new =
      (1 + (if (FULL.normcount m =? 0)%Z then 0 else 1)
         + (if (FULL.colcount m =? 0)%Z then 0 else 1)
         + (if (FULL.GetTexCoordSets m =? 0)%Z then 0 else 1))%nat.
Proof.
  intros vertexCount Hg Hf Hv Hn Hc Ht. subst vertexCount.
  unfold FULL.GenerateVertexArrayObject. rewrite Hg.
  destruct m as [[bs ns cs ts] mn mx r gm v ev ec vb li gv].
  unfold FULL.facecount, FULL.vertcount, FULL.normcount, FULL.colcount,
    FULL.GetTexCoordSets, push_back in *.
  cbn [FULL.m_mesh FULL.base FULL.normals FULL.colors FULL.texcoords] in *.
  unfold GL.ask. cbv beta iota zeta. fields.
  cbn [FULL.m_mesh FULL.base FULL.normals FULL.colors FULL.texcoords].
  expose.
  apply Z.ltb_lt in Hf as ->. apply Z.ltb_lt in Hv as ->.
  set (vc := Z.of_nat (List.length (VERTEXARRAY.vertices bs)) / 3) in *.
  set (e := GL.answer D (List.length (GL.calls (FULL.ERROR_CHECK D _ 231 _)))).
  clearbody e. clear Hg.
  assert ((Z.of_nat (List.length ns) <=? 0) = (Z.of_nat (List.length ns) =? 0)) as ->
    by (destruct (Z.eqb_spec (Z.of_nat (List.length ns)) 0); lia).
  buffer.
  destruct (Z.eqb_spec (Z.of_nat (List.length ns)) 0) as [_|Hn0];
    [|destruct Hn as [Hn|Hn]; [lia|]; apply Z.eqb_eq in Hn; rewrite Hn; cbv beta iota; buffer];
    fields; cbn [FULL.m_mesh FULL.base FULL.normals FULL.colors FULL.texcoords];
    (destruct (Z.ltb_spec 0 (Z.of_nat (List.length cs))) as [Hc0|Hc0];
     [destruct Hc as [Hc|Hc]; [lia|]; apply Z.eqb_eq in Hc; rewrite Hc; cbv beta iota; buffer|]);
    fields; cbn [FULL.m_mesh FULL.base FULL.normals FULL.colors FULL.texcoords];
    (destruct ts as [|tc0 ts]; [|apply Z.eqb_eq in Ht; rewrite Ht; cbv beta iota; buffer]);
    fields; rewrite <- ?app_assoc;
    (destruct (Z.eqb_spec (Z.of_nat (List.length cs)) 0); [|]; try lia);
    (eexists _, _, _; split; [reflexivity|reflexivity]).
Qed.

(** X10: the first [Load] of a model from a vertex array generates its vertex
    array object, provided the mesh has faces and vertices and each other
    array is empty or holds its share for every vertex (the assertions of
    [GenerateVertexArrayObject]): the model hands out the handle OpenGL
    answered with the number of face indices, and keeps one buffer for the
    positions and one for each other array that is there. *)
Theorem Load_generates_the_vertex_array_object (varray : FULL.MESH) (s : GL.state) :
  let m0 := FULL.set_mesh varray FULL.new in
  let vertexCount := FULL.vertcount m0 / 3 in
  0 < FULL.facecount m0 -> 0 < FULL.vertcount m0 -> (3 | FULL.vertcount m0) ->
  (FULL.normcount m0 = 0 \/ FULL.normcount m0 = FULL.to_unsigned (vertexCount * 3)) ->
  (FULL.colcount m0 = 0 \/ FULL.colcount m0 = FULL.to_unsigned (vertexCount * 4)) ->
  match FULL.texcoords varray with
  | tc0 :: _ => Z.of_nat (List.length tc0) = FULL.to_unsigned (vertexCount * 2)
  | [] => True
  end ->
  exists m1 s1, FULL.Load D varray false FULL.new s = Ret (true, m1, s1) /\
    FULL.GetVertexArray m1 = varray /\
    FULL.GetVertexArrayObject m1
      = Some (GL.answer D (List.length (GL.calls s)), FULL.facecount m0) /\
    List.length (FULL.vbos m1) =
      (1 + (if (FULL.normcount m0 =? 0)%Z then 0 else 1)
         + (if (FULL.colcount m0 =? 0)%Z then 0 else 1)
         + (if (FULL.GetTexCoordSets m0 =? 0)%Z then 0 else 1))%nat.
Proof.
  intros m0 vertexCount Hf Hv Hd Hn Hc Ht.
  unfold FULL.Load, FULL.BuildFromVertexArray, FULL.SetVertexArray.
  assert (FULL.Clear FULL.new s = (FULL.new, s)) as -> by (destruct s; reflexivity).
  fold m0.
  destruct (GenerateMeshMetrics_full_returns m0) as (mn & mx & r & ->).
  { unfold FULL.vertcount in Hv. destruct (VERTEXARRAY.vertices _); [cbn in Hv; lia|discriminate]. }
  { exact Hd. }
  expose.
  match goal with |- context [FULL.GenerateVertexArrayObject D ?m ?s] =>
    destruct (GenerateVertexArrayObject_result m s eq_refl Hf Hv Hn Hc Ht)
      as (e & new & s1 & -> & Hlen)
  end.
  eexists _, _. split; [reflexivity|]. split; [reflexivity|]. split; [reflexivity|].
  exact Hlen.
Qed.

End VertexArrayObjectFacts.

(** X8 at work: the triangle is written to a file and read back. *)
Lemma ReadFromFile_turns_down_what_WriteToFile_wrote_witness :
  let '(ok, disk') := FULL.WriteToFile "tree.ova" triangle_loaded empty_disk in
  ok = snd (write_mesh (FULL.m_mesh triangle_loaded)) /\
  FULL.contents disk' !! "tree.ova"
    = Some (FULL.file_magic +:+ fst (write_mesh (FULL.m_mesh triangle_loaded))) /\
  exists msg, FULL.ReadFromFile gl_counting disk' "tree.ova" false FULL.new gl_start
              = Ret (false, FULL.new, GL.log msg gl_start).
Proof.
  apply (ReadFromFile_turns_down_what_WriteToFile_wrote gl_counting empty_disk "tree.ova"
           triangle_loaded FULL.new false gl_start).
  reflexivity.
Defined.

(** X9 at work: the model of the triangle is loaded from the square. *)
Lemma Load_generates_no_second_vertex_array_object_witness :
  exists m1 s1, FULL.Load gl_counting square_mesh false triangle_loaded gl_start
                = Ret (true, m1, s1) /\
    FULL.GetVertexArray m1 = square_mesh /\ FULL.HaveMeshMetrics m1 = true /\
    FULL.HaveVertexArrayObject m1 = true /\
    FULL.GetVertexArrayObject m1 = Some (0, 3) /\
    Forall (fun c => generates c = false) (calls_since gl_start s1).
Proof.
  apply (Load_generates_no_second_vertex_array_object gl_counting square_mesh triangle_loaded
           gl_start); [reflexivity|discriminate|exists 4; reflexivity].
Defined.

(** X10 at work: a new model is loaded from the triangle. *)
Lemma Load_generates_the_vertex_array_object_witness :
  exists m1 s1, FULL.Load gl_counting triangle_mesh false FULL.new gl_start
                = Ret (true, m1, s1) /\
    FULL.GetVertexArray m1 = triangle_mesh /\
    FULL.GetVertexArrayObject m1 = Some (1, 3) /\
    List.length (FULL.vbos m1) = 3%nat.
Proof.
  apply (Load_generates_the_vertex_array_object gl_counting triangle_mesh gl_start);
    [reflexivity|reflexivity|exists 3; reflexivity|right; reflexivity|left; reflexivity
    |reflexivity].
Defined.

(** ** The surfaces file *)

Lemma read_surface_result cfg e :
  data (snd (read_surface cfg e)) = data e /\
  surface_type (fst (read_surface cfg e)) = snd (get_value (strings cfg) "Type" "") /\
  (0 < bumpWaveLength (fst (read_surface cfg e)))%Q.
Proof.
  unfold read_surface, get_value.
  destruct (floats cfg !! "BumpWaveLength") as [w|]; cbn [fst snd];
    match goal with |- context [Qleb ?a 0] => destruct (Qleb a 0) eqn:Hq end;
    cbn [fst snd];
    repeat (match goal with
            | |- context [floats cfg !! ?k] => destruct (floats cfg !! k)
            end; cbn [fst snd]);
    cbn [data bumpWaveLength surface_type log_error set_error_output];
    (split; [reflexivity|split; [reflexivity|]]); try reflexivity;
    match type of Hq with
    | Qleb ?a 0 = false => assert (~ (a <= 0)%Q) by (rewrite <- Qleb_le; congruence); lra
    end.
Qed.

Lemma LoadSurfaces_fold sections : forall e,
  let e' :=
    fold_left (fun e (sec : string * PTree) =>
      if String.prefix "surface" (fst sec) then
        let '(surface_, e) := read_surface (snd sec) e in
        upd_data (fun d => set_surfaces (push_back surface_ (surfaces d)) d) e
      else e) sections e in
  exists new,
    data e' = set_surfaces (surfaces (data e) ++ new) (data e) /\
    surface_type <$> new =
      (fun sec => snd (get_value (strings (snd sec)) "Type" ""))
        <$> List.filter (fun sec => String.prefix "surface" (fst sec)) sections /\
    Forall (fun t => (0 < bumpWaveLength t)%Q) new.
Proof.
  induction sections as [|[name cfg] rest IH]; intros e; cbn [fold_left List.filter fst snd].
  - exists []. rewrite app_nil_r. destruct (data e). repeat split. constructor.
  - destruct (String.prefix "surface" name); [|apply IH].
    destruct (read_surface_result cfg e) as (Hd & Ht & Hw).
    destruct (read_surface cfg e) as [surface_ e1]. cbn [fst snd] in *.
    destruct (IH (upd_data (fun d => set_surfaces (push_back surface_ (surfaces d)) d) e1))
      as (new & Hn & Hty & Hpos).
    exists (surface_ :: new). cbv zeta in Hn. rewrite Hn. cbn [upd_data data set_data].
    rewrite Hd. unfold push_back. cbn [surfaces set_surfaces].
    rewrite <- app_assoc. split; [reflexivity|].
    split; [cbn; rewrite Ht, Hty; reflexivity|]. constructor; assumption.
Qed.

(** X11: [LoadSurfaces] appends one surface for every section of the file
    whose name starts with [surface], in the order of the file, each under
    its [Type] and with a positive bump wave length; nothing else of the
    track data changes, and it fails only for want of the file. *)
Theorem LoadSurfaces_appends_the_surface_sections (fs : FileSystem) (e : Env) :
  exists new,
    data (snd (LoadSurfaces fs e)) = set_surfaces (surfaces (data e) ++ new) (data e) /\
    surface_type <$> new =
      (fun sec => snd (get_value (strings (snd sec)) "Type" "")) <$> surface_sections fs /\
    Forall (fun t => (0 < bumpWaveLength t)%Q) new /\
    fst (LoadSurfaces fs e) = bool_decide (is_Some (surfaces_txt fs)).
Proof.
  unfold LoadSurfaces, surface_sections. destruct (surfaces_txt fs) as [param|]; cbn [fst snd].
  - destruct (LoadSurfaces_fold (children param) e) as (new & Hn & Hty & Hpos).
    exists new. cbv zeta in Hn. cbn [log_info data set_info_output]. rewrite Hn. auto.
  - exists []. rewrite app_nil_r. cbn. destruct (data e). repeat split. constructor.
Qed.

(** ** The start positions *)

Section StartPositionFacts.
Context {E : Externals}.

(** The result of the scan does not depend on the fuel. *)
Lemma scan_start_positions_fuel fuel1 : forall fuel2 info_ n f3 e e1 e2,
  scan_start_positions fuel1 info_ n f3 e = Ret e1 ->
  scan_start_positions fuel2 info_ n f3 e = Ret e2 -> e1 = e2.
Proof.
  induction fuel1 as [|fuel1 IH]; intros fuel2 info_ n f3 e e1 e2; [discriminate|].
  destruct fuel2 as [|fuel2]; [discriminate|]. cbn [scan_start_positions].
  destruct (get_vector info_ ("start position " +:+ pretty n) f3) as [[|] f3'];
    [|congruence].
  destruct (get_vector info_ ("start orientation " +:+ pretty n) _) as [found angle].
  apply IH.
Qed.

Lemma overwrite_full (v old : list Q) :
  List.length v = List.length old -> overwrite v old = v.
Proof.
  intros Hl. unfold overwrite. rewrite take_ge, drop_ge by lia. apply app_nil_r.
Qed.

Lemma scan_start_positions_found fuel info_ n f3 e v :
  vectors info_ !! ("start position " +:+ pretty n) = Some v ->
  List.length v = List.length f3 ->
  scan_start_positions (S fuel) info_ n f3 e =
    let '(found, angle) :=
      get_vector info_ ("start orientation " +:+ pretty n) [0%Q; 0%Q; 0%Q] in
    let e := if found then e else log_error "start orientation not found" e in
    let q :=
      if found then
        SetEulerZYX (nth 0 angle 0 * M_PI / 180)%Q (nth 1 angle 0 * M_PI / 180)%Q
          (nth 2 angle 0 * M_PI / 180)%Q
      else quat_identity in
    let orient : QUATERNION := (quat_at q 2, quat_at q 0, quat_at q 1, quat_at q 3) in
    let orient := quat_mul (Rotate M_PI_2 0 0 1 quat_identity) orient in
    scan_start_positions fuel info_ (S n) v
      (upd_data (fun d =>
         set_start_positions
           (push_back ((nth 2 v 0%Q, nth 0 v 0%Q, nth 1 v 0%Q), orient) (start_positions d)) d) e).
Proof.
  intros Hv Hl. cbn [scan_start_positions]. unfold get_vector at 1. rewrite Hv.
  rewrite (overwrite_full v f3 Hl). reflexivity.
Qed.

(** The scan over keys that are there up to a first gap. *)
Lemma scan_start_positions_run info_ n : forall k f3 e,
  List.length f3 = 3%nat -> (k <= n)%nat ->
  (forall i, (k <= i < n)%nat ->
     exists v, vectors info_ !! ("start position " +:+ pretty i) = Some v /\
               List.length v = 3%nat) ->
  vectors info_ !! ("start position " +:+ pretty n) = None ->
  exists e',
    scan_start_positions (S (n - k)) info_ k f3 e = Ret e' /\
    fst <$> start_positions (data e')
      = (fst <$> start_positions (data e)) ++ (start_position_of info_ <$> seq k (n - k)).
Proof.
  intros k. remember (n - k)%nat as j eqn:Hj. revert k Hj.
  induction j as [|j IH]; intros k Hj f3 e Hf3 Hk Hkeys Hgap.
  - assert (k = n) as -> by lia. cbn [scan_start_positions]. unfold get_vector at 1.
    rewrite Hgap. exists e. split; [reflexivity|]. cbn. rewrite app_nil_r. reflexivity.
  - destruct (Hkeys k) as (v & Hv & Hlen); [lia|].
    rewrite (scan_start_positions_found _ _ _ _ _ v Hv) by congruence.
    destruct (get_vector info_ ("start orientation " +:+ pretty k) _) as [found angle].
    cbv zeta.
    match goal with |- context [scan_start_positions (S j) info_ (S k) v ?e1] =>
      destruct (IH (S k) ltac:(lia) v e1 Hlen ltac:(lia)) as (e' & Hscan & Hpos)
    end.
    + intros i Hi. apply Hkeys. lia.
    + exact Hgap.
    + exists e'. split; [exact Hscan|]. rewrite Hpos.
      cbn [seq fmap list_fmap]. unfold start_position_of at 2. rewrite Hv. cbn [default].
      destruct found; cbn; unfold push_back; rewrite fmap_app, <- app_assoc; reflexivity.
Qed.

(** X12: the start positions are numbered from 0 without a gap: the keys
    [start position 0], [start position 1], ... are read up to the first
    one that is missing, and what lies behind a gap is not read.  The
    position of key [k] is its value with the components in the order
    third, first, second. *)
Theorem LoadStartPositions_reads_up_to_the_first_gap (info_ : PTree) (e : Env) (n : nat) :
  reverse (data e) = false ->
  (forall i, (i < n)%nat ->
     exists v, vectors info_ !! ("start position " +:+ pretty i) = Some v /\
               List.length v = 3%nat) ->
  vectors info_ !! ("start position " +:+ pretty n) = None ->
  exists e',
    LoadStartPositions info_ e = Ret (true, e') /\
    fst <$> start_positions (data e')
      = (fst <$> start_positions (data e)) ++ (start_position_of info_ <$> seq 0 n).
Proof.
  intros Hrev Hkeys Hgap.
  destruct (scan_start_positions_returns (S (size (vectors info_))) info_ 0
              [0%Q; 0%Q; 0%Q] e (vectors info_)) as (e1 & Hscan & Hkept); [reflexivity|lia|].
  destruct (scan_start_positions_run info_ n 0 [0%Q; 0%Q; 0%Q] e eq_refl ltac:(lia))
    as (e2 & Hrun & Hpos); [intros i Hi; apply Hkeys; lia|exact Hgap|].
  rewrite Nat.sub_0_r in Hrun, Hpos.
  pose proof (scan_start_positions_fuel _ _ _ _ _ _ _ _ Hscan Hrun) as ->.
  unfold LoadStartPositions. rewrite Hscan. cbn [mbind outcome_bind].
  destruct Hkept as (_ & _ & _ & _ & [sp Hsp]).
  assert (reverse (data e2) = false) as -> by (rewrite Hsp; exact Hrev).
  exists e2. split; [reflexivity|exact Hpos].
Qed.

End StartPositionFacts.

(** ** The walk writes distances, and nothing else *)

Lemma same_patches_refl roads_ : same_patches roads_ roads_.
Proof. split; reflexivity. Qed.

Lemma same_patches_trans r1 r2 r3 :
  same_patches r1 r2 -> same_patches r2 r3 -> same_patches r1 r3.
Proof. intros [H1 H2] [H3 H4]. split; [congruence|]. intros p. rewrite H4. apply H2. Qed.

Lemma same_patches_set roads_ p b d :
  get_patch roads_ p = Some b ->
  same_patches roads_ (set_patch roads_ p (BEZIER.set_dist d b)).
Proof.
  intros Hb. split; [unfold set_patch; apply length_alter|].
  intros q. destruct (decide (p = q)) as [<-|Hne].
  - rewrite (get_set_patch_eq _ _ _ _ Hb), Hb. reflexivity.
  - rewrite get_set_patch_ne by exact Hne. reflexivity.
Qed.

Lemma walk_same_patches fuel : forall start curr total count roads_ roads' n,
  walk fuel start curr total count roads_ = Ret (roads', n) ->
  same_patches roads_ roads' /\ count <= n <= count + Z.of_nat fuel /\
  get_patch roads' start = get_patch roads_ start.
Proof.
  induction fuel as [|fuel IH]; intros start curr total count roads_ roads' n;
    destruct curr as [c|]; cbn [walk];
    try (intros [= <- <-]; split; [apply same_patches_refl|split; [lia|reflexivity]]);
    (destruct (ptr_eqb c start) eqn:Hc;
     [intros [= <- <-]; split; [apply same_patches_refl|split; [lia|reflexivity]]|]);
    [discriminate|].
  destruct (get_patch roads_ c) as [b|] eqn:Hb; [|discriminate].
  intros Hw. apply IH in Hw as (Hs & Hn & Hst). split; [|split; [lia|]].
  - eapply same_patches_trans; [apply same_patches_set, Hb|exact Hs].
  - rewrite Hst. apply get_set_patch_ne. intros ->.
    assert (ptr_eqb start start = true) by (apply ptr_eqb_eq; reflexivity). congruence.
Qed.

(** X13: the walk along [next_patch] writes [dist_from_start] and nothing
    else: whenever it ends, the roads have the patches they had, each with
    its length, its link and its corner; the start patch is at distance 0,
    and the number of patches counted is at most the fuel. *)
Theorem distances_from_start_keeps_the_patches (fuel : nat) (start_patch : patch_ptr)
    (roads_ roads' : list ROADSTRIP) (n : Z) :
  distances_from_start fuel start_patch roads_ = Ret (roads', n) ->
  same_patches roads_ roads' /\
  BEZIER.dist_from_start <$> get_patch roads' start_patch = Some 0%Q /\
  0 <= n <= Z.of_nat fuel.
Proof.
  unfold distances_from_start.
  destruct (get_patch roads_ start_patch) as [b|] eqn:Hb; [|discriminate].
  intros Hw. apply walk_same_patches in Hw as (Hs & Hn & Hst).
  split; [|split; [|lia]].
  - eapply same_patches_trans; [apply same_patches_set, Hb|exact Hs].
  - rewrite Hst, (get_set_patch_eq _ _ _ _ Hb). reflexivity.
Qed.

(** ** The patch in front of the first start position *)

Section NearestAhead.
Variables bpos bdir : vec3.


(** The state of the search once the patches [seen] have been looked at. *)
Let found (seen : patch_ptr -> BEZIER.t -> Prop) (st : Q * option patch_ptr) : Prop :=
  (fst st <= inject_Z 10000000)%Q /\
  (forall q c, seen q c -> is_ahead bpos bdir c = true -> (fst st <= len2_to bpos c)%Q) /\
  match snd st with
  | Some p => exists b, seen p b /\ is_ahead bpos bdir b = true /\
                        len2_to bpos b = fst st /\ (fst st < inject_Z 10000000)%Q
  | None => fst st = inject_Z 10000000
  end.






End NearestAhead.

(** ** Lap sequences on roads that are not there *)




(** X12 at work: positions 0 and 1 are read, position 3 is not. *)
Lemma LoadStartPositions_reads_up_to_the_first_gap_witness :
  exists e',
    LoadStartPositions info_start_positions env_no_roads = Ret (true, e') /\
    fst <$> start_positions (data e')
      = (fst <$> start_positions (data env_no_roads))
        ++ (start_position_of info_start_positions <$> seq 0 2).
Proof.
  apply (LoadStartPositions_reads_up_to_the_first_gap info_start_positions env_no_roads 2);
    [reflexivity| |reflexivity].
  intros [|[|i]] Hi; [eexists; split; reflexivity..|lia].
Defined.

(** X13 at work: the ring of three patches. *)
Lemma distances_from_start_keeps_the_patches_witness :
  exists roads' n,
    distances_from_start 3 (0, 0)%nat [ring_of_three] = Ret (roads', n) /\
    same_patches [ring_of_three] roads' /\
    BEZIER.dist_from_start <$> get_patch roads' (0, 0)%nat = Some 0%Q /\
    0 <= n <= Z.of_nat 3.
Proof.
  eexists _, _. split; [reflexivity|].
  apply (distances_from_start_keeps_the_patches 3 (0, 0)%nat [ring_of_three]).
  reflexivity.
Defined.


(** ** Paths, static shapes and what a load keeps *)

Lemma substring_0_S n c s : String.substring 0 (S n) (String c s) = String c (String.substring 0 n s).
Proof. reflexivity. Qed.

(** [rfind] gives the last slash. *)
Lemma rfind_slash_spec s :
  match rfind_slash s with
  | Some n => exists base, s = String.substring 0 (n + 1) s +:+ base /\ has_slash base = false /\
                String.get n s = Some "/"%char
  | None => has_slash s = false
  end.
Proof.
  induction s as [|c s IH]; cbn [rfind_slash has_slash]; [reflexivity|].
  destruct (rfind_slash s) as [n|].
  - destruct IH as (base & Hs & Hb & Hg). exists base. cbn [Nat.add].
    rewrite substring_0_S, append_cons. split; [f_equal; exact Hs|]. split; [exact Hb|exact Hg].
  - destruct (Ascii.eqb c "/"%char) eqn:Hc.
    + apply Ascii.eqb_eq in Hc as ->. exists s. cbn [Nat.add].
      rewrite substring_0_S. split; [destruct s; reflexivity|]. split; [exact IH|reflexivity].
    + cbn [orb]. exact IH.
Qed.

Lemma substring_snoc s : forall n c,
  String.get n s = Some c ->
  String.substring 0 (n + 1) s = String.substring 0 n s +:+ String c "".
Proof.
  induction s as [|a s IH]; intros n c; [destruct n; discriminate|].
  destruct n as [|n]; cbn [String.get Nat.add].
  - intros [= ->]. rewrite substring_0_S. destruct s; reflexivity.
  - intros Hg. rewrite !substring_0_S, append_cons, (IH _ _ Hg). reflexivity.
Qed.

(** X16: the path [LoadBody] puts before the model name of a section that is
    not a body reference is the directory part of the section's name: the
    name up to its last slash, the slash included, and nothing when the
    name holds no slash.  A body reference gets no path. *)
Theorem rel_path_is_the_directory_of_the_section (cfg : PTree) :
  if is_body_reference cfg then rel_path cfg = ""
  else exists base,
         value cfg = rel_path cfg +:+ base /\ has_slash base = false /\
         if has_slash (value cfg) then exists dir, rel_path cfg = dir +:+ "/"
         else rel_path cfg = "".
Proof.
  unfold is_body_reference, rel_path.
  assert (exists base,
            value cfg = match rfind_slash (value cfg) with
                        | Some npos => String.substring 0 (npos + 1) (value cfg)
                        | None => ""
                        end +:+ base /\ has_slash base = false /\
            if has_slash (value cfg)
            then exists dir, match rfind_slash (value cfg) with
                             | Some npos => String.substring 0 (npos + 1) (value cfg)
                             | None => ""
                             end = dir +:+ "/"
            else match rfind_slash (value cfg) with
                 | Some npos => String.substring 0 (npos + 1) (value cfg)
                 | None => ""
                 end = "") as Hdir.
  { pose proof (rfind_slash_spec (value cfg)) as H.
    destruct (rfind_slash (value cfg)) as [n|].
    - destruct H as (base & Hs & Hb & Hg). exists base. split; [exact Hs|]. split; [exact Hb|].
      assert (has_slash (value cfg) = true) as ->.
      { clear -Hg. revert n Hg. induction (value cfg) as [|a s IH]; intros n Hg;
          [destruct n; discriminate|].
        destruct n as [|n]; cbn in *.
        - injection Hg as ->. reflexivity.
        - rewrite (IH _ Hg). apply orb_true_r. }
      eexists. apply substring_snoc, Hg.
    - exists (value cfg). rewrite append_nil, H. auto. }
  destruct (String.eqb (value cfg) "body"), (parent cfg) as [p|]; cbn [andb bool_decide];
    first [reflexivity | exact Hdir].
Qed.

Section ShapeFacts.
Context {E : Externals}.

(** X17: for a body without mass [LoadShape] hangs the triangle mesh on a
    surface of the table whenever the table is not empty and the authored
    index is not negative: the authored surface if the table has it,
    surface 0 if the index is too large or not given. *)
Theorem LoadShape_static_surface_in_the_table (cfg : PTree) (m : MODEL.t) (body : BODY)
    (d : DATA) :
  let authored := snd (get_value (ints cfg) "surface" 0) in
  let i := if authored <? Z.of_nat (List.length (surfaces d)) then authored else 0 in
  (mass body < static_threshold)%Q ->
  VERTEXARRAY.GetNumFaces (MODEL.GetVertexArray m) mod 3 = 0 ->
  surfaces d <> [] -> Z.of_nat (List.length (surfaces d)) <= INT_MAX ->
  0 <= authored ->
  exists mesh body' d',
    LoadShape cfg m body d = Ret (body', d') /\
    GetIndexedMesh m = Ret mesh /\
    shape body' = Some (btBvhTriangleMeshShape mesh (Some i)) /\
    body_mesh body' = Some mesh /\
    is_Some (surfaces d !! Z.to_nat i) /\
    meshes d' = meshes d ++ [mesh] /\
    shapes d' = shapes d ++ [btBvhTriangleMeshShape mesh (Some i)].
Proof.
  intros authored i Hm Hf Hne Hmax Ha.
  unfold LoadShape, GetIndexedMesh. apply Qltb_lt in Hm. rewrite Hm.
  apply Z.eqb_eq in Hf. rewrite Hf. expose. cbv beta iota.
  change (surfaces (set_meshes _ d)) with (surfaces d).
  rewrite wrap_int_small by (unfold INT_MIN; lia). fold authored.
  assert (0 < Z.of_nat (List.length (surfaces d))) as Hpos
    by (destruct (surfaces d); [congruence|cbn; lia]).
  assert ((if authored >=? Z.of_nat (List.length (surfaces d)) then 0 else authored) = i) as ->.
  { subst i. destruct (Z.ltb_spec authored (Z.of_nat (List.length (surfaces d))));
      destruct (Z.geb_spec authored (Z.of_nat (List.length (surfaces d)))); lia. }
  assert (0 <= i < Z.of_nat (List.length (surfaces d))) as Hi
    by (subst i; destruct (Z.ltb_spec authored (Z.of_nat (List.length (surfaces d)))); lia).
  destruct (vector_at_in_bounds (surfaces d) i) as [x Hx]; [lia|].
  rewrite Hx. eexists _, _, _. split; [reflexivity|]. cbn.
  repeat split; try reflexivity.
  apply lookup_lt_is_Some. lia.
Qed.

End ShapeFacts.

Section InStep.
Context {E : Externals}.

Lemma in_step_refl e e' :
  objects (data e') = objects (data e) -> world e' = world e -> in_step e e'.
Proof. intros Ho Hw. exists []. rewrite !app_nil_r. auto. Qed.

Lemma in_step_trans e1 e2 e3 : in_step e1 e2 -> in_step e2 e3 -> in_step e1 e3.
Proof.
  intros (n1 & Ho1 & Hw1) (n2 & Ho2 & Hw2). exists (n1 ++ n2).
  rewrite Ho2, Hw2, Ho1, Hw1, !app_assoc. auto.
Qed.

Lemma in_step_add_object o e e0 :
  objects (data e0) = objects (data e) -> world e0 = world e -> in_step e (add_object o e0).
Proof. intros Ho Hw. exists [o]. cbn. unfold push_back. rewrite Ho, Hw. auto. Qed.

Lemma AddObject_in_step object e ok e' :
  AddObject object e = Ret (ok, e') -> in_step e e'.
Proof.
  unfold AddObject, GetIndexedMesh. repeat case_step; try discriminate;
    intros [= <- <-];
    first [apply in_step_add_object; reflexivity | apply in_step_refl; reflexivity].
Qed.

Lemma LoadNode_in_step cf pl pk sec b e ok b' e' :
  LoadNode cf pl pk sec b e = Ret (ok, b', e') -> in_step e e'.
Proof.
  unfold LoadNode. destruct (get_section sec "body") as [sec_body|].
  2: { intros [= <- <- <-]. apply in_step_refl; reflexivity. }
  expose. destruct (LoadBody cf pl pk sec_body b e) as [[[ib b1] e1]| | |] eqn:Hb;
    try discriminate.
  apply LoadBody_spec in Hb as (Ho & Hw & _).
  destruct ib as [[name body]|].
  2: { intros [= <- <- <-]. apply in_step_refl; assumption. }
  repeat case_step; try discriminate; intros [= <- <- <-];
    first [apply in_step_refl; assumption
          | eexists; cbn; unfold push_back; rewrite ?Ho, ?Hw; split; reflexivity].
Qed.

Lemma load_object_in_step cf name object l err more l' :
  load_object cf name object l = Ret (err, more, l') -> in_step (env l) (env l').
Proof.
  unfold load_object.
  destruct (if packload l then _ else _) as [model_ c].
  destruct (agressive_combining cf).
  - unfold merge_into, register_combined. repeat case_step; try discriminate;
      intros [= <- <- <-]; apply in_step_refl; reflexivity.
  - expose. destruct (AddObject _ _) as [[ok e1]| | |] eqn:Ha; try discriminate.
    apply AddObject_in_step in Ha.
    destruct ok; intros [= <- <- <-]; exact Ha.
Qed.

Lemma ContinueObjectLoad_in_step cf l err more l' :
  ContinueObjectLoad cf l = Ret (err, more, l') -> in_step (env l) (env l').
Proof.
  unfold ContinueObjectLoad. destruct (error l).
  { intros [= <- <- <-]. apply in_step_refl; reflexivity. }
  destruct (list_ l).
  - unfold ContinueOld. destruct (get_string (objectfile l) "") as [[ok model_name] f].
    destruct (negb ok).
    { intros [= <- <- <-]. apply in_step_refl; reflexivity. }
    destruct (read_record _ _ f) as [[object isashadow] f1].
    destruct (dynamic_shadows cf && isashadow).
    { intros [= <- <- <-]. apply in_step_refl; reflexivity. }
    intros H. apply load_object_in_step in H. exact H.
  - unfold Continue. destruct (nodes l) as [nodes_|]; [|discriminate].
    destruct (nodes_ !! node_it l) as [[name sec]|].
    2: { intros [= <- <- <-]. apply in_step_refl; reflexivity. }
    expose. destruct (LoadNode _ _ _ sec _ _) as [[[ok b1] e1]| | |] eqn:Hn; try discriminate.
    apply LoadNode_in_step in Hn.
    destruct ok; intros [= <- <- <-]; exact Hn.
Qed.

Lemma add_combined_in_step entries : forall l l',
  add_combined entries l = Ret l' -> in_step (env l) (env l').
Proof.
  induction entries as [|[key object] rest IH]; intros l l'; cbn [add_combined].
  { intros [= <-]. apply in_step_refl; reflexivity. }
  destruct (deref (content (env l)) (model object)) as [m|]; [|discriminate].
  expose.
  destruct (if negb (MODEL.HaveMeshMetrics m) then _ else _) as [[object1 l1]| | |] eqn:Hc;
    try discriminate.
  assert (objects (data (env l1)) = objects (data (env l)) /\ world (env l1) = world (env l))
    as [Ho Hw].
  { destruct (negb (MODEL.HaveMeshMetrics m)); [|injection Hc as <- <-; auto].
    unfold content_load_varray in Hc. revert Hc. repeat case_step; try discriminate;
      intros [= <- <-]; auto. }
  destruct (AddObject object1 (env l1)) as [[ok e1]| | |] eqn:Ha; try discriminate.
  apply AddObject_in_step in Ha. intros Hr. apply IH in Hr. cbn in Hr.
  eapply in_step_trans; [|exact Hr].
  eapply in_step_trans; [apply in_step_refl; eassumption|exact Ha].
Qed.

(** X18: the collision objects of a track are in the physics world, and those
    only: whatever a call of [ContinueLoad] adds to [data.objects] it adds
    to the world, in the same order, whether the object comes from a node
    of the modern tree, from a record of the legacy list or from a
    combined mesh; and it removes none. *)
Theorem ContinueLoad_keeps_objects_and_world_in_step (cf : Config) (l l' : LOADER)
    (ok : bool) :
  ContinueLoad cf l = Ret (ok, l') -> in_step (env l) (env l').
Proof.
  unfold ContinueLoad. destruct (loaded (data (env l))).
  { intros [= <- <-]. apply in_step_refl; reflexivity. }
  expose. destruct (ContinueObjectLoad cf l) as [[[err more] l1]| | |] eqn:Hc; try discriminate.
  apply ContinueObjectLoad_in_step in Hc.
  destruct err; [intros [= <- <-]; exact Hc|].
  destruct (negb more); [|intros [= <- <-]; exact Hc].
  destruct (if agressive_combining cf then _ else _) as [l2| | |] eqn:Hf; try discriminate.
  intros [= <- <-].
  assert (in_step (env l1) (env l2)) as H2.
  { destruct (agressive_combining cf); [exact (add_combined_in_step _ _ _ Hf)|].
    injection Hf as <-. apply in_step_refl; reflexivity. }
  eapply in_step_trans; [exact Hc|]. eapply in_step_trans; [exact H2|].
  apply in_step_refl; reflexivity.
Qed.

End InStep.

Section DynamicBodies.
Context {E : Externals}.

(** What [LoadBody] leaves alone. *)
Lemma LoadBody_frame cf pl pk cfg bodies_ e r bodies' e' :
  LoadBody cf pl pk cfg bodies_ e = Ret (r, bodies', e') ->
  objects (data e') = objects (data e) /\
  body_transforms (data e') = body_transforms (data e) /\
  body_nodes (data e') = body_nodes (data e) /\
  dynamic_node (data e') = dynamic_node (data e).
Proof.
  unfold LoadBody.
  destruct (get_value (strings cfg) "texture" "") as [has_texture ?].
  destruct (get_value (strings cfg) "model" "") as [has_model model_name].
  set (e0 := if has_model then _ else _).
  assert (data e0 = data e) as H0 by (subst e0; destruct has_model, has_texture; reflexivity).
  clearbody e0.
  destruct (dynamic_shadows cf && _).
  { intros [= <- <- <-]. rewrite H0. auto. }
  destruct (LoadModel pl pk _ e0) as [[|] e1] eqn:Hmodel.
  2: { revert Hmodel. unfold LoadModel. repeat case_step; intros [= <-] [= <- <- <-];
       cbn; rewrite H0; auto. }
  assert (objects (data e1) = objects (data e) /\
          body_transforms (data e1) = body_transforms (data e) /\
          body_nodes (data e1) = body_nodes (data e) /\
          dynamic_node (data e1) = dynamic_node (data e)) as H1.
  { revert Hmodel. unfold LoadModel. repeat case_step; intros [= <-]; cbn; rewrite H0; auto. }
  clear Hmodel.
  destruct (mjoin (last (models (data e1))) ≫= _) as [model_|]; [|discriminate].
  destruct (get_value (floats cfg) "mass" _) as [collidable_ mass_].
  expose.
  destruct (if collidable_ then _ else _) as [[body1 d1]| | |] eqn:Hs; try discriminate.
  assert (objects d1 = objects (data e1) /\ body_transforms d1 = body_transforms (data e1) /\
          body_nodes d1 = body_nodes (data e1) /\ dynamic_node d1 = dynamic_node (data e1)) as H2.
  { destruct collidable_; [|injection Hs as <- <-; auto].
    revert Hs. unfold LoadShape, GetIndexedMesh. repeat case_step; try discriminate;
      intros [= <- <-]; cbn; auto. }
  destruct H1 as (? & ? & ? & ?), H2 as (? & ? & ? & ?).
  destruct (bodies_ !! body_name cfg); intros [= <- <- <-]; cbn; repeat split; congruence.
Qed.

Lemma seq_snoc (k n : nat) : seq k (S n) = seq k n ++ [(k + n)%nat].
Proof. rewrite <- Nat.add_1_r, seq_app. reflexivity. Qed.

Lemma LoadNode_dynamic_bodies cf pl pk sec b e ok b' e' :
  dynamic_bodies_agree (data e) ->
  LoadNode cf pl pk sec b e = Ret (ok, b', e') -> dynamic_bodies_agree (data e').
Proof.
  intros (Hms & Hnodes & Hlen). unfold LoadNode.
  destruct (get_section sec "body") as [sec_body|].
  2: { intros [= <- <- <-]. repeat split; assumption. }
  expose. destruct (LoadBody cf pl pk sec_body b e) as [[[ib b1] e1]| | |] eqn:Hb;
    try discriminate.
  apply LoadBody_frame in Hb as (Ho & Ht & Hn & Hd).
  rewrite <- Ho, <- Ht, <- Hn, <- Hd in *. clear Ho Ht Hn Hd.
  destruct ib as [[name body]|].
  2: { intros [= <- <- <-]. repeat split; assumption. }
  unfold dynamic_bodies_agree.
  repeat case_step; try discriminate; intros [= <- <- <-]; cbn; unfold push_back;
    rewrite ?omap_app, ?length_app, ?Hms; cbn;
    rewrite ?app_nil_r, ?Nat.add_1_r, ?seq_snoc, <- ?Hnodes, ?Hlen;
    repeat split; try assumption; try reflexivity; try lia.
Qed.

Lemma AddObject_dynamic_bodies object e ok e' :
  dynamic_bodies_agree (data e) ->
  AddObject object e = Ret (ok, e') -> dynamic_bodies_agree (data e').
Proof.
  intros (Hms & Hnodes & Hlen). unfold AddObject, GetIndexedMesh, dynamic_bodies_agree.
  repeat case_step; try discriminate; intros [= <- <-]; cbn; unfold push_back;
    rewrite ?omap_app, ?Hms; cbn; rewrite ?app_nil_r; auto.
Qed.

Lemma load_object_dynamic_bodies cf name object l err more l' :
  dynamic_bodies_agree (data (env l)) ->
  load_object cf name object l = Ret (err, more, l') -> dynamic_bodies_agree (data (env l')).
Proof.
  intros Hd. unfold load_object.
  destruct (if packload l then _ else _) as [model_ c].
  destruct (agressive_combining cf).
  - unfold merge_into, register_combined. repeat case_step; try discriminate;
      intros [= <- <- <-]; exact Hd.
  - expose. destruct (AddObject _ _) as [[ok e1]| | |] eqn:Ha; try discriminate.
    apply AddObject_dynamic_bodies in Ha; [|exact Hd].
    destruct ok; intros [= <- <- <-]; exact Ha.
Qed.

Lemma add_combined_dynamic_bodies entries : forall l l',
  dynamic_bodies_agree (data (env l)) ->
  add_combined entries l = Ret l' -> dynamic_bodies_agree (data (env l')).
Proof.
  induction entries as [|[key object] rest IH]; intros l l' Hd; cbn [add_combined].
  { intros [= <-]. exact Hd. }
  destruct (deref (content (env l)) (model object)) as [m|]; [|discriminate].
  expose.
  destruct (if negb (MODEL.HaveMeshMetrics m) then _ else _) as [[object1 l1]| | |] eqn:Hc;
    try discriminate.
  assert (data (env l1) = data (env l)) as H1.
  { destruct (negb (MODEL.HaveMeshMetrics m)); [|injection Hc as <- <-; auto].
    unfold content_load_varray in Hc. revert Hc. repeat case_step; try discriminate;
      intros [= <- <-]; auto. }
  destruct (AddObject object1 (env l1)) as [[ok e1]| | |] eqn:Ha; try discriminate.
  apply AddObject_dynamic_bodies in Ha; [|rewrite H1; exact Hd].
  intros Hr. apply IH in Hr; [exact Hr|exact Ha].
Qed.

(** X19: a call of [ContinueLoad] keeps the three records of the bodies that
    move in agreement: the motion states of the rigid bodies among the
    objects are [body_transforms], in order, [body_nodes] holds the handles
    of the children of the dynamic node, in order, and there are as many of
    the one as of the other. *)
Theorem ContinueLoad_keeps_the_dynamic_bodies_in_agreement (cf : Config) (l l' : LOADER)
    (ok : bool) :
  dynamic_bodies_agree (data (env l)) ->
  ContinueLoad cf l = Ret (ok, l') -> dynamic_bodies_agree (data (env l')).
Proof.
  intros Hd. unfold ContinueLoad. destruct (loaded (data (env l))).
  { intros [= <- <-]. exact Hd. }
  expose. destruct (ContinueObjectLoad cf l) as [[[err more] l1]| | |] eqn:Hc; try discriminate.
  assert (dynamic_bodies_agree (data (env l1))) as H1.
  { revert Hc. unfold ContinueObjectLoad. destruct (error l); [intros [= <- <- <-]; exact Hd|].
    destruct (list_ l).
    - unfold ContinueOld. destruct (get_string (objectfile l) "") as [[ok1 model_name] f].
      destruct (negb ok1); [intros [= <- <- <-]; exact Hd|].
      destruct (read_record _ _ f) as [[object isashadow] f1].
      destruct (dynamic_shadows cf && isashadow); [intros [= <- <- <-]; exact Hd|].
      apply load_object_dynamic_bodies. exact Hd.
    - unfold Continue. destruct (nodes l) as [nodes_|]; [|discriminate].
      destruct (nodes_ !! node_it l) as [[name sec]|]; [|intros [= <- <- <-]; exact Hd].
      expose. destruct (LoadNode _ _ _ sec _ _) as [[[ok1 b1] e1]| | |] eqn:Hn;
        try discriminate.
      apply (LoadNode_dynamic_bodies _ _ _ _ _ _ _ _ _ Hd) in Hn.
      destruct ok1; intros [= <- <- <-]; exact Hn. }
  clear Hc. destruct err; [intros [= <- <-]; exact H1|].
  destruct (negb more); [|intros [= <- <-]; exact H1].
  destruct (if agressive_combining cf then _ else _) as [l2| | |] eqn:Hf; try discriminate.
  intros [= <- <-].
  assert (dynamic_bodies_agree (data (env l2))) as H2.
  { destruct (agressive_combining cf); [exact (add_combined_dynamic_bodies _ _ _ H1 Hf)|].
    injection Hf as <-. exact H1. }
  exact H2.
Qed.

End DynamicBodies.

(** X17 at work: a static body on the third of three surfaces. *)
Lemma LoadShape_static_surface_in_the_table_witness :
  exists mesh body' d',
    LoadShape cfg_surface_two triangle static_body data_three_surfaces = Ret (body', d') /\
    GetIndexedMesh triangle = Ret mesh /\
    shape body' = Some (btBvhTriangleMeshShape mesh (Some 2)) /\
    body_mesh body' = Some mesh /\
    is_Some (surfaces data_three_surfaces !! Z.to_nat 2) /\
    meshes d' = meshes data_three_surfaces ++ [mesh] /\
    shapes d' = shapes data_three_surfaces ++ [btBvhTriangleMeshShape mesh (Some 2)].
Proof.
  apply (LoadShape_static_surface_in_the_table cfg_surface_two triangle static_body
           data_three_surfaces);
    [reflexivity|reflexivity|discriminate|vm_compute; discriminate|vm_compute; discriminate].
Defined.

(** X18 at work: the first wall of the list. *)
Lemma ContinueLoad_keeps_objects_and_world_in_step_witness :
  exists ok l',
    ContinueLoad config_new (begun fs_walls loader_walls) = Ret (ok, l') /\
    in_step (env (begun fs_walls loader_walls)) (env l').
Proof.
  eexists _, _. split; [vm_compute; reflexivity|].
  apply (ContinueLoad_keeps_objects_and_world_in_step config_new
           (begun fs_walls loader_walls) _ true).
  vm_compute; reflexivity.
Defined.

(** X19 at work: the movable crate of a modern tree. *)
Lemma ContinueLoad_keeps_the_dynamic_bodies_in_agreement_witness :
  let l := @begun still_externals no_files loader_crate in
  exists ok l',
    @ContinueLoad still_externals config_new l = Ret (ok, l') /\
    dynamic_bodies_agree (data (env l')).
Proof.
  eexists _, _. split; [vm_compute; reflexivity|].
  apply (@ContinueLoad_keeps_the_dynamic_bodies_in_agreement still_externals config_new
           (@begun still_externals no_files loader_crate) _ true).
  - repeat split.
  - vm_compute; reflexivity.
Defined.

(** ** The records of the legacy list *)

Section ListFacts.

Lemma blank_boundary ws s : blank ws -> ws +:+ s <> "" /\ at_boundary (ws +:+ s) = true.
Proof.
  intros [Hne Hws]. destruct ws as [|c ws]; [congruence|]. rewrite append_cons.
  split; [discriminate|]. cbn in *. destruct (isspace c); [reflexivity|discriminate].
Qed.

Lemma text_of_boundary items rest :
  Forall spaced items -> blank rest ->
  text_of items rest <> "" /\ at_boundary (text_of items rest) = true.
Proof.
  intros Hi Hr. destruct items as [|[ws tok] items]; cbn [text_of fold_right fst snd].
  - destruct Hr as [Hne Hws]. split; [exact Hne|]. destruct rest as [|c r]; [congruence|].
    cbn in *. destruct (isspace c); [reflexivity|discriminate].
  - inversion Hi as [|? ? [Hb _] _]; subst. apply blank_boundary, Hb.
Qed.

Lemma get_text_cons ws tok items rest :
  spaced (ws, tok) -> Forall spaced items -> blank rest ->
  get (stream_of (text_of ((ws, tok) :: items) rest))
  = (Some tok, stream_of (text_of items rest)).
Proof.
  intros [[_ Hws] (Hne & Hsp & Hc)] Hi Hr.
  destruct (text_of_boundary items rest Hi Hr) as [Hn Hb'].
  cbn [text_of fold_right fst snd]. fold (text_of items rest).
  rewrite (get_plain ws tok _ Hws Hne Hsp Hc Hb').
  destruct (text_of items rest); [congruence|reflexivity].
Qed.

Lemma get_text_nil rest : blank rest -> get (stream_of rest) = (None, spent).
Proof.
  intros [_ Hr]. unfold get. change (good (stream_of rest)) with true. cbv iota.
  unfold extract. change (good (stream_of rest)) with true. cbv iota.
  change (buf (stream_of rest)) with rest. rewrite Hr. reflexivity.
Qed.

Lemma get_spent : get spent = (None, spent).
Proof. reflexivity. Qed.

Lemma get_junk_spent n : get_junk n spent = spent.
Proof. induction n as [|n IH]; [reflexivity|]. cbn [get_junk]. rewrite get_spent. exact IH. Qed.

(** Tokens that are dropped: as many as asked for, or all there are. *)
Lemma get_junk_text rest :
  blank rest ->
  forall n items, Forall spaced items ->
  get_junk n (stream_of (text_of items rest)) =
    if (n <=? List.length items)%nat then stream_of (text_of (drop n items) rest) else spent.
Proof.
  intros Hr. induction n as [|n IH]; intros items Hp; [reflexivity|].
  destruct items as [|[ws tok] items]; cbn [get_junk].
  - cbn [text_of fold_right]. rewrite (get_text_nil rest Hr). cbn [snd].
    apply get_junk_spent.
  - inversion Hp as [|? ? Ht Hts]; subst.
    rewrite (get_text_cons ws tok items rest Ht Hts Hr). cbn [snd]. rewrite (IH items Hts).
    reflexivity.
Qed.

Lemma text_of_length items rest :
  Forall spaced items -> (List.length items <= String.length (text_of items rest))%nat.
Proof.
  induction 1 as [|[ws tok] items [[Hne _] _] _ IH];
    cbn [text_of fold_right List.length String.length fst snd]; [lia|].
  fold (text_of items rest). rewrite !string_length_app.
  cbn in Hne. destruct ws; [congruence|]. cbn [String.length]. lia.
Qed.

(** The pre-scan over the tokens of the records. *)
Lemma count_objects_text rest p :
  blank rest -> 1 <= p ->
  forall fuel items num, Forall spaced items -> (List.length items < fuel)%nat ->
  count_objects fuel p (stream_of (text_of items rest)) num
  = Ret (num + (Z.of_nat (List.length items) + p - 1) / p).
Proof.
  intros Hr Hp. induction fuel as [|fuel IH]; intros items num Hpl Hlen; [lia|].
  cbn [count_objects]. destruct items as [|[ws tok] items].
  - cbn [text_of fold_right]. rewrite (get_text_nil rest Hr). f_equal. cbn [List.length].
    rewrite Z.div_small; lia.
  - inversion Hpl as [|? ? Ht Hts]; subst.
    rewrite (get_text_cons ws tok items rest Ht Hts Hr).
    rewrite (get_junk_text rest Hr _ items Hts).
    cbn [List.length] in *.
    destruct (Nat.leb_spec (Z.to_nat (p - 1)) (List.length items)) as [Hle|Hgt].
    + rewrite IH; [|apply Forall_drop, Hts|rewrite length_drop; lia].
      f_equal. rewrite length_drop.
      replace (Z.of_nat (S (List.length items)) + p - 1)
        with (Z.of_nat (List.length items - Z.to_nat (p - 1)) + p - 1 + 1 * p) by lia.
      rewrite Z.div_add by lia. lia.
    + destruct fuel as [|fuel]; [lia|]. cbn [count_objects]. rewrite get_spent.
      f_equal.
      assert ((Z.of_nat (S (List.length items)) + p - 1) / p = 1) as ->; [|reflexivity].
      symmetry. apply (Z.div_unique _ _ 1 (Z.of_nat (S (List.length items)) - 1)); lia.
Qed.

(** X20: the pre-scan of the legacy list counts the records by their tokens:
    behind the header, which declares [p] fields per object, [n] tokens
    make [n / p] objects, rounded up, so that a last record which is cut
    short counts as an object. *)
Theorem CalculateNumOld_counts_the_records (fs : FileSystem) (header rest : string)
    (items : list (string * string)) :
  plain header -> 1 <= to_int header ->
  Forall spaced items -> blank rest ->
  list_txt fs = Some (header +:+ text_of items rest) ->
  CalculateNumOld fs
  = Ret ((Z.of_nat (List.length items) + to_int header - 1) / to_int header).
Proof.
  intros (Hne & Hsp & Hc) Hp Hpl Hr Hf.
  destruct (text_of_boundary items rest Hpl Hr) as [Hn Hb'].
  unfold CalculateNumOld, get_int. rewrite Hf.
  change (open (Some (header +:+ text_of items rest)))
    with (stream_of ("" +:+ header +:+ text_of items rest)).
  rewrite (get_plain "" header _ eq_refl Hne Hsp Hc Hb').
  assert (is_empty (text_of items rest) = false) as ->
    by (destruct (text_of items rest); [congruence|reflexivity]).
  change (mkStream (text_of items rest) false false) with (stream_of (text_of items rest)).
  rewrite (count_objects_text rest _ Hr Hp); [reflexivity|exact Hpl|].
  pose proof (text_of_length items rest Hpl). cbn [buf stream_of]. lia.
Qed.

Ltac next_token Hr :=
  match goal with
  | H : Forall spaced (?item :: ?items) |- _ =>
      let Ht := fresh "Ht" in let Hts := fresh "Hts" in
      inversion H as [|? ? Ht Hts]; subst; clear H;
      destruct item as [? ?];
      rewrite (get_text_cons _ _ _ _ Ht Hts Hr); cbv beta iota; cbn [snd get_junk]
  end.

(** X21: a record of the legacy list is the model name and sixteen fields,
    of which [ContinueOld] keeps nine: the texture (field 1), mipmap (2),
    nolighting (3), skybox (4), transparent_blend (5), collideable (9),
    isashadow (14), clamptexture (15) and surface (16); the others are
    read and dropped, and the stream is left before the next record.  A
    record that is a shadow is dropped as a whole when dynamic shadows are
    on. *)
Theorem ContinueOld_reads_a_record `{Externals} (cf : Config) (l : LOADER)
    (ws model_name rest : string) (items more : list (string * string)) :
  params_per_object l = expected_params l ->
  spaced (ws, model_name) -> Forall spaced items -> List.length items = 16%nat ->
  Forall spaced more -> blank rest ->
  objectfile l = stream_of (text_of ((ws, model_name) :: items ++ more) rest) ->
  ContinueOld cf l =
    let l1 := with_objectfile (stream_of (text_of more rest)) l in
    if dynamic_shadows cf && shadow_of items then Ret (false, true, l1)
    else load_object cf model_name (object_of items) l1.
Proof.
  intros Hp Hm Hi Hlen Hmore Hr Hf. unfold ContinueOld, get_string. rewrite Hf.
  assert (Forall spaced (items ++ more)) as Him by (apply Forall_app; auto).
  rewrite (get_text_cons _ _ _ _ Hm Him Hr). cbn [negb].
  unfold read_record, get_string, get_bool, get_int. rewrite Hp, Z.sub_diag.
  change (Z.to_nat 0) with 0%nat.
  do 16 (destruct items as [|? items]; [discriminate|]).
  destruct items; [|discriminate]. clear Hi Hlen. cbn [app] in Him |- *.
  do 16 next_token Hr.
  reflexivity.
Qed.

End ListFacts.

(** X20 at work: 34 tokens behind the header 17 make two objects. *)
Lemma CalculateNumOld_counts_the_records_witness :
  CalculateNumOld fs_walls = Ret ((34 + 17 - 1) / 17).
Proof.
  apply (CalculateNumOld_counts_the_records fs_walls "17" line_end
           ((line_end, "wall.joe") :: wall_fields ++ fence_record));
    [repeat constructor; discriminate|vm_compute; discriminate
    |repeat constructor; discriminate|repeat constructor; discriminate|reflexivity].
Defined.

(** X21 at work: the first record of the list of walls. *)
Lemma ContinueOld_reads_a_record_witness :
  ContinueOld config_new (begun fs_walls loader_walls) =
    load_object config_new "wall.joe" wall_object
      (with_objectfile (stream_of (text_of fence_record line_end))
         (begun fs_walls loader_walls)).
Proof.
  apply (ContinueOld_reads_a_record config_new (begun fs_walls loader_walls) line_end
           "wall.joe" line_end wall_fields fence_record);
    [reflexivity|repeat constructor; discriminate|repeat constructor; discriminate
    |reflexivity|repeat constructor; discriminate|repeat constructor; discriminate
    |reflexivity].
Defined.

(** ** What a record adds to the track *)

Section LegacyObjects.
Context {E : Externals}.


(** What [AddObject] adds. *)
Lemma AddObject_adds object e ok e' :
  AddObject object e = Ret (ok, e') ->
  models (data e') = models (data e) ++ [model object] /\
  drawn (static_node (data e')) = S (drawn (static_node (data e))) /\
  childnodes (static_node (data e')) = childnodes (static_node (data e)) /\
  content e' = content e /\ surfaces (data e') = surfaces (data e) /\
  if collideable object then
    exists mesh,
      let sh := btBvhTriangleMeshShape mesh (Some (surface object)) in
      meshes (data e') = meshes (data e) ++ [mesh] /\
      shapes (data e') = shapes (data e) ++ [sh] /\
      objects (data e') = objects (data e) ++ [static_object None sh] /\
      world e' = world e ++ [static_object None sh] /\
      is_Some (vector_at (surfaces (data e)) (surface object))
  else
    meshes (data e') = meshes (data e) /\ shapes (data e') = shapes (data e) /\
    objects (data e') = objects (data e) /\ world e' = world e.
Proof.
  unfold AddObject, GetIndexedMesh, drawn. destruct (collideable object);
    repeat case_step; try discriminate; intros [= <- <-]; cbn; unfold push_back;
    rewrite ?length_app; cbn; rewrite ?Nat.add_1_r;
    repeat split; try reflexivity; eauto 10.
Qed.

(** X23: without combining, a record of the legacy list becomes one object of
    the track, provided its model resolves: [load_object] gives the track
    the handle of the model and one drawable on the static node, and, if
    the object is collideable, one mesh, one shape hung on the surface the
    record names, and one collision object, which is added to the world as
    well.  Nothing is added for an object that is not collideable but the
    model and the drawable. *)
Theorem load_object_adds_one_object (cf : Config) (name : string) (object : OBJECT)
    (l l' : LOADER) (err more : bool) :
  agressive_combining cf = false ->
  load_object cf name object l = Ret (err, more, l') ->
  err = false /\ more = true /\
  exists h,
    content_get name (content (env l')) = Some h /\
    models (data (env l')) = models (data (env l)) ++ [Some h] /\
    drawn (static_node (data (env l'))) = S (drawn (static_node (data (env l)))) /\
    if collideable object then
      exists mesh,
        let sh := btBvhTriangleMeshShape mesh (Some (surface object)) in
        meshes (data (env l')) = meshes (data (env l)) ++ [mesh] /\
        shapes (data (env l')) = shapes (data (env l)) ++ [sh] /\
        objects (data (env l')) = objects (data (env l)) ++ [static_object None sh] /\
        world (env l') = world (env l) ++ [static_object None sh] /\
        is_Some (vector_at (surfaces (data (env l))) (surface object))
    else
      meshes (data (env l')) = meshes (data (env l)) /\
      shapes (data (env l')) = shapes (data (env l)) /\
      objects (data (env l')) = objects (data (env l)) /\
      world (env l') = world (env l).
Proof.
  intros Hc. unfold load_object. rewrite Hc.
  destruct (if packload l then _ else _) as [model_ c] eqn:Hload.
  expose. destruct (AddObject _ _) as [[ok e1]| | |] eqn:Ha; try discriminate.
  pose proof (AddObject_true _ _ _ _ Ha) as ->. intros [= <- <- <-].
  split; [reflexivity|]. split; [reflexivity|].
  assert (exists h, model_ = Some h) as [h ->].
  { revert Ha. unfold AddObject. cbn. destruct model_; [eauto|discriminate]. }
  apply AddObject_adds in Ha as (Hm & Hd & _ & Hcont & _ & Hcol). cbn in *.
  exists h. split; [|split; [exact Hm|split; [exact Hd|exact Hcol]]].
  rewrite Hcont. unfold content_get. revert Hload.
  unfold content_load, content_load_pack, load_from, store.
  repeat case_step; intros [= <- <-]; try discriminate; cbn;
    first [assumption | apply lookup_insert_eq].
Qed.

(** X24: the legacy path does not look at the result of its model load: for
    a record whose model is in no cache, no archive and no file, without
    combining, the null model is handed to [AddObject], which takes the
    model behind it.  The modern path turns such an object down and goes
    on. *)
Theorem load_object_needs_the_model (cf : Config) (name : string) (object : OBJECT)
    (l : LOADER) :
  agressive_combining cf = false ->
  cache (content (env l)) !! name = None ->
  model_files (content (env l)) !! name = None ->
  (forall archive : gmap string MODEL.t, pack l = Some archive -> archive !! name = None) ->
  load_object cf name object l = Undefined "*object.model".
Proof.
  intros Hc Hcache Hfile Hpack. unfold load_object. rewrite Hc.
  assert ((if packload l
           then match pack l with
                | Some archive => content_load_pack name archive (content (env l))
                | None => (None, content (env l))
                end
           else content_load name (content (env l))) = (None, content (env l))) as ->.
  { unfold content_load, content_load_pack, load_from. rewrite Hcache, Hfile.
    destruct (packload l); [|reflexivity].
    destruct (pack l) as [archive|]; [|reflexivity]. rewrite (Hpack _ eq_refl).
    reflexivity. }
  reflexivity.
Qed.

(** X25: when the list is through, every entry of [combined] becomes one
    object of the track: [add_combined] gives the track one model and one
    drawable for each, whatever number of records went into it. *)
Theorem add_combined_adds_one_object_for_each_entry (entries : list (string * OBJECT))
    (l l' : LOADER) :
  add_combined entries l = Ret l' ->
  List.length (models (data (env l')))
    = (List.length (models (data (env l))) + List.length entries)%nat /\
  drawn (static_node (data (env l')))
    = (drawn (static_node (data (env l))) + List.length entries)%nat.
Proof.
  revert l. induction entries as [|[key object] rest IH]; intros l; cbn [add_combined].
  { intros [= <-]. cbn. lia. }
  destruct (deref (content (env l)) (model object)) as [m|]; [|discriminate].
  expose.
  destruct (if negb (MODEL.HaveMeshMetrics m) then _ else _) as [[object1 l1]| | |] eqn:Hc;
    try discriminate.
  assert (data (env l1) = data (env l)) as H1.
  { destruct (negb (MODEL.HaveMeshMetrics m)); [|injection Hc as <- <-; auto].
    unfold content_load_varray in Hc. revert Hc. repeat case_step; try discriminate;
      intros [= <- <-]; auto. }
  destruct (AddObject object1 (env l1)) as [[ok e1]| | |] eqn:Ha; try discriminate.
  apply AddObject_adds in Ha as (Hm & Hd & _). intros Hr. apply IH in Hr as [Hr1 Hr2].
  cbn in Hr1, Hr2. rewrite Hr1, Hr2, Hm, Hd, H1, length_app. cbn. lia.
Qed.

End LegacyObjects.


(** X23 at work: the wall, collideable, on surface 1. *)
Lemma load_object_adds_one_object_witness :
  exists err more l',
    load_object config_new "wall.joe" wall_object loader_walls = Ret (err, more, l') /\
    err = false /\ more = true /\
    exists h,
      content_get "wall.joe" (content (env l')) = Some h /\
      models (data (env l')) = models (data (env loader_walls)) ++ [Some h] /\
      drawn (static_node (data (env l')))
        = S (drawn (static_node (data (env loader_walls)))) /\
      exists mesh,
        let sh := btBvhTriangleMeshShape mesh (Some 1) in
        meshes (data (env l')) = meshes (data (env loader_walls)) ++ [mesh] /\
        shapes (data (env l')) = shapes (data (env loader_walls)) ++ [sh] /\
        objects (data (env l'))
          = objects (data (env loader_walls)) ++ [static_object None sh] /\
        world (env l') = world (env loader_walls) ++ [static_object None sh] /\
        is_Some (vector_at (surfaces (data (env loader_walls))) 1).
Proof.
  eexists _, _, _. split; [vm_compute; reflexivity|].
  apply (load_object_adds_one_object config_new "wall.joe" wall_object loader_walls _
           false true);
    [reflexivity|vm_compute; reflexivity].
Defined.

(** X24 at work: a model that is nowhere. *)
Lemma load_object_needs_the_model_witness :
  load_object config_new "ghost.joe" wall_object loader_walls = Undefined "*object.model".
Proof.
  apply (load_object_needs_the_model config_new "ghost.joe" wall_object loader_walls);
    [reflexivity|reflexivity|reflexivity|discriminate].
Defined.

(** X25 at work: one entry. *)
Lemma add_combined_adds_one_object_for_each_entry_witness :
  let entries := [("wall.png", wall_combined)] in
  let l := LOADER_new env_wall false in
  exists l',
    add_combined entries l = Ret l' /\
    List.length (models (data (env l')))
      = (List.length (models (data (env l))) + List.length entries)%nat /\
    drawn (static_node (data (env l')))
      = (drawn (static_node (data (env l))) + List.length entries)%nat.
Proof.
  eexists. split; [vm_compute; reflexivity|].
  apply (add_combined_adds_one_object_for_each_entry [("wall.png", wall_combined)]
           (LOADER_new env_wall false)).
  vm_compute; reflexivity.
Defined.

(** ** The texture names of a body *)

Section TextureFacts.

Lemma append_nil_r (s : string) : s +:+ "" = s.
Proof. induction s as [|c s IH]; [reflexivity|]. rewrite append_cons, IH. reflexivity. Qed.

Lemma getline_field a s :
  has_comma a = false -> getline ","%char (a +:+ String "," s) = (a, s, false).
Proof.
  intros Ha. induction a as [|c a IH]; rewrite ?append_nil, ?append_cons; cbn [getline].
  - reflexivity.
  - cbn [has_comma] in Ha. apply orb_false_iff in Ha as [Hc Ha]. rewrite Hc, (IH Ha).
    reflexivity.
Qed.

Lemma getline_last a : has_comma a = false -> getline ","%char a = (a, "", true).
Proof.
  intros Ha. induction a as [|c a IH]; cbn [getline]; [reflexivity|].
  cbn [has_comma] in Ha. apply orb_false_iff in Ha as [Hc Ha]. rewrite Hc, (IH Ha).
  reflexivity.
Qed.

Lemma extract_name a : has_space a = false -> fst (extract "" (open (Some a))) = a.
Proof.
  intros Ha. destruct a as [|c a]; [reflexivity|].
  assert (String c a <> "") as Hne by discriminate.
  pose proof (extract_word "" "" (String c a) "" eq_refl Hne Ha eq_refl) as H.
  rewrite append_nil, append_nil_r in H.
  change (open (Some (String c a))) with (stream_of (String c a)). rewrite H. reflexivity.
Qed.

Lemma extract_strings_eof lhs rhs : extract_strings lhs true rhs = rhs.
Proof. destruct rhs; reflexivity. Qed.

(** X26: the texture value of a body is a list of names between commas; the
    names go to the textures in turn, as many as there are textures, and a
    texture that is left without a name stays empty. *)
Theorem extract_strings_splits_at_the_commas (names : list string) (n : nat) :
  Forall clean names ->
  extract_strings (String.concat "," names) false (replicate n "") = resize n "" names.
Proof.
  revert n. induction names as [|a names IH]; intros n Hc.
  - rewrite resize_nil. destruct n as [|n]; [reflexivity|].
    cbn [replicate extract_strings String.concat getline].
    rewrite extract_strings_eof. reflexivity.
  - inversion Hc as [|? ? [Hco Hsp] Hcs]; subst.
    destruct n as [|n]; [reflexivity|]. cbn [resize replicate extract_strings].
    destruct names as [|b names].
    + cbn [String.concat]. rewrite (getline_last a Hco), (extract_name a Hsp).
      rewrite extract_strings_eof, resize_nil. reflexivity.
    + change (String.concat "," (a :: b :: names))
        with (a +:+ String "," (String.concat "," (b :: names))).
      rewrite (getline_field a _ Hco), (extract_name a Hsp), (IH n Hcs). reflexivity.
Qed.

End TextureFacts.

(** X26 at work: two names for three textures. *)
Lemma extract_strings_splits_at_the_commas_witness :
  extract_strings (String.concat "," ["lamp.png"; "lamp-misc.png"]) false (replicate 3 "")
  = resize 3 "" ["lamp.png"; "lamp-misc.png"].
Proof.
  apply (extract_strings_splits_at_the_commas ["lamp.png"; "lamp-misc.png"] 3).
  repeat constructor.
Defined.
